(** * homebridge-sinope: the TTL-gated, lock-guarded device state cache

    A shallow embedding of [src/platformAccessory.ts] (the thermostat adapter
    [SinopeAccessory] and the switch adapter [SinopeSwitchAccessory]) and of
    the interfaces of [src/types.ts] they use.

    Modelling decisions.
    - A JavaScript [number] is a rational [Q]: every finite double is a
      rational, and the adapters only copy numbers and compare them with [0].
      The epoch and the expiry are integers ([Math.ceil] of the clock), so
      they are [Z], and the millisecond clock is [Z] too.
    - An optional field ([x?: T]) is an [option]; [None] is [undefined].
    - The adapters are effectful: they read the clock, await the vendor
      client, take the state lock, mutate [this.state], log, push values to
      the hub and call the completion callback.  All of this is a small
      monad [M]: a reader over the replies of the outside world ([Env]), a
      state over the adapter ([Machine]), an exception layer for rejected
      promises, and a writer for the observable [Event]s.
    - The vendor client, the clock and the lock are not part of the
      adapters: their answers are arbitrary, and every theorem quantifies
      over them.  The logger, the hub's [updateCharacteristic] and the
      completion callback only receive values: each call is recorded as an
      event and returns normally.
    - [this.state] is one shared object per adapter; [getState] hands out a
      reference to it, and a handler reads its field through the reference.
    - JavaScript runs one task at a time and a task gives way only at an
      [await].  Invocations that are settled one after the other are
      modelled as their runs back to back ([run_tasks]), each run consuming
      the next answers of the world.
    - Invocations that overlap are modelled by a second reading of the read
      path ([Async]), in which every [await] is a place where the
      invocation gives way, run by an event loop ([Loop], [tick]): the lock
      is a flag and a queue, the vendor answers when it pleases, and every
      turn of the loop has its own clock reading.  The two readings are the
      same code ([same_read], [lone_read_as_sequential]). *)

From Stdlib Require Import ZArith QArith String List Bool Lia.
From Stdlib Require Import Permutation Morphisms Setoid.
Import ListNotations.
Local Open Scope string_scope.
Local Open Scope list_scope.
Local Open Scope Z_scope.

(** ** Numbers *)

Definition number : Type := Q.

(** [a > b] on numbers. *)
Definition number_gt (a b : number) : bool := negb (Qle_bool a b).

(** [a === b] on numbers. *)
Definition number_eq (a b : number) : bool := Qeq_bool a b.

Definition num (z : Z) : number := inject_Z z.

(** [x === lit] for an optional string [x] and a string literal. *)
Definition string_is (x : option string) (lit : string) : bool :=
  match x with
  | Some s => String.eqb s lit
  | None => false
  end.

(** ** The interfaces of types.ts *)

Record SinopeDevice := {
  id : Z;
  identifier : string;
  name : string;
  parentDevice_id : option Z;      (* parentDevice$id *)
  sku : string;
  vendor : string
}.

Module RootTemperature.
(** The interface declares [value: number]; the refresh nevertheless tests
    [value != null], so the field is optional here. *)
Record t := mk { value : option number }.
End RootTemperature.

Module SinopeDeviceState.
(** The fields [errorCodeSet1] and [drStatus], of type [any], are never read
    by the adapters and are left out. *)
Record t := mk {
  roomTemperature : option RootTemperature.t;
  roomSetpoint : option number;
  outputPercentDisplay : option number;
  setpointMode : option string;
  onOff : option string;
  wattageInstant : option number
}.

(** [deviceState.roomTemperature != null &&
     deviceState.roomTemperature.value != null], with the value found. *)
Definition roomTemperature_value (d : t) : option number :=
  match roomTemperature d with
  | Some rt => RootTemperature.value rt
  | None => None
  end.
End SinopeDeviceState.

Module SinopeDeviceStateRequest.
Record t := mk {
  roomSetpoint : option number;
  setpointMode : option string;
  onOff : option string
}.
End SinopeDeviceStateRequest.

(** ** The cached state (class State) *)

Module State.
(** The [lock] field is the adapter's lock; its queue lives in the event
    loop and is part of the outside world, see [lock_acquire]. *)
Record t := mk {
  currentTemperature : option number;
  targetTemperature : option number;
  currentHeatingCoolingState : option number;
  targetHeatingCoolingState : option number;
  onOff : option bool;
  validUntil : Z
}.

(** [new State()]: the field initialisers. *)
Definition new : t :=
  {| currentTemperature := Some (num 0);
     targetTemperature := Some (num 0);
     currentHeatingCoolingState := Some (num 0);
     targetHeatingCoolingState := Some (num 0);
     onOff := None;
     validUntil := 0 |}.

Definition set_currentTemperature (v : option number) (s : t) : t :=
  mk v (targetTemperature s) (currentHeatingCoolingState s)
     (targetHeatingCoolingState s) (onOff s) (validUntil s).
Definition set_targetTemperature (v : option number) (s : t) : t :=
  mk (currentTemperature s) v (currentHeatingCoolingState s)
     (targetHeatingCoolingState s) (onOff s) (validUntil s).
Definition set_currentHeatingCoolingState (v : option number) (s : t) : t :=
  mk (currentTemperature s) (targetTemperature s) v
     (targetHeatingCoolingState s) (onOff s) (validUntil s).
Definition set_targetHeatingCoolingState (v : option number) (s : t) : t :=
  mk (currentTemperature s) (targetTemperature s)
     (currentHeatingCoolingState s) v (onOff s) (validUntil s).
Definition set_onOff (v : option bool) (s : t) : t :=
  mk (currentTemperature s) (targetTemperature s)
     (currentHeatingCoolingState s) (targetHeatingCoolingState s) v
     (validUntil s).
Definition set_validUntil (v : Z) (s : t) : t :=
  mk (currentTemperature s) (targetTemperature s)
     (currentHeatingCoolingState s) (targetHeatingCoolingState s) (onOff s)
     v.
End State.

(** ** Values exchanged with the hub *)

(** A [CharacteristicValue] as the hub delivers it for the characteristics
    registered here: a number (heating-cooling state, temperature) or a
    boolean (On). *)
Inductive CharacteristicValue :=
| VNum (n : number)
| VBool (b : bool).

(** [Number(value)]. *)
Definition Number (v : CharacteristicValue) : number :=
  match v with
  | VNum n => n
  | VBool true => num 1
  | VBool false => num 0
  end.

(** Truthiness of [value] in [value ? "on" : "off"]. *)
Definition truthy (v : CharacteristicValue) : bool :=
  match v with
  | VNum n => negb (number_eq n (num 0))
  | VBool b => b
  end.

Inductive Characteristic :=
| CurrentTemperature
| TargetTemperature
| CurrentHeatingCoolingState
| TargetHeatingCoolingState
| OutletInUse.

(** What a rejected promise carries. *)
Inductive Exn :=
| VendorError        (* fetchDevice or updateDevice rejected *)
| LockError.         (* lock.acquire rejected: the task stayed queued past the timeout *)

Inductive Result (A : Type) :=
| Resolved (a : A)
| Rejected (e : Exn).
Arguments Resolved {A} a.
Arguments Rejected {A} e.

(** ** Observable events *)

(** A log line is recorded by its level and its format string. *)
Inductive Event :=
| Log_debug (fmt : string)
| Log_error (fmt : string)
| FetchDevice (device_id : Z)
| UpdateDevice (device_id : Z) (body : SinopeDeviceStateRequest.t)
| UpdateCharacteristic (c : Characteristic) (v : option CharacteristicValue)
| Callback (err : option Exn) (v : option CharacteristicValue).

(** ** The outside world *)

(** The replies of the outside world, indexed by the order in which the
    adapter asks: the [n]-th reading of the clock in milliseconds, the
    outcome of the [n]-th [fetchDevice] ([None]: the promise rejects), of the
    [n]-th [updateDevice] ([false]: it rejects) and of the [n]-th
    [lock.acquire] ([false]: the task waited in the queue for more than the
    lock's [timeout: 5000] and [acquire] rejects without running it).
    The vendor client [platform.neviweb] is used through these two calls
    only, both asynchronous and fallible; nothing more is assumed of it. *)
Record Env := {
  getTime : nat -> Z;
  fetchReply : nat -> option SinopeDeviceState.t;
  updateReply : nat -> bool;
  lockReply : nat -> bool
}.

(** The adapter: its one [State] object and how many questions it has asked
    the world so far. *)
Record Machine := {
  state : State.t;
  nTime : nat;
  nFetch : nat;
  nUpdate : nat;
  nLock : nat
}.

Definition with_state (s : State.t) (m : Machine) : Machine :=
  {| state := s; nTime := nTime m; nFetch := nFetch m;
     nUpdate := nUpdate m; nLock := nLock m |}.

(** One more question asked of each kind. *)
Definition asked_time (m : Machine) : Machine :=
  {| state := state m; nTime := S (nTime m); nFetch := nFetch m;
     nUpdate := nUpdate m; nLock := nLock m |}.
Definition asked_fetch (m : Machine) : Machine :=
  {| state := state m; nTime := nTime m; nFetch := S (nFetch m);
     nUpdate := nUpdate m; nLock := nLock m |}.
Definition asked_update (m : Machine) : Machine :=
  {| state := state m; nTime := nTime m; nFetch := nFetch m;
     nUpdate := S (nUpdate m); nLock := nLock m |}.
Definition asked_lock (m : Machine) : Machine :=
  {| state := state m; nTime := nTime m; nFetch := nFetch m;
     nUpdate := nUpdate m; nLock := S (nLock m) |}.

(** ** The monad *)

Definition M (A : Type) : Type :=
  Env -> Machine -> Result A * Machine * list Event.

Definition ret {A} (a : A) : M A := fun _ m => (Resolved a, m, []).

Definition bind {A B} (c : M A) (f : A -> M B) : M B :=
  fun env m =>
    match c env m with
    | (Resolved a, m1, t1) =>
        match f a env m1 with
        | (r, m2, t2) => (r, m2, t1 ++ t2)
        end
    | (Rejected e, m1, t1) => (Rejected e, m1, t1)
    end.

Notation "x <- c ;; k" := (bind c (fun x => k))
  (at level 61, c at next level, right associativity).
Notation "c ;; k" := (bind c (fun _ => k))
  (at level 61, right associativity).

(** [try { c } catch (error) { h }]. *)
Definition try_catch {A} (c : M A) (h : Exn -> M A) : M A :=
  fun env m =>
    match c env m with
    | (Resolved a, m1, t1) => (Resolved a, m1, t1)
    | (Rejected e, m1, t1) =>
        match h e env m1 with
        | (r, m2, t2) => (r, m2, t1 ++ t2)
        end
    end.

Definition emit (e : Event) : M unit := fun _ m => (Resolved tt, m, [e]).

(** Reading [this.state]. *)
Definition get_state : M State.t := fun _ m => (Resolved (state m), m, []).

(** An assignment to a field of [this.state]. *)
Definition assign (f : State.t -> State.t) : M unit :=
  fun _ m => (Resolved tt, with_state (f (state m)) m, []).

(** [(new Date()).getTime()]. *)
Definition now : M Z :=
  fun env m =>
    (Resolved (getTime env (nTime m)), asked_time m, []).

(** [await this.platform.neviweb.fetchDevice(id)]. *)
Definition fetchDevice (device_id : Z) : M SinopeDeviceState.t :=
  fun env m =>
    ((match fetchReply env (nFetch m) with
      | Some d => Resolved d
      | None => Rejected VendorError
      end),
     asked_fetch m,
     [FetchDevice device_id]).

(** [await this.platform.neviweb.updateDevice(id, body)]. *)
Definition updateDevice (device_id : Z) (body : SinopeDeviceStateRequest.t)
  : M unit :=
  fun env m =>
    ((if updateReply env (nUpdate m) then Resolved tt
      else Rejected VendorError),
     asked_update m,
     [UpdateDevice device_id body]).

(** [await lock.acquire(key, async () => body)]: the lock runs the bodies
    queued under one key one at a time, in arrival order; a task that waits
    longer than the timeout is rejected and its body never runs. *)
Definition lock_acquire {A} (key : string) (body : M A) : M A :=
  fun env m =>
    if lockReply env (nLock m) then body env (asked_lock m)
    else (Rejected LockError, asked_lock m, []).

(** The events of a run. *)
Definition events {R} (r : R * Machine * list Event) : list Event :=
  snd r.
(** The adapter after a run. *)
Definition final {R} (r : R * Machine * list Event) : Machine :=
  snd (fst r).
(** How a run ended. *)
Definition outcome {R} (r : R * Machine * list Event) : R :=
  fst (fst r).

(** The reference to [this.state] that [getState] returns. *)
Inductive StateRef := this_state.

(** [state.field], read through the reference. *)
Definition read {A} (r : StateRef) (field : State.t -> A) : M A :=
  s <- get_state ;; ret (field s).

Definition STATE_KEY : string := "state".

(** [Math.ceil(ms / 1000)]. *)
Definition ceil_seconds (ms : Z) : Z := - ((- ms) / 1000).

Definition log_debug (fmt : string) : M unit := emit (Log_debug fmt).
Definition log_error (fmt : string) : M unit := emit (Log_error fmt).

(** [callback(null, v)] and [callback(null)]. *)
Definition callback (err : option Exn) (v : option CharacteristicValue)
  : M unit := emit (Callback err v).

Definition updateCharacteristic (c : Characteristic)
  (v : option CharacteristicValue) : M unit :=
  emit (UpdateCharacteristic c v).

(** ** The thermostat adapter (class SinopeAccessory) *)

Module SinopeAccessory.
Section Adapter.
Variable device : SinopeDevice.

Definition currentEpoch : M Z :=
  ms <- now ;; ret (ceil_seconds ms).

(** [timestamp > this.currentEpoch() && timestamp !== undefined]; a [Z] is
    never [undefined]. *)
Definition isValid (timestamp : Z) : M bool :=
  epoch <- currentEpoch ;; ret ((epoch <? timestamp) && true).

Definition updateState : M unit :=
  try_catch
    (deviceState <- fetchDevice (id device) ;;
     log_debug "fetched update for device %s from Neviweb API: %s" ;;
     epoch <- currentEpoch ;;
     assign (State.set_validUntil (epoch + 10)) ;;
     match SinopeDeviceState.roomTemperature_value deviceState with
     | Some v =>
         assign (State.set_currentTemperature (Some v)) ;;
         s <- get_state ;;
         updateCharacteristic CurrentTemperature
           (option_map VNum (State.currentTemperature s)) ;;
         assign (State.set_targetTemperature
                   (SinopeDeviceState.roomSetpoint deviceState)) ;;
         s <- get_state ;;
         match State.targetTemperature s with
         | Some t => updateCharacteristic TargetTemperature (Some (VNum t))
         | None => ret tt
         end ;;
         (if match SinopeDeviceState.outputPercentDisplay deviceState with
             | Some p => number_gt p (num 0)
             | None => false
             end
          then assign (State.set_currentHeatingCoolingState (Some (num 1)))
          else assign (State.set_currentHeatingCoolingState (Some (num 0)))) ;;
         s <- get_state ;;
         updateCharacteristic CurrentHeatingCoolingState
           (option_map VNum (State.currentHeatingCoolingState s)) ;;
         (if string_is (SinopeDeviceState.setpointMode deviceState) "auto"
          then assign (State.set_targetHeatingCoolingState (Some (num 3)))
          else if string_is (SinopeDeviceState.setpointMode deviceState) "off"
          then assign (State.set_targetHeatingCoolingState (Some (num 0)))
          else assign (State.set_targetHeatingCoolingState (Some (num 1)))) ;;
         s <- get_state ;;
         updateCharacteristic TargetHeatingCoolingState
           (option_map VNum (State.targetHeatingCoolingState s))
     | None =>
         match SinopeDeviceState.onOff deviceState with
         | Some o =>
             assign (State.set_onOff
                       (Some (if String.eqb o "on" then true else false))) ;;
             s <- get_state ;;
             match State.onOff s with
             | Some b => updateCharacteristic OutletInUse (Some (VBool b))
             | None => ret tt
             end
         | None => ret tt
         end
     end)
    (fun _ =>
       log_error "could not fetch update for device %s from Neviweb API").

Definition getState : M StateRef :=
  lock_acquire STATE_KEY
    (s <- get_state ;;
     valid <- isValid (State.validUntil s) ;;
     (if negb valid
      then log_debug "updating state for accessory %s" ;; updateState
      else log_debug "state is still valid for accessory %s") ;;
     ret this_state).

Definition handleCurrentHeatingCoolingStateGet : M unit :=
  log_debug "Triggered GET CurrentHeatingCoolingState" ;;
  st <- getState ;;
  v <- read st State.currentHeatingCoolingState ;;
  callback None (option_map VNum v).

Definition handleTargetHeatingCoolingStateGet : M unit :=
  log_debug "Triggered GET TargetHeatingCoolingState" ;;
  st <- getState ;;
  v <- read st State.targetHeatingCoolingState ;;
  callback None (option_map VNum v).

Definition handleTargetHeatingCoolingStateSet (value : CharacteristicValue)
  : M unit :=
  log_debug "Triggered SET TargetHeatingCoolingState:" ;;
  st <- getState ;;
  let mode := Number value in
  target <- read st State.targetHeatingCoolingState ;;
  match
    (if number_eq mode (num 0) then Some "off"
     else if negb (number_eq mode (num 0)) &&
             match target with
             | Some t => number_eq t (num 0)
             | None => false
             end
     then Some "auto"
     else None)
  with
  | None => callback None None          (* callback(null); return; *)
  | Some setpointMode =>
      let body :=
        SinopeDeviceStateRequest.mk None (Some setpointMode) None in
      try_catch
        (updateDevice (id device) body ;;
         log_debug "updated device %s with TargetTemperature %d")
        (fun _ =>
           log_error "could not update TargetTemperature of device %s") ;;
      callback None None
  end.

Definition handleCurrentTemperatureGet : M unit :=
  log_debug "Triggered GET CurrentTemperature" ;;
  st <- getState ;;
  v <- read st State.currentTemperature ;;
  callback None (option_map VNum v).

Definition handleTargetTemperatureGet : M unit :=
  log_debug "Triggered GET TargetTemperature" ;;
  st <- getState ;;
  v <- read st State.targetTemperature ;;
  callback None (option_map VNum v).

Definition handleTargetTemperatureSet (value : CharacteristicValue)
  : M unit :=
  log_debug "Triggered SET TargetTemperature:" ;;
  let body := SinopeDeviceStateRequest.mk (Some (Number value)) None None in
  try_catch
    (updateDevice (id device) body ;;
     log_debug "updated device %s with TargetTemperature %d")
    (fun _ => log_error "could not update TargetTemperature of device %s") ;;
  callback None None.

Definition handleTemperatureDisplayUnitsGet : M unit :=
  log_debug "Triggered GET TemperatureDisplayUnits" ;;
  callback None (Some (VNum (num 1))).

Definition handleTemperatureDisplayUnitsSet (value : CharacteristicValue)
  : M unit :=
  log_debug "Triggered SET TemperatureDisplayUnits:" ;;
  callback None None.

(** The last statement of the constructor, [this.updateState()]: the
    promise is not awaited and the call is made outside the lock. *)
Definition constructor : M unit := updateState.
End Adapter.
End SinopeAccessory.

(** ** The switch adapter (class SinopeSwitchAccessory) *)

Module SinopeSwitchAccessory.
Section Adapter.
Variable device : SinopeDevice.

Definition currentEpoch : M Z :=
  ms <- now ;; ret (ceil_seconds ms).

Definition isValid (timestamp : Z) : M bool :=
  epoch <- currentEpoch ;; ret ((epoch <? timestamp) && true).

Definition updateState : M unit :=
  try_catch
    (deviceState <- fetchDevice (id device) ;;
     log_debug "fetched update for device %s from Neviweb API: %s" ;;
     epoch <- currentEpoch ;;
     assign (State.set_validUntil (epoch + 10)) ;;
     match SinopeDeviceState.onOff deviceState with
     | Some o =>
         assign (State.set_onOff
                   (Some (if String.eqb o "on" then true else false))) ;;
         s <- get_state ;;
         match State.onOff s with
         | Some b => updateCharacteristic OutletInUse (Some (VBool b))
         | None => ret tt
         end
     | None => ret tt
     end)
    (fun _ =>
       log_error "could not fetch update for device %s from Neviweb API").

Definition getState : M StateRef :=
  lock_acquire STATE_KEY
    (s <- get_state ;;
     valid <- isValid (State.validUntil s) ;;
     (if negb valid
      then log_debug "updating state for accessory %s" ;; updateState
      else log_debug "state is still valid for accessory %s") ;;
     ret this_state).

Definition getOnCharacteristicHandler : M unit :=
  log_debug "Triggered GET getOnCharacteristicHandler" ;;
  st <- getState ;;
  v <- read st State.onOff ;;
  callback None (option_map VBool v).

Definition setOnCharacteristicHandler (value : CharacteristicValue)
  : M unit :=
  log_debug "Triggered SET Senope Switch State:" ;;
  let body :=
    SinopeDeviceStateRequest.mk None None
      (Some (if truthy value then "on" else "off")) in
  try_catch
    (updateDevice (id device) body ;;
     log_debug "updated device %s with TargetTemperature %d")
    (fun _ => log_error "could not update TargetTemperature of device %s") ;;
  callback None None.

Definition constructor : M unit := updateState.
End Adapter.
End SinopeSwitchAccessory.

(** ** Tasks on the event loop *)

(** Invocations served one after the other, in arrival order: this is the
    order in which the lock runs the critical sections of handlers that were
    invoked together, a reader that arrives during a refresh being queued
    until the refresh is over.  An invocation that rejects does not stop the
    others: each is a promise of its own. *)
Fixpoint run_tasks (tasks : list (M unit)) (env : Env) (m : Machine)
  : list (Result unit) * Machine * list Event :=
  match tasks with
  | [] => ([], m, [])
  | task :: rest =>
      match task env m with
      | (r, m1, t1) =>
          match run_tasks rest env m1 with
          | (rs, m2, t2) => (r :: rs, m2, t1 ++ t2)
          end
      end
  end.

(** ** What a trace shows *)

Definition is_fetch (e : Event) : bool :=
  match e with FetchDevice _ => true | _ => false end.

Definition is_error_log (e : Event) : bool :=
  match e with Log_error _ => true | _ => false end.

(** The vendor fetches of a trace. *)
Definition fetches (t : list Event) : list Event := filter is_fetch t.

(** The patches sent to the vendor, in order. *)
Fixpoint patches (t : list Event) : list SinopeDeviceStateRequest.t :=
  match t with
  | [] => []
  | UpdateDevice _ body :: rest => body :: patches rest
  | _ :: rest => patches rest
  end.

(** The invocations of the completion callback, in order. *)
Fixpoint callbacks (t : list Event)
  : list (option Exn * option CharacteristicValue) :=
  match t with
  | [] => []
  | Callback err v :: rest => (err, v) :: callbacks rest
  | _ :: rest => callbacks rest
  end.

Definition error_logs (t : list Event) : list Event := filter is_error_log t.

(** A machine that has asked the world nothing yet. *)
Definition boot (s : State.t) : Machine :=
  {| state := s; nTime := 0; nFetch := 0; nUpdate := 0; nLock := 0 |}.

Definition is_push (e : Event) : bool :=
  match e with UpdateCharacteristic _ _ => true | _ => false end.

(** The four read characteristics of the thermostat. *)
Inductive Read :=
| ReadCurrentTemperature
| ReadTargetTemperature
| ReadCurrentHeatingCoolingState
| ReadTargetHeatingCoolingState.

(** The handler registered for a read characteristic, *)
Definition read_handler (device : SinopeDevice) (r : Read) : M unit :=
  match r with
  | ReadCurrentTemperature =>
      SinopeAccessory.handleCurrentTemperatureGet device
  | ReadTargetTemperature =>
      SinopeAccessory.handleTargetTemperatureGet device
  | ReadCurrentHeatingCoolingState =>
      SinopeAccessory.handleCurrentHeatingCoolingStateGet device
  | ReadTargetHeatingCoolingState =>
      SinopeAccessory.handleTargetHeatingCoolingStateGet device
  end.

(** and the cached field it reports. *)
Definition read_field (r : Read) (s : State.t) : option CharacteristicValue :=
  match r with
  | ReadCurrentTemperature => option_map VNum (State.currentTemperature s)
  | ReadTargetTemperature => option_map VNum (State.targetTemperature s)
  | ReadCurrentHeatingCoolingState =>
      option_map VNum (State.currentHeatingCoolingState s)
  | ReadTargetHeatingCoolingState =>
      option_map VNum (State.targetHeatingCoolingState s)
  end.

(** ** Statements about one call of a state accessor *)

(** The TTL gate, for one call [getState] of the state accessor of [device]
    made on machine [m]: [epoch] is what the validity check reads off the
    clock, and the refresh, when there is one, reads the clock once more
    after its fetch. *)
Definition ttl_gate (getState : M StateRef) (device : SinopeDevice)
  (env : Env) (m : Machine) : Prop :=
  let epoch := ceil_seconds (getTime env (nTime m)) in
  let r := getState env m in
  outcome r = Resolved this_state /\
  (State.validUntil (state m) <= epoch ->
     fetches (events r) = [FetchDevice (id device)] /\
     (fetchReply env (nFetch m) <> None ->
        State.validUntil (state (final r)) =
          ceil_seconds (getTime env (S (nTime m))) + 10)) /\
  (State.validUntil (state m) = 0 -> 0 <= getTime env (nTime m) ->
     fetches (events r) = [FetchDevice (id device)]) /\
  (epoch < State.validUntil (state m) ->
     fetches (events r) = [] /\
     state (final r) = state m /\ nFetch (final r) = nFetch m).

(** The debug line a read handler starts with. *)
Definition read_trigger (r : Read) : string :=
  match r with
  | ReadCurrentTemperature => "Triggered GET CurrentTemperature"
  | ReadTargetTemperature => "Triggered GET TargetTemperature"
  | ReadCurrentHeatingCoolingState =>
      "Triggered GET CurrentHeatingCoolingState"
  | ReadTargetHeatingCoolingState => "Triggered GET TargetHeatingCoolingState"
  end.

(** ** Concrete scenarios *)

Definition thermostat_1 : SinopeDevice :=
  {| id := 7; identifier := "500b914000012345"; name := "Living room";
     parentDevice_id := None; sku := "TH1123ZB"; vendor := "Sinope" |}.

Definition switch_1 : SinopeDevice :=
  {| id := 9; identifier := "500b914000054321"; name := "Water heater";
     parentDevice_id := None; sku := "RM3250ZB"; vendor := "Sinope" |}.

(** 21.5 degrees in the room, set to 22, heating at 40 percent. *)
Definition snapshot_heating : SinopeDeviceState.t :=
  SinopeDeviceState.mk (Some (RootTemperature.mk (Some (43 # 2))))
    (Some (num 22)) (Some (num 40)) (Some "auto") None None.

(** The same room, the setpoint missing from the reply. *)
Definition snapshot_no_setpoint : SinopeDeviceState.t :=
  SinopeDeviceState.mk (Some (RootTemperature.mk (Some (43 # 2))))
    None (Some (num 0)) (Some "manual") None None.

Definition snapshot_switch_on : SinopeDeviceState.t :=
  SinopeDeviceState.mk None None None None (Some "on") (Some (num 1500)).

(** A world that always gives the same replies. *)
Definition world (ms : Z) (fetch : option SinopeDeviceState.t)
  (update lock : bool) : Env :=
  {| getTime := fun _ => ms; fetchReply := fun _ => fetch;
     updateReply := fun _ => update; lockReply := fun _ => lock |}.

(** A cache filled at some earlier refresh: 20 degrees, set to 21, heating,
    target mode heat, valid until epoch [expiry]. *)
Definition cached (expiry : Z) : State.t :=
  State.mk (Some (num 20)) (Some (num 21)) (Some (num 1)) (Some (num 1))
    None expiry.

(** The setpoint mode the write settles on, from the requested mode and the
    cached target mode; [None]: nothing is sent. *)
Definition chosen_setpointMode (mode : number) (target : option number)
  : option string :=
  if number_eq mode (num 0) then Some "off"
  else if negb (number_eq mode (num 0)) &&
          match target with
          | Some t => number_eq t (num 0)
          | None => false
          end
  then Some "auto"
  else None.

(** ** What can be invoked on an adapter *)

(** The constructor's own refresh and the handlers it registers with the
    hub, for the thermostat, *)
Inductive ThermostatTask :=
| TConstruct
| TGet (r : Read)
| TSetTargetTemperature (value : CharacteristicValue)
| TSetTargetHeatingCoolingState (value : CharacteristicValue)
| TGetTemperatureDisplayUnits
| TSetTemperatureDisplayUnits (value : CharacteristicValue).

Definition thermostat_task (device : SinopeDevice) (t : ThermostatTask)
  : M unit :=
  match t with
  | TConstruct => SinopeAccessory.constructor device
  | TGet r => read_handler device r
  | TSetTargetTemperature value =>
      SinopeAccessory.handleTargetTemperatureSet device value
  | TSetTargetHeatingCoolingState value =>
      SinopeAccessory.handleTargetHeatingCoolingStateSet device value
  | TGetTemperatureDisplayUnits =>
      SinopeAccessory.handleTemperatureDisplayUnitsGet
  | TSetTemperatureDisplayUnits value =>
      SinopeAccessory.handleTemperatureDisplayUnitsSet value
  end.

(** and for the switch. *)
Inductive SwitchTask :=
| SConstruct
| SGetOn
| SSetOn (value : CharacteristicValue).

Definition switch_task (device : SinopeDevice) (t : SwitchTask) : M unit :=
  match t with
  | SConstruct => SinopeSwitchAccessory.constructor device
  | SGetOn => SinopeSwitchAccessory.getOnCharacteristicHandler device
  | SSetOn value =>
      SinopeSwitchAccessory.setOnCharacteristicHandler device value
  end.

(** [x === 0] for a cached mode. *)
Definition is_zero (x : option number) : Prop :=
  exists q, x = Some q /\ (q == 0)%Q.

(** ** Further observations of a trace *)

(** The values pushed to the hub, in order. *)
Fixpoint pushes (t : list Event)
  : list (Characteristic * option CharacteristicValue) :=
  match t with
  | [] => []
  | UpdateCharacteristic c v :: rest => (c, v) :: pushes rest
  | _ :: rest => pushes rest
  end.

(** The device a vendor call is made for, compared with [device_id]; the
    other events are not vendor calls. *)
Definition addressed_to (device_id : Z) (e : Event) : bool :=
  match e with
  | FetchDevice i => i =? device_id
  | UpdateDevice i _ => i =? device_id
  | _ => true
  end.

(** ** Invocations that overlap *)

(** The adapters again, this time with the places where an [async] function
    gives way made explicit, so that invocations can overlap.  An [Async A]
    is what is left to run of an invocation: it has settled, or it does one
    synchronous thing and goes on, or it waits for the vendor or for the
    lock, or it has resumed after an [await] and is ready to go on. *)
Inductive Async (A : Type) : Type :=
| Settled (r : Result A)
| Emits (e : Event) (k : Async A)
| Reads (k : State.t -> Async A)
| Assigns (f : State.t -> State.t) (k : Async A)
| ReadsClock (k : Z -> Async A)
| AwaitsFetch (device_id : Z) (k : option SinopeDeviceState.t -> Async A)
| AwaitsUpdate (device_id : Z) (body : SinopeDeviceStateRequest.t)
    (k : bool -> Async A)
| AwaitsLock (k : bool -> Async A)
| ReleasesLock (k : Async A)
| Yields (k : Async A).
Arguments Settled {A} r.
Arguments Emits {A} e k.
Arguments Reads {A} k.
Arguments Assigns {A} f k.
Arguments ReadsClock {A} k.
Arguments AwaitsFetch {A} device_id k.
Arguments AwaitsUpdate {A} device_id body k.
Arguments AwaitsLock {A} k.
Arguments ReleasesLock {A} k.
Arguments Yields {A} k.

Definition aret {A} (a : A) : Async A := Settled (Resolved a).

Fixpoint abind {A B} (p : Async A) (f : A -> Async B) : Async B :=
  match p with
  | Settled (Resolved a) => f a
  | Settled (Rejected e) => Settled (Rejected e)
  | Emits e k => Emits e (abind k f)
  | Reads k => Reads (fun s => abind (k s) f)
  | Assigns g k => Assigns g (abind k f)
  | ReadsClock k => ReadsClock (fun ms => abind (k ms) f)
  | AwaitsFetch i k => AwaitsFetch i (fun r => abind (k r) f)
  | AwaitsUpdate i b k => AwaitsUpdate i b (fun r => abind (k r) f)
  | AwaitsLock k => AwaitsLock (fun g => abind (k g) f)
  | ReleasesLock k => ReleasesLock (abind k f)
  | Yields k => Yields (abind k f)
  end.

(** [try { p } catch (error) { h }]. *)
Fixpoint atry {A} (p : Async A) (h : Exn -> Async A) : Async A :=
  match p with
  | Settled (Resolved a) => Settled (Resolved a)
  | Settled (Rejected e) => h e
  | Emits e k => Emits e (atry k h)
  | Reads k => Reads (fun s => atry (k s) h)
  | Assigns g k => Assigns g (atry k h)
  | ReadsClock k => ReadsClock (fun ms => atry (k ms) h)
  | AwaitsFetch i k => AwaitsFetch i (fun r => atry (k r) h)
  | AwaitsUpdate i b k => AwaitsUpdate i b (fun r => atry (k r) h)
  | AwaitsLock k => AwaitsLock (fun g => atry (k g) h)
  | ReleasesLock k => ReleasesLock (atry k h)
  | Yields k => Yields (atry k h)
  end.

(** [await p] for the promise of an [async] function of the adapter: when
    [p] has settled, the caller goes on in a later turn of the loop. *)
Fixpoint await {A} (p : Async A) : Async A :=
  match p with
  | Settled r => Yields (Settled r)
  | Emits e k => Emits e (await k)
  | Reads k => Reads (fun s => await (k s))
  | Assigns g k => Assigns g (await k)
  | ReadsClock k => ReadsClock (fun ms => await (k ms))
  | AwaitsFetch i k => AwaitsFetch i (fun r => await (k r))
  | AwaitsUpdate i b k => AwaitsUpdate i b (fun r => await (k r))
  | AwaitsLock k => AwaitsLock (fun g => await (k g))
  | ReleasesLock k => ReleasesLock (await k)
  | Yields k => Yields (await k)
  end.

(** The body of a critical section: the lock is given back when the body
    has settled, resolved or rejected. *)
Fixpoint then_release {A} (p : Async A) : Async A :=
  match p with
  | Settled r => ReleasesLock (Settled r)
  | Emits e k => Emits e (then_release k)
  | Reads k => Reads (fun s => then_release (k s))
  | Assigns g k => Assigns g (then_release k)
  | ReadsClock k => ReadsClock (fun ms => then_release (k ms))
  | AwaitsFetch i k => AwaitsFetch i (fun r => then_release (k r))
  | AwaitsUpdate i b k => AwaitsUpdate i b (fun r => then_release (k r))
  | AwaitsLock k => AwaitsLock (fun g => then_release (k g))
  | ReleasesLock k => ReleasesLock (then_release k)
  | Yields k => Yields (then_release k)
  end.

(** [lock.acquire(key, async () => body)]: the caller waits until the lock
    is its own, or until it has waited too long. *)
Definition alock_acquire {A} (key : string) (body : Async A) : Async A :=
  AwaitsLock (fun granted =>
                if granted then then_release body
                else Settled (Rejected LockError)).

Definition aemit (e : Event) : Async unit := Emits e (aret tt).
Definition alog_debug (fmt : string) : Async unit := aemit (Log_debug fmt).
Definition alog_error (fmt : string) : Async unit := aemit (Log_error fmt).
Definition acallback (err : option Exn) (v : option CharacteristicValue)
  : Async unit := aemit (Callback err v).
Definition aupdateCharacteristic (c : Characteristic)
  (v : option CharacteristicValue) : Async unit :=
  aemit (UpdateCharacteristic c v).
Definition aget_state : Async State.t := Reads (fun s => aret s).
Definition aassign (f : State.t -> State.t) : Async unit :=
  Assigns f (aret tt).
Definition anow : Async Z := ReadsClock (fun ms => aret ms).
Definition aread {A} (r : StateRef) (field : State.t -> A) : Async A :=
  Reads (fun s => aret (field s)).

(** [await this.platform.neviweb.fetchDevice(id)]. *)
Definition afetchDevice (device_id : Z) : Async SinopeDeviceState.t :=
  AwaitsFetch device_id
    (fun reply =>
       match reply with
       | Some d => aret d
       | None => Settled (Rejected VendorError)
       end).

Declare Scope async_scope.
Notation "x <- c ;; k" := (abind c (fun x => k))
  (at level 61, c at next level, right associativity) : async_scope.
Notation "c ;; k" := (abind c (fun _ => k))
  (at level 61, right associativity) : async_scope.

(** The thermostat adapter's refresh, state accessor, read handlers and
    constructor, statement for statement as in [SinopeAccessory]. *)
Module SinopeAccessoryAsync.
Section Adapter.
Variable device : SinopeDevice.
Local Open Scope async_scope.

Definition currentEpoch : Async Z :=
  ms <- anow ;; aret (ceil_seconds ms).

Definition isValid (timestamp : Z) : Async bool :=
  epoch <- currentEpoch ;; aret ((epoch <? timestamp) && true).

Definition updateState : Async unit :=
  atry
    (deviceState <- afetchDevice (id device) ;;
     alog_debug "fetched update for device %s from Neviweb API: %s" ;;
     epoch <- currentEpoch ;;
     aassign (State.set_validUntil (epoch + 10)) ;;
     match SinopeDeviceState.roomTemperature_value deviceState with
     | Some v =>
         aassign (State.set_currentTemperature (Some v)) ;;
         s <- aget_state ;;
         aupdateCharacteristic CurrentTemperature
           (option_map VNum (State.currentTemperature s)) ;;
         aassign (State.set_targetTemperature
                    (SinopeDeviceState.roomSetpoint deviceState)) ;;
         s <- aget_state ;;
         match State.targetTemperature s with
         | Some t => aupdateCharacteristic TargetTemperature (Some (VNum t))
         | None => aret tt
         end ;;
         (if match SinopeDeviceState.outputPercentDisplay deviceState with
             | Some p => number_gt p (num 0)
             | None => false
             end
          then aassign (State.set_currentHeatingCoolingState (Some (num 1)))
          else aassign (State.set_currentHeatingCoolingState (Some (num 0)))) ;;
         s <- aget_state ;;
         aupdateCharacteristic CurrentHeatingCoolingState
           (option_map VNum (State.currentHeatingCoolingState s)) ;;
         (if string_is (SinopeDeviceState.setpointMode deviceState) "auto"
          then aassign (State.set_targetHeatingCoolingState (Some (num 3)))
          else if string_is (SinopeDeviceState.setpointMode deviceState) "off"
          then aassign (State.set_targetHeatingCoolingState (Some (num 0)))
          else aassign (State.set_targetHeatingCoolingState (Some (num 1)))) ;;
         s <- aget_state ;;
         aupdateCharacteristic TargetHeatingCoolingState
           (option_map VNum (State.targetHeatingCoolingState s))
     | None =>
         match SinopeDeviceState.onOff deviceState with
         | Some o =>
             aassign (State.set_onOff
                        (Some (if String.eqb o "on" then true else false))) ;;
             s <- aget_state ;;
             match State.onOff s with
             | Some b => aupdateCharacteristic OutletInUse (Some (VBool b))
             | None => aret tt
             end
         | None => aret tt
         end
     end)
    (fun _ =>
       alog_error "could not fetch update for device %s from Neviweb API").

Definition getState : Async StateRef :=
  await
    (alock_acquire STATE_KEY
       (s <- aget_state ;;
        valid <- isValid (State.validUntil s) ;;
        (if negb valid
         then alog_debug "updating state for accessory %s" ;;
              await updateState
         else alog_debug "state is still valid for accessory %s") ;;
        aret this_state)).

Definition handleCurrentHeatingCoolingStateGet : Async unit :=
  alog_debug "Triggered GET CurrentHeatingCoolingState" ;;
  st <- await getState ;;
  v <- aread st State.currentHeatingCoolingState ;;
  acallback None (option_map VNum v).

Definition handleTargetHeatingCoolingStateGet : Async unit :=
  alog_debug "Triggered GET TargetHeatingCoolingState" ;;
  st <- await getState ;;
  v <- aread st State.targetHeatingCoolingState ;;
  acallback None (option_map VNum v).

Definition handleCurrentTemperatureGet : Async unit :=
  alog_debug "Triggered GET CurrentTemperature" ;;
  st <- await getState ;;
  v <- aread st State.currentTemperature ;;
  acallback None (option_map VNum v).

Definition handleTargetTemperatureGet : Async unit :=
  alog_debug "Triggered GET TargetTemperature" ;;
  st <- await getState ;;
  v <- aread st State.targetTemperature ;;
  acallback None (option_map VNum v).

(** [this.updateState()] at the end of the constructor: not awaited, and
    not inside the lock. *)
Definition constructor : Async unit := updateState.
End Adapter.
End SinopeAccessoryAsync.

(** The invocation of a read handler. *)
Definition read_invocation (device : SinopeDevice) (r : Read) : Async unit :=
  match r with
  | ReadCurrentTemperature =>
      SinopeAccessoryAsync.handleCurrentTemperatureGet device
  | ReadTargetTemperature =>
      SinopeAccessoryAsync.handleTargetTemperatureGet device
  | ReadCurrentHeatingCoolingState =>
      SinopeAccessoryAsync.handleCurrentHeatingCoolingStateGet device
  | ReadTargetHeatingCoolingState =>
      SinopeAccessoryAsync.handleTargetHeatingCoolingStateGet device
  end.

(** An invocation run from start to end with nothing in between, every
    wait answered at once by the world: the sequential reading of the same
    code. *)
Fixpoint seq {A} (p : Async A) (env : Env) (m : Machine)
  : Result A * Machine * list Event :=
  match p with
  | Settled r => (r, m, [])
  | Emits e k =>
      match seq k env m with (r, m1, t) => (r, m1, e :: t) end
  | Reads k => seq (k (state m)) env m
  | Assigns f k => seq k env (with_state (f (state m)) m)
  | ReadsClock k => seq (k (getTime env (nTime m))) env (asked_time m)
  | AwaitsFetch i k =>
      match seq (k (fetchReply env (nFetch m))) env (asked_fetch m) with
      | (r, m1, t) => (r, m1, FetchDevice i :: t)
      end
  | AwaitsUpdate i b k =>
      match seq (k (updateReply env (nUpdate m))) env (asked_update m) with
      | (r, m1, t) => (r, m1, UpdateDevice i b :: t)
      end
  | AwaitsLock k => seq (k (lockReply env (nLock m))) env (asked_lock m)
  | ReleasesLock k => seq k env m
  | Yields k => seq k env m
  end.

(** ** The event loop *)

(** The adapter between two turns of the loop: its cache, whether its lock
    is held, the invocations queued on the lock in arrival order, those
    waiting for the vendor, those ready to go on, and what has been
    observed so far. *)
Record Loop := {
  cache : State.t;
  held : bool;
  waiting : list (bool -> Async unit);
  fetching : list (option SinopeDeviceState.t -> Async unit);
  updating : list (bool -> Async unit);
  ready : list (Async unit);
  seen : list Event
}.

(** An adapter at rest. *)
Definition idle (s : State.t) : Loop :=
  {| cache := s; held := false; waiting := []; fetching := [];
     updating := []; ready := []; seen := [] |}.

(** One turn: [p] runs, with the clock at [clk], until it settles or has to
    wait.  The lock is the library's, and is modelled by what it promises:
    a lock that is free is taken on the spot; a lock that is held queues
    the caller; a lock that is released goes to the first in the queue,
    who becomes ready, and stays held meanwhile.  Nothing else can happen
    within a turn, so the steps of a refresh that follow the vendor's
    answer are taken together. *)
Fixpoint advance (clk : Z) (p : Async unit) (L : Loop) : Loop :=
  match p with
  | Settled _ => L
  | Emits e k =>
      advance clk k
        {| cache := cache L; held := held L; waiting := waiting L;
           fetching := fetching L; updating := updating L; ready := ready L;
           seen := seen L ++ [e] |}
  | Reads k => advance clk (k (cache L)) L
  | Assigns f k =>
      advance clk k
        {| cache := f (cache L); held := held L; waiting := waiting L;
           fetching := fetching L; updating := updating L; ready := ready L;
           seen := seen L |}
  | ReadsClock k => advance clk (k clk) L
  | AwaitsFetch i k =>
      {| cache := cache L; held := held L; waiting := waiting L;
         fetching := fetching L ++ [k]; updating := updating L;
         ready := ready L; seen := seen L ++ [FetchDevice i] |}
  | AwaitsUpdate i b k =>
      {| cache := cache L; held := held L; waiting := waiting L;
         fetching := fetching L; updating := updating L ++ [k];
         ready := ready L; seen := seen L ++ [UpdateDevice i b] |}
  | AwaitsLock k =>
      if held L
      then {| cache := cache L; held := true; waiting := waiting L ++ [k];
              fetching := fetching L; updating := updating L;
              ready := ready L; seen := seen L |}
      else advance clk (k true)
             {| cache := cache L; held := true; waiting := waiting L;
                fetching := fetching L; updating := updating L;
                ready := ready L; seen := seen L |}
  | ReleasesLock k =>
      match waiting L with
      | [] =>
          advance clk k
            {| cache := cache L; held := false; waiting := [];
               fetching := fetching L; updating := updating L;
               ready := ready L; seen := seen L |}
      | next :: others =>
          advance clk k
            {| cache := cache L; held := true; waiting := others;
               fetching := fetching L; updating := updating L;
               ready := ready L ++ [next true]; seen := seen L |}
      end
  | Yields k =>
      {| cache := cache L; held := held L; waiting := waiting L;
         fetching := fetching L; updating := updating L;
         ready := ready L ++ [k]; seen := seen L |}
  end.

(** The [i]-th element of a list taken out of it. *)
Fixpoint take_out {X} (i : nat) (l : list X) : option (X * list X) :=
  match l, i with
  | [], _ => None
  | x :: rest, O => Some (x, rest)
  | x :: rest, S j =>
      match take_out j rest with
      | Some (y, rest') => Some (y, x :: rest')
      | None => None
      end
  end.

(** What can happen to the adapter, each with the clock at that moment: the
    hub invokes a handler; an invocation that was ready goes on; the vendor
    answers a fetch or an update, in any order; an invocation queued on the
    lock has waited beyond the lock's timeout. *)
Inductive Tick :=
| Invoked (clk : Z) (p : Async unit)
| Resumed (clk : Z) (i : nat)
| Fetched (clk : Z) (i : nat) (reply : option SinopeDeviceState.t)
| Updated (clk : Z) (i : nat) (ok : bool)
| TimedOut (clk : Z) (i : nat).

(** One tick; [None] when there is no such invocation to resume. *)
Definition tick (t : Tick) (L : Loop) : option Loop :=
  match t with
  | Invoked clk p => Some (advance clk p L)
  | Resumed clk i =>
      match take_out i (ready L) with
      | Some (p, rest) =>
          Some (advance clk p
                  {| cache := cache L; held := held L; waiting := waiting L;
                     fetching := fetching L; updating := updating L;
                     ready := rest; seen := seen L |})
      | None => None
      end
  | Fetched clk i reply =>
      match take_out i (fetching L) with
      | Some (k, rest) =>
          Some (advance clk (k reply)
                  {| cache := cache L; held := held L; waiting := waiting L;
                     fetching := rest; updating := updating L;
                     ready := ready L; seen := seen L |})
      | None => None
      end
  | Updated clk i ok =>
      match take_out i (updating L) with
      | Some (k, rest) =>
          Some (advance clk (k ok)
                  {| cache := cache L; held := held L; waiting := waiting L;
                     fetching := fetching L; updating := rest;
                     ready := ready L; seen := seen L |})
      | None => None
      end
  | TimedOut clk i =>
      match take_out i (waiting L) with
      | Some (k, rest) =>
          Some (advance clk (k false)
                  {| cache := cache L; held := held L; waiting := rest;
                     fetching := fetching L; updating := updating L;
                     ready := ready L; seen := seen L |})
      | None => None
      end
  end.

Fixpoint run (ticks : list Tick) (L : Loop) : option Loop :=
  match ticks with
  | [] => Some L
  | t :: rest =>
      match tick t L with
      | Some L1 => run rest L1
      | None => None
      end
  end.

(** ** Overlapping reads: what is stated about them *)

(** The two readings of the code agree on [p] and [c]: the invocation [p],
    run with nothing in between, is the computation [c]. *)
Definition same_run {A} (p : Async A) (c : M A) : Prop :=
  forall env m, seq p env m = c env m.

(** Events that neither call the vendor nor answer the hub. *)
Definition is_quiet (e : Event) : bool :=
  match e with
  | Log_debug _ | Log_error _ | UpdateCharacteristic _ _ => true
  | _ => false
  end.

(** What the hub is handed for the read [rd] of the cache [s]. *)
Definition answer (s : State.t) (rd : Read)
  : option Exn * option CharacteristicValue :=
  (None, read_field rd s).

(** What is left of a read of the cache [s'] once its [getState] has given
    the lock back: after [n] more turns of the loop it hands the hub its
    field of [s'], and it neither takes the lock nor calls the vendor. *)
Inductive free (s' : State.t) (rd : Read) : nat -> Async unit -> Prop :=
| free_callback :
    free s' rd 0
      (Emits (Callback None (read_field rd s')) (Settled (Resolved tt)))
| free_quiet e k n :
    is_quiet e = true -> free s' rd n k -> free s' rd n (Emits e k)
| free_reads k n : free s' rd n (k s') -> free s' rd n (Reads k)
| free_yield k n : free s' rd n k -> free s' rd (S n) (Yields k).

(** What is left of a read that holds the lock, with the cache [s'] still
    valid at every clock reading it makes: it gives the lock back within
    the turn, without calling the vendor, and goes on as above. *)
Inductive holding (s' : State.t) (rd : Read) : nat -> Async unit -> Prop :=
| holding_quiet e k n :
    is_quiet e = true -> holding s' rd n k -> holding s' rd n (Emits e k)
| holding_reads k n : holding s' rd n (k s') -> holding s' rd n (Reads k)
| holding_clock k n :
    (forall clk, ceil_seconds clk < State.validUntil s' ->
                 holding s' rd n (k clk)) ->
    holding s' rd n (ReadsClock k)
| holding_release k n : free s' rd n k -> holding s' rd n (ReleasesLock k).

(** A read that has not yet asked for the lock. *)
Inductive arriving (s' : State.t) (rd : Read) : nat -> Async unit -> Prop :=
| arriving_quiet e k n :
    is_quiet e = true -> arriving s' rd n k -> arriving s' rd n (Emits e k)
| arriving_lock k n :
    holding s' rd n (k true) -> arriving s' rd n (AwaitsLock k).

(** A read the hub has not been answered yet: which one, how many turns it
    still needs after the one that gives the lock back, and whether it is
    still to take or give back the lock. *)
Record Pending := { reader : Read; turns : nat; holds : bool }.

Definition item_ok (s' : State.t) (it : Pending) (p : Async unit) : Prop :=
  if holds it then holding s' (reader it) (turns it) p
  else free s' (reader it) (turns it) p.

Definition queued_ok (s' : State.t) (it : Pending) (k : bool -> Async unit)
  : Prop :=
  holds it = true /\ holding s' (reader it) (turns it) (k true).

Definition readers_of (q : list Pending) : list Read := map reader q.

(** The turns of the loop the pending reads [q] still need. *)
Definition cost (q : list Pending) : nat :=
  list_sum (map (fun it => S (turns it)) q).

(** The adapter once a refresh has filled the cache with [s']: one fetch
    has been made and none is in flight, the reads [answered] have been
    handed their field of [s'], the reads [wq] are queued on the lock and
    the reads [rq] are ready to go on. *)
Definition in_hand (device : SinopeDevice) (s' : State.t)
  (answered : list Read) (wq rq : list Pending) (L : Loop) : Prop :=
  cache L = s' /\ fetching L = [] /\ updating L = [] /\
  fetches (seen L) = [FetchDevice (id device)] /\
  callbacks (seen L) = map (answer s') answered /\
  Forall2 (queued_ok s') wq (waiting L) /\
  Forall2 (item_ok s') rq (ready L).

(** Nobody is queued on a lock that is free, and a lock that is held is held
    by a read that is ready to go on. *)
Definition lock_kept (rq : list Pending) (L : Loop) : Prop :=
  (held L = false -> waiting L = []) /\
  (held L = true -> exists it, In it rq /\ holds it = true).

(** What happens once the cache is fresh: the hub issues one more read, or
    the [i]-th of the reads that are ready goes on. *)
Inductive Turn :=
| Arrives (clk : Z) (rd : Read)
| GoesOn (clk : Z) (i : nat).

Definition turn_clock (t : Turn) : Z :=
  match t with Arrives clk _ => clk | GoesOn clk _ => clk end.

Definition turn_tick (device : SinopeDevice) (t : Turn) : Tick :=
  match t with
  | Arrives clk rd => Invoked clk (read_invocation device rd)
  | GoesOn clk i => Resumed clk i
  end.

(** The reads issued in the course of [turns]. *)
Fixpoint arrived (turns : list Turn) : list Read :=
  match turns with
  | [] => []
  | Arrives _ rd :: rest => rd :: arrived rest
  | GoesOn _ _ :: rest => arrived rest
  end.

(** The hub issues the read [snd a] with the clock at [fst a]. *)
Definition arrival (device : SinopeDevice) (a : Z * Read) : Tick :=
  Invoked (fst a) (read_invocation device (snd a)).

(** The adapter while the first reader's fetch is in flight: the cache is
    still [s0], the lock is held, the fetch is the only thing awaited from
    the vendor, and the reads [queued] wait on the lock. *)
Definition refresh_in_flight (device : SinopeDevice) (s0 : State.t)
  (k1 : option SinopeDeviceState.t -> Async unit) (queued : list Read)
  (L : Loop) : Prop :=
  cache L = s0 /\ held L = true /\ fetching L = [k1] /\ updating L = [] /\
  ready L = [] /\
  Forall2 (fun rd k => forall s', holding s' rd 2 (k true)) queued (waiting L) /\
  fetches (seen L) = [FetchDevice (id device)] /\
  callbacks (seen L) = [].

(** ** Statements about histories and compositions *)

(** The cache after a run [r] from [m], for a refresh [refresh]: as it was,
    or as left by a refresh whose fetch resolved, run on the state as it was
    and reading the clock at or after [m]'s next reading. *)
Definition steps_by_refresh {R} (refresh : M unit) (env : Env) (m : Machine)
  (r : R * Machine * list Event) : Prop :=
  (nTime m <= nTime (final r))%nat /\
  (state (final r) = state m \/
   exists d m0,
     state m0 = state m /\ (nTime m <= nTime m0)%nat /\
     (nTime m0 < nTime (final r))%nat /\
     fetchReply env (nFetch m0) = Some d /\
     state (final r) = state (final (refresh env m0))).

(** The expiry is 0, or ten seconds after the epoch of a clock reading the
    adapter has already made. *)
Definition expiry_traced (env : Env) (m : Machine) : Prop :=
  State.validUntil (state m) = 0 \/
  exists k, (k < nTime m)%nat /\
            State.validUntil (state m) = ceil_seconds (getTime env k) + 10.

(** The values the hub can be given for the thermostat: a current
    temperature that is defined, a current heating-cooling state that is
    off (0) or heat (1), a target heating-cooling state that is off (0),
    heat (1) or auto (3). *)
Definition thermostat_fields_in_range (s : State.t) : Prop :=
  State.currentTemperature s <> None /\
  (State.currentHeatingCoolingState s = Some (num 0) \/
   State.currentHeatingCoolingState s = Some (num 1)) /\
  (State.targetHeatingCoolingState s = Some (num 0) \/
   State.targetHeatingCoolingState s = Some (num 1) \/
   State.targetHeatingCoolingState s = Some (num 3)).

(** A run, had one more vendor update been made before it. *)
Definition after_update {R} (r : R * Machine * list Event)
  : R * Machine * list Event :=
  match r with (x, m1, t) => (x, asked_update m1, t) end.

(** A computation that neither makes nor counts vendor updates. *)
Definition update_blind {A} (c : M A) : Prop :=
  forall env m, c env (asked_update m) = after_update (c env m).

(** How an invocation by the hub ends: resolved after exactly one call of
    the callback with a null error, or rejected by the lock without any call
    of the callback. *)
Definition acknowledged (r : Result unit * Machine * list Event) : Prop :=
  match outcome r with
  | Resolved _ => exists v, callbacks (events r) = [(None, v)]
  | Rejected e => e = LockError /\ callbacks (events r) = []
  end.

(** * Proofs *)

(** ** Concrete runs *)

Example ceil_seconds_exact : ceil_seconds 5000 = 5.
Proof. reflexivity. Qed.

Example ceil_seconds_rounds_up : ceil_seconds 5001 = 6.
Proof. reflexivity. Qed.

(** The first read of a thermostat whose cache was never filled. *)
Example first_read_refreshes :
  read_handler thermostat_1 ReadCurrentTemperature
    (world 5000 (Some snapshot_heating) true true) (boot State.new) =
  (Resolved tt,
   {| state := State.mk (Some (43 # 2)) (Some (num 22)) (Some (num 1))
                 (Some (num 3)) None 15;
      nTime := 2; nFetch := 1; nUpdate := 0; nLock := 1 |},
   [Log_debug "Triggered GET CurrentTemperature";
    Log_debug "updating state for accessory %s";
    FetchDevice 7;
    Log_debug "fetched update for device %s from Neviweb API: %s";
    UpdateCharacteristic CurrentTemperature (Some (VNum (43 # 2)));
    UpdateCharacteristic TargetTemperature (Some (VNum (num 22)));
    UpdateCharacteristic CurrentHeatingCoolingState (Some (VNum (num 1)));
    UpdateCharacteristic TargetHeatingCoolingState (Some (VNum (num 3)));
    Callback None (Some (VNum (43 # 2)))]).
Proof. reflexivity. Qed.

(** A read of a cache that is still valid. *)
Example read_of_valid_cache :
  read_handler thermostat_1 ReadTargetTemperature
    (world 5000 (Some snapshot_heating) true true) (boot (cached 100)) =
  (Resolved tt,
   {| state := cached 100; nTime := 1; nFetch := 0; nUpdate := 0;
      nLock := 1 |},
   [Log_debug "Triggered GET TargetTemperature";
    Log_debug "state is still valid for accessory %s";
    Callback None (Some (VNum (num 21)))]).
Proof. reflexivity. Qed.

(** A read that waited too long for the lock: the handler rejects and the
    callback is never called. *)
Example read_rejected_by_lock :
  read_handler thermostat_1 ReadTargetTemperature
    (world 5000 (Some snapshot_heating) true false) (boot (cached 100)) =
  (Rejected LockError,
   {| state := cached 100; nTime := 0; nFetch := 0; nUpdate := 0;
      nLock := 1 |},
   [Log_debug "Triggered GET TargetTemperature"]).
Proof. reflexivity. Qed.

(** Switching on while the vendor is unreachable. *)
Example switch_on_vendor_down :
  SinopeSwitchAccessory.setOnCharacteristicHandler switch_1 (VBool true)
    (world 5000 None false true) (boot State.new) =
  (Resolved tt,
   {| state := State.new; nTime := 0; nFetch := 0; nUpdate := 1;
      nLock := 0 |},
   [Log_debug "Triggered SET Senope Switch State:";
    UpdateDevice 9 (SinopeDeviceStateRequest.mk None None (Some "on"));
    Log_error "could not update TargetTemperature of device %s";
    Callback None None]).
Proof. reflexivity. Qed.

(** ** Running the model *)

Ltac run_model :=
  cbv -[Z.add Z.ltb Z.leb Z.lt Z.le ceil_seconds number_gt number_eq
        string_is String.eqb num getTime fetchReply updateReply lockReply
        SinopeAccessory.updateState SinopeSwitchAccessory.updateState
        SinopeAccessory.getState SinopeSwitchAccessory.getState].

Ltac split_snapshot d :=
  destruct d as [[[[?v|]]|] [?sp|] [?p|] ?sm [?o|] ?w].

Ltac split_tests :=
  repeat match goal with
    | |- context [number_gt ?a ?b] => destruct (number_gt a b) eqn:?
    | |- context [number_eq ?a ?b] => destruct (number_eq a b) eqn:?
    | |- context [string_is ?a ?b] => destruct (string_is a b) eqn:?
    | |- context [String.eqb ?a ?b] => destruct (String.eqb a b) eqn:?
    end.

Lemma ceil_seconds_nonneg ms : 0 <= ms -> 0 <= ceil_seconds ms.
Proof.
  intros H. unfold ceil_seconds.
  assert (- ms / 1000 <= 0) by (apply Z.div_le_upper_bound; lia).
  lia.
Qed.

(** ** The refresh *)

Lemma thermostat_refresh_rejected device env m :
  fetchReply env (nFetch m) = None ->
  SinopeAccessory.updateState device env m =
    (Resolved tt, asked_fetch m,
     [FetchDevice (id device);
      Log_error "could not fetch update for device %s from Neviweb API"]).
Proof.
  intros H.
  unfold SinopeAccessory.updateState, try_catch, bind at 1, fetchDevice.
  rewrite H. reflexivity.
Qed.

Lemma thermostat_refresh_resolved device env m d :
  fetchReply env (nFetch m) = Some d ->
  exists s' t',
    SinopeAccessory.updateState device env m =
      (Resolved tt, with_state s' (asked_time (asked_fetch m)),
       FetchDevice (id device)
         :: Log_debug "fetched update for device %s from Neviweb API: %s"
         :: t') /\
    forallb is_push t' = true /\
    State.validUntil s' = ceil_seconds (getTime env (nTime m)) + 10 /\
    match SinopeDeviceState.roomTemperature_value d with
    | Some v =>
        State.currentTemperature s' = Some v /\
        State.targetTemperature s' = SinopeDeviceState.roomSetpoint d /\
        State.currentHeatingCoolingState s' =
          Some (if match SinopeDeviceState.outputPercentDisplay d with
                   | Some p => number_gt p (num 0)
                   | None => false
                   end
                then num 1 else num 0) /\
        State.targetHeatingCoolingState s' =
          Some (if string_is (SinopeDeviceState.setpointMode d) "auto"
                then num 3
                else if string_is (SinopeDeviceState.setpointMode d) "off"
                     then num 0 else num 1) /\
        State.onOff s' = State.onOff (state m)
    | None =>
        State.currentTemperature s' = State.currentTemperature (state m) /\
        State.targetTemperature s' = State.targetTemperature (state m) /\
        State.currentHeatingCoolingState s' =
          State.currentHeatingCoolingState (state m) /\
        State.targetHeatingCoolingState s' =
          State.targetHeatingCoolingState (state m) /\
        State.onOff s' =
          match SinopeDeviceState.onOff d with
          | Some o => Some (String.eqb o "on")
          | None => State.onOff (state m)
          end
    end.
Proof.
  intros H.
  unfold SinopeAccessory.updateState, try_catch, bind at 1, fetchDevice.
  rewrite H. split_snapshot d; run_model; split_tests; run_model.
  all: do 2 eexists; split; [reflexivity|]; run_model;
    repeat match goal with E : _ = _ :> bool |- _ => rewrite E; clear E end;
    auto 10.
Qed.

Lemma switch_refresh_rejected device env m :
  fetchReply env (nFetch m) = None ->
  SinopeSwitchAccessory.updateState device env m =
    (Resolved tt, asked_fetch m,
     [FetchDevice (id device);
      Log_error "could not fetch update for device %s from Neviweb API"]).
Proof.
  intros H.
  unfold SinopeSwitchAccessory.updateState, try_catch, bind at 1, fetchDevice.
  rewrite H. reflexivity.
Qed.

Lemma switch_refresh_resolved device env m d :
  fetchReply env (nFetch m) = Some d ->
  exists s' t',
    SinopeSwitchAccessory.updateState device env m =
      (Resolved tt, with_state s' (asked_time (asked_fetch m)),
       FetchDevice (id device)
         :: Log_debug "fetched update for device %s from Neviweb API: %s"
         :: t') /\
    forallb is_push t' = true /\
    State.validUntil s' = ceil_seconds (getTime env (nTime m)) + 10 /\
    State.currentTemperature s' = State.currentTemperature (state m) /\
    State.targetTemperature s' = State.targetTemperature (state m) /\
    State.currentHeatingCoolingState s' =
      State.currentHeatingCoolingState (state m) /\
    State.targetHeatingCoolingState s' =
      State.targetHeatingCoolingState (state m) /\
    State.onOff s' =
      match SinopeDeviceState.onOff d with
      | Some o => Some (String.eqb o "on")
      | None => State.onOff (state m)
      end.
Proof.
  intros H.
  unfold SinopeSwitchAccessory.updateState, try_catch, bind at 1, fetchDevice.
  rewrite H. split_snapshot d; run_model; split_tests; run_model.
  all: do 2 eexists; split; [reflexivity|]; run_model; auto 10.
Qed.

(** A refresh never rejects: the [catch] swallows the failed fetch. *)
Lemma thermostat_refresh_total device env m :
  outcome (SinopeAccessory.updateState device env m) = Resolved tt.
Proof.
  destruct (fetchReply env (nFetch m)) as [d|] eqn:F.
  - destruct (thermostat_refresh_resolved device env m d F)
      as (s' & t' & E & _).
    rewrite E. reflexivity.
  - rewrite (thermostat_refresh_rejected device env m F). reflexivity.
Qed.

Lemma switch_refresh_total device env m :
  outcome (SinopeSwitchAccessory.updateState device env m) = Resolved tt.
Proof.
  destruct (fetchReply env (nFetch m)) as [d|] eqn:F.
  - destruct (switch_refresh_resolved device env m d F)
      as (s' & t' & E & _).
    rewrite E. reflexivity.
  - rewrite (switch_refresh_rejected device env m F). reflexivity.
Qed.

(** ** The state accessor *)

Lemma thermostat_getState_locked_out device env m :
  lockReply env (nLock m) = false ->
  SinopeAccessory.getState device env m =
    (Rejected LockError, asked_lock m, []).
Proof.
  intros L. unfold SinopeAccessory.getState, lock_acquire.
  rewrite L. reflexivity.
Qed.

Lemma thermostat_getState_valid device env m :
  lockReply env (nLock m) = true ->
  ceil_seconds (getTime env (nTime m)) < State.validUntil (state m) ->
  SinopeAccessory.getState device env m =
    (Resolved this_state, asked_time (asked_lock m),
     [Log_debug "state is still valid for accessory %s"]).
Proof.
  intros L V. apply Z.ltb_lt in V.
  unfold SinopeAccessory.getState, lock_acquire. rewrite L.
  unfold bind at 1. unfold get_state.
  unfold bind at 1. unfold SinopeAccessory.isValid at 1.
  unfold bind at 1. unfold SinopeAccessory.currentEpoch at 1.
  unfold bind at 1. unfold now at 1. unfold ret at 1. unfold ret at 1.
  change (state (asked_lock m)) with (state m).
  change (nTime (asked_lock m)) with (nTime m).
  rewrite V. reflexivity.
Qed.

Lemma thermostat_getState_stale device env m :
  lockReply env (nLock m) = true ->
  State.validUntil (state m) <= ceil_seconds (getTime env (nTime m)) ->
  SinopeAccessory.getState device env m =
    (Resolved this_state,
     final (SinopeAccessory.updateState device env (asked_time (asked_lock m))),
     Log_debug "updating state for accessory %s"
       :: events (SinopeAccessory.updateState device env
                    (asked_time (asked_lock m)))).
Proof.
  intros L V. apply Z.ltb_ge in V.
  pose proof (thermostat_refresh_total device env (asked_time (asked_lock m)))
    as T.
  unfold SinopeAccessory.getState, lock_acquire. rewrite L.
  unfold bind at 1. unfold get_state.
  unfold bind at 1. unfold SinopeAccessory.isValid at 1.
  unfold bind at 1. unfold SinopeAccessory.currentEpoch at 1.
  unfold bind at 1. unfold now at 1. unfold ret at 1. unfold ret at 1.
  change (state (asked_lock m)) with (state m).
  change (nTime (asked_lock m)) with (nTime m).
  rewrite V. cbn [negb andb app].
  unfold bind at 1. unfold bind at 1. unfold log_debug at 1, emit at 1.
  destruct (SinopeAccessory.updateState device env (asked_time (asked_lock m)))
    as [[r m'] t].
  unfold outcome in T. cbn [fst snd] in T. subst r.
  cbn. rewrite ?app_nil_r. reflexivity.
Qed.

Lemma switch_getState_locked_out device env m :
  lockReply env (nLock m) = false ->
  SinopeSwitchAccessory.getState device env m =
    (Rejected LockError, asked_lock m, []).
Proof.
  intros L. unfold SinopeSwitchAccessory.getState, lock_acquire.
  rewrite L. reflexivity.
Qed.

Lemma switch_getState_valid device env m :
  lockReply env (nLock m) = true ->
  ceil_seconds (getTime env (nTime m)) < State.validUntil (state m) ->
  SinopeSwitchAccessory.getState device env m =
    (Resolved this_state, asked_time (asked_lock m),
     [Log_debug "state is still valid for accessory %s"]).
Proof.
  intros L V. apply Z.ltb_lt in V.
  unfold SinopeSwitchAccessory.getState, lock_acquire. rewrite L.
  unfold bind at 1. unfold get_state.
  unfold bind at 1. unfold SinopeSwitchAccessory.isValid at 1.
  unfold bind at 1. unfold SinopeSwitchAccessory.currentEpoch at 1.
  unfold bind at 1. unfold now at 1. unfold ret at 1. unfold ret at 1.
  change (state (asked_lock m)) with (state m).
  change (nTime (asked_lock m)) with (nTime m).
  rewrite V. reflexivity.
Qed.

Lemma switch_getState_stale device env m :
  lockReply env (nLock m) = true ->
  State.validUntil (state m) <= ceil_seconds (getTime env (nTime m)) ->
  SinopeSwitchAccessory.getState device env m =
    (Resolved this_state,
     final (SinopeSwitchAccessory.updateState device env
              (asked_time (asked_lock m))),
     Log_debug "updating state for accessory %s"
       :: events (SinopeSwitchAccessory.updateState device env
                    (asked_time (asked_lock m)))).
Proof.
  intros L V. apply Z.ltb_ge in V.
  pose proof (switch_refresh_total device env (asked_time (asked_lock m)))
    as T.
  unfold SinopeSwitchAccessory.getState, lock_acquire. rewrite L.
  unfold bind at 1. unfold get_state.
  unfold bind at 1. unfold SinopeSwitchAccessory.isValid at 1.
  unfold bind at 1. unfold SinopeSwitchAccessory.currentEpoch at 1.
  unfold bind at 1. unfold now at 1. unfold ret at 1. unfold ret at 1.
  change (state (asked_lock m)) with (state m).
  change (nTime (asked_lock m)) with (nTime m).
  rewrite V. cbn [negb andb app].
  unfold bind at 1. unfold bind at 1. unfold log_debug at 1, emit at 1.
  destruct (SinopeSwitchAccessory.updateState device env
              (asked_time (asked_lock m))) as [[r m'] t].
  unfold outcome in T. cbn [fst snd] in T. subst r.
  cbn. rewrite ?app_nil_r. reflexivity.
Qed.

(** ** Traces of a refresh *)

Lemma pushes_only t :
  forallb is_push t = true ->
  fetches t = [] /\ patches t = [] /\ callbacks t = [] /\ error_logs t = [].
Proof.
  induction t as [|e t IH]; intros H; [repeat split|].
  cbn [forallb] in H. apply andb_prop in H. destruct H as [He Ht].
  destruct (IH Ht) as (F & P & C & E).
  destruct e; try discriminate He; cbn; auto.
Qed.

Lemma thermostat_refresh_fetches_once device env m :
  fetches (events (SinopeAccessory.updateState device env m)) =
    [FetchDevice (id device)].
Proof.
  destruct (fetchReply env (nFetch m)) as [d|] eqn:F.
  - destruct (thermostat_refresh_resolved device env m d F)
      as (s' & t' & E & P & _).
    rewrite E. destruct (pushes_only t' P) as (Ft & _).
    unfold events, fetches in *. cbn. now rewrite Ft.
  - rewrite (thermostat_refresh_rejected device env m F). reflexivity.
Qed.

Lemma switch_refresh_fetches_once device env m :
  fetches (events (SinopeSwitchAccessory.updateState device env m)) =
    [FetchDevice (id device)].
Proof.
  destruct (fetchReply env (nFetch m)) as [d|] eqn:F.
  - destruct (switch_refresh_resolved device env m d F)
      as (s' & t' & E & P & _).
    rewrite E. destruct (pushes_only t' P) as (Ft & _).
    unfold events, fetches in *. cbn. now rewrite Ft.
  - rewrite (switch_refresh_rejected device env m F). reflexivity.
Qed.

(** ** C1: the TTL gate of the state accessor *)

(** C1 as stated fails for a call that does not obtain the lock: with the
    cache stale, a call that waited in the lock's queue beyond its timeout
    makes no refresh and returns no state; it rejects with the lock's
    error. *)
Lemma getState_rejected_by_lock_does_not_refresh :
  let env := world 5000 (Some snapshot_heating) true false in
  let m := boot State.new in
  let r := SinopeAccessory.getState thermostat_1 env m in
  State.validUntil (state m) <= ceil_seconds (getTime env (nTime m)) /\
  outcome r = Rejected LockError /\
  fetches (events r) = [] /\
  ~ ttl_gate (SinopeAccessory.getState thermostat_1) thermostat_1 env m.
Proof.
  cbv zeta. split; [vm_compute; discriminate|].
  split; [reflexivity|]. split; [reflexivity|].
  intros (O & _). vm_compute in O. discriminate.
Qed.

(** C1, as the code has it.  For every call of [getState], on either
    adapter.  If the call obtains the lock it returns the state; when the
    cached expiry is not strictly after the current epoch (in particular
    when it is still the initial 0 and the clock is not before the epoch
    origin) exactly one vendor fetch is made before the state is returned,
    and if that fetch succeeds the expiry becomes the epoch read right after
    it plus 10; when the expiry is strictly after the current epoch no fetch
    is made and the cached state is returned as it was.  If the call does
    not obtain the lock it rejects with the lock's error, makes no fetch and
    leaves the cache as it was. *)
Theorem getState_ttl_gate device env m :
  (lockReply env (nLock m) = true ->
   ttl_gate (SinopeAccessory.getState device) device env m /\
   ttl_gate (SinopeSwitchAccessory.getState device) device env m) /\
  (lockReply env (nLock m) = false ->
   let r := SinopeAccessory.getState device env m in
   let sr := SinopeSwitchAccessory.getState device env m in
   (outcome r = Rejected LockError /\ fetches (events r) = [] /\
    state (final r) = state m) /\
   (outcome sr = Rejected LockError /\ fetches (events sr) = [] /\
    state (final sr) = state m)).
Proof.
  split; [|intros L; cbv zeta;
           rewrite (thermostat_getState_locked_out device env m L),
             (switch_getState_locked_out device env m L);
           repeat split].
  intros L. split; unfold ttl_gate; cbv zeta.
  - destruct (Z_lt_le_dec (ceil_seconds (getTime env (nTime m)))
                (State.validUntil (state m))) as [V|V].
    + rewrite (thermostat_getState_valid device env m L V).
      split; [reflexivity|]. split; [intros; lia|]. split.
      * intros Z0 T0. apply ceil_seconds_nonneg in T0. lia.
      * intros _. repeat split.
    + rewrite (thermostat_getState_stale device env m L V).
      pose proof (thermostat_refresh_fetches_once device env
                    (asked_time (asked_lock m))) as Fo.
      unfold events at 1 2. unfold final at 1. cbn [fst snd].
      unfold fetches in *. cbn [filter is_fetch].
      split; [reflexivity|]. split; [|split; [|intros; lia]].
      * intros _. split; [exact Fo|].
        intros F. destruct (fetchReply env (nFetch m)) as [d|] eqn:Fd;
          [|congruence].
        destruct (thermostat_refresh_resolved device env
                    (asked_time (asked_lock m)) d Fd)
          as (s' & t' & E & _ & Vu & _).
        rewrite E. exact Vu.
      * intros _ _. exact Fo.
  - destruct (Z_lt_le_dec (ceil_seconds (getTime env (nTime m)))
                (State.validUntil (state m))) as [V|V].
    + rewrite (switch_getState_valid device env m L V).
      split; [reflexivity|]. split; [intros; lia|]. split.
      * intros Z0 T0. apply ceil_seconds_nonneg in T0. lia.
      * intros _. repeat split.
    + rewrite (switch_getState_stale device env m L V).
      pose proof (switch_refresh_fetches_once device env
                    (asked_time (asked_lock m))) as Fo.
      unfold events at 1 2. unfold final at 1. cbn [fst snd].
      unfold fetches in *. cbn [filter is_fetch].
      split; [reflexivity|]. split; [|split; [|intros; lia]].
      * intros _. split; [exact Fo|].
        intros F. destruct (fetchReply env (nFetch m)) as [d|] eqn:Fd;
          [|congruence].
        destruct (switch_refresh_resolved device env
                    (asked_time (asked_lock m)) d Fd)
          as (s' & t' & E & _ & Vu & _).
        rewrite E. exact Vu.
      * intros _ _. exact Fo.
Qed.

Lemma getState_ttl_gate_witness :
  lockReply (world 5000 (Some snapshot_heating) true true)
    (nLock (boot State.new)) = true /\
  (ttl_gate (SinopeAccessory.getState thermostat_1) thermostat_1
     (world 5000 (Some snapshot_heating) true true) (boot State.new) /\
   ttl_gate (SinopeSwitchAccessory.getState thermostat_1) thermostat_1
     (world 5000 (Some snapshot_heating) true true) (boot State.new)) /\
  (ttl_gate (SinopeAccessory.getState thermostat_1) thermostat_1
     (world 5000 None true true) (boot (cached 100)) /\
   ttl_gate (SinopeSwitchAccessory.getState thermostat_1) thermostat_1
     (world 5000 None true true) (boot (cached 100))) /\
  lockReply (world 5000 None true false) (nLock (boot (cached 100))) =
    false /\
  outcome (SinopeSwitchAccessory.getState switch_1
             (world 5000 None true false) (boot (cached 100))) =
    Rejected LockError.
Proof.
  split; [reflexivity|].
  split; [apply getState_ttl_gate; reflexivity|].
  split; [apply getState_ttl_gate; reflexivity|].
  split; [reflexivity|].
  destruct (getState_ttl_gate switch_1 (world 5000 None true false)
              (boot (cached 100))) as (_ & R).
  destruct (R eq_refl) as (_ & (O & _)). exact O.
Defined.

(** ** Read handlers *)

(** A read handler is its debug line, the state accessor, and the callback
    with the field read through the returned reference; when the accessor
    rejects, the handler rejects and the callback is never invoked. *)
Lemma read_handler_run device rd env m :
  read_handler device rd env m =
    match SinopeAccessory.getState device env m with
    | (Resolved _, m1, t1) =>
        (Resolved tt, m1,
         Log_debug (read_trigger rd)
           :: t1 ++ [Callback None (read_field rd (state m1))])
    | (Rejected e, m1, t1) =>
        (Rejected e, m1, Log_debug (read_trigger rd) :: t1)
    end.
Proof.
  destruct rd; unfold read_handler;
    unfold SinopeAccessory.handleCurrentTemperatureGet,
      SinopeAccessory.handleTargetTemperatureGet,
      SinopeAccessory.handleCurrentHeatingCoolingStateGet,
      SinopeAccessory.handleTargetHeatingCoolingStateGet;
    unfold bind at 1; unfold log_debug at 1, emit at 1;
    unfold bind at 1;
    destruct (SinopeAccessory.getState device env m) as [[[a|e] m1] t1];
    cbn; rewrite ?app_nil_r; reflexivity.
Qed.

Lemma fetches_app t1 t2 : fetches (t1 ++ t2) = fetches t1 ++ fetches t2.
Proof. unfold fetches. apply filter_app. Qed.

Lemma fetches_cons e t :
  fetches (e :: t) = if is_fetch e then e :: fetches t else fetches t.
Proof. reflexivity. Qed.

Lemma callbacks_app t1 t2 : callbacks (t1 ++ t2) = callbacks t1 ++ callbacks t2.
Proof.
  induction t1 as [|e t1 IH]; [reflexivity|].
  destruct e; cbn; rewrite ?IH; reflexivity.
Qed.

Lemma patches_app t1 t2 : patches (t1 ++ t2) = patches t1 ++ patches t2.
Proof.
  induction t1 as [|e t1 IH]; [reflexivity|].
  destruct e; cbn; rewrite ?IH; reflexivity.
Qed.

(** ** C2: concurrent reads of a stale cache *)

(** *** The two readings of the read path agree *)

(** The sequential reading of the combinators is that of the monad [M]. *)
Lemma seq_abind {A B} (p : Async A) (f : A -> Async B) :
  forall env m,
    seq (abind p f) env m =
      match seq p env m with
      | (Resolved a, m1, t1) =>
          match seq (f a) env m1 with
          | (r, m2, t2) => (r, m2, t1 ++ t2)
          end
      | (Rejected e, m1, t1) => (Rejected e, m1, t1)
      end.
Proof.
  induction p as [[a|e]|e k IH|k IH|g k IH|k IH|i k IH|i b k IH|k IH|k IH|k IH];
    intros env m; cbn [abind seq]; try apply IH.
  - destruct (seq (f a) env m) as [[r m2] t2]. reflexivity.
  - reflexivity.
  - rewrite IH. destruct (seq k env m) as [[[a|e'] m1] t1]; [|reflexivity].
    destruct (seq (f a) env m1) as [[r m2] t2]. reflexivity.
  - rewrite IH.
    destruct (seq (k (fetchReply env (nFetch m))) env (asked_fetch m))
      as [[[a|e'] m1] t1]; [|reflexivity].
    destruct (seq (f a) env m1) as [[r m2] t2]. reflexivity.
  - rewrite IH.
    destruct (seq (k (updateReply env (nUpdate m))) env (asked_update m))
      as [[[a|e'] m1] t1]; [|reflexivity].
    destruct (seq (f a) env m1) as [[r m2] t2]. reflexivity.
Qed.

Lemma seq_atry {A} (p : Async A) (h : Exn -> Async A) :
  forall env m,
    seq (atry p h) env m =
      match seq p env m with
      | (Resolved a, m1, t1) => (Resolved a, m1, t1)
      | (Rejected e, m1, t1) =>
          match seq (h e) env m1 with
          | (r, m2, t2) => (r, m2, t1 ++ t2)
          end
      end.
Proof.
  induction p as [[a|e]|e k IH|k IH|g k IH|k IH|i k IH|i b k IH|k IH|k IH|k IH];
    intros env m; cbn [atry seq]; try apply IH.
  - reflexivity.
  - destruct (seq (h e) env m) as [[r m2] t2]. reflexivity.
  - rewrite IH. destruct (seq k env m) as [[[a|e'] m1] t1]; [reflexivity|].
    destruct (seq (h e') env m1) as [[r m2] t2]. reflexivity.
  - rewrite IH.
    destruct (seq (k (fetchReply env (nFetch m))) env (asked_fetch m))
      as [[[a|e'] m1] t1]; [reflexivity|].
    destruct (seq (h e') env m1) as [[r m2] t2]. reflexivity.
  - rewrite IH.
    destruct (seq (k (updateReply env (nUpdate m))) env (asked_update m))
      as [[[a|e'] m1] t1]; [reflexivity|].
    destruct (seq (h e') env m1) as [[r m2] t2]. reflexivity.
Qed.

Lemma seq_await {A} (p : Async A) :
  forall env m, seq (await p) env m = seq p env m.
Proof.
  induction p as [r|e k IH|k IH|g k IH|k IH|i k IH|i b k IH|k IH|k IH|k IH];
    intros env m; cbn [await seq]; try apply IH; try reflexivity;
    now rewrite IH.
Qed.

Lemma seq_then_release {A} (p : Async A) :
  forall env m, seq (then_release p) env m = seq p env m.
Proof.
  induction p as [r|e k IH|k IH|g k IH|k IH|i k IH|i b k IH|k IH|k IH|k IH];
    intros env m; cbn [then_release seq]; try apply IH; try reflexivity;
    now rewrite IH.
Qed.

Lemma same_bind {A B} (p : Async A) (f : A -> Async B) c g :
  same_run p c -> (forall a, same_run (f a) (g a)) ->
  same_run (abind p f) (bind c g).
Proof.
  intros Hp Hf env m. rewrite seq_abind. unfold bind. rewrite Hp.
  destruct (c env m) as [[[a|e] m1] t1]; [|reflexivity].
  now rewrite Hf.
Qed.

Lemma same_try {A} (p : Async A) h c h' :
  same_run p c -> (forall e, same_run (h e) (h' e)) ->
  same_run (atry p h) (try_catch c h').
Proof.
  intros Hp Hh env m. rewrite seq_atry. unfold try_catch. rewrite Hp.
  destruct (c env m) as [[[a|e] m1] t1]; [reflexivity|].
  now rewrite Hh.
Qed.

Lemma same_await {A} (p : Async A) c : same_run p c -> same_run (await p) c.
Proof. intros H env m. rewrite seq_await. apply H. Qed.

Lemma same_lock {A} key (p : Async A) c :
  same_run p c -> same_run (alock_acquire key p) (lock_acquire key c).
Proof.
  intros H env m. unfold alock_acquire, lock_acquire. cbn [seq].
  destruct (lockReply env (nLock m)); [|reflexivity].
  rewrite seq_then_release. apply H.
Qed.

Lemma same_ret {A} (a : A) : same_run (aret a) (ret a).
Proof. intros env m. reflexivity. Qed.

Lemma same_emit e : same_run (aemit e) (emit e).
Proof. intros env m. reflexivity. Qed.

Lemma same_get_state : same_run aget_state get_state.
Proof. intros env m. reflexivity. Qed.

Lemma same_assign f : same_run (aassign f) (assign f).
Proof. intros env m. reflexivity. Qed.

Lemma same_now : same_run anow now.
Proof. intros env m. reflexivity. Qed.

Lemma same_fetchDevice i : same_run (afetchDevice i) (fetchDevice i).
Proof.
  intros env m. unfold afetchDevice, fetchDevice. cbn [seq].
  destruct (fetchReply env (nFetch m)); reflexivity.
Qed.

Lemma same_read_field {A} r (f : State.t -> A) :
  same_run (aread r f) (read r f).
Proof. intros env m. reflexivity. Qed.

Ltac same :=
  repeat first
    [ apply same_try | apply same_bind | apply same_lock | apply same_await
    | apply same_ret | apply same_emit | apply same_get_state
    | apply same_assign | apply same_now | apply same_fetchDevice
    | apply same_read_field
    | match goal with
      | |- same_run (match ?x with _ => _ end) _ => destruct x
      | |- forall _, same_run _ _ => intro
      end ].

(** The refresh and the read handlers, with their suspension points made
    explicit, are the computations the claims are stated about. *)
Lemma same_updateState device :
  same_run (SinopeAccessoryAsync.updateState device) (SinopeAccessory.updateState device).
Proof.
  unfold SinopeAccessoryAsync.updateState, SinopeAccessory.updateState,
    SinopeAccessoryAsync.currentEpoch, SinopeAccessory.currentEpoch,
    alog_debug, alog_error, aupdateCharacteristic, log_debug, log_error, updateCharacteristic.
  same.
Qed.

Lemma same_read device rd :
  same_run (read_invocation device rd) (read_handler device rd).
Proof.
  destruct rd; unfold read_invocation, read_handler,
    SinopeAccessoryAsync.handleCurrentTemperatureGet, SinopeAccessory.handleCurrentTemperatureGet,
    SinopeAccessoryAsync.handleTargetTemperatureGet, SinopeAccessory.handleTargetTemperatureGet,
    SinopeAccessoryAsync.handleCurrentHeatingCoolingStateGet, SinopeAccessory.handleCurrentHeatingCoolingStateGet,
    SinopeAccessoryAsync.handleTargetHeatingCoolingStateGet, SinopeAccessory.handleTargetHeatingCoolingStateGet,
    SinopeAccessoryAsync.getState, SinopeAccessory.getState,
    SinopeAccessoryAsync.isValid, SinopeAccessory.isValid,
    SinopeAccessoryAsync.updateState, SinopeAccessory.updateState,
    SinopeAccessoryAsync.currentEpoch, SinopeAccessory.currentEpoch,
    acallback, callback,
    alog_debug, alog_error, aupdateCharacteristic, log_debug, log_error, updateCharacteristic.
  all: same.
Qed.

(** *** Reads that overlap in the loop *)

Lemma Read_eq_dec (a b : Read) : {a = b} + {a <> b}.
Proof. decide equality. Defined.

Lemma fetches_quiet t e :
  is_quiet e = true -> fetches (t ++ [e]) = fetches t.
Proof.
  intros Q. rewrite fetches_app. destruct e; try discriminate Q;
    cbn; now rewrite app_nil_r.
Qed.

Lemma callbacks_quiet t e :
  is_quiet e = true -> callbacks (t ++ [e]) = callbacks t.
Proof.
  intros Q. rewrite callbacks_app. destruct e; try discriminate Q;
    cbn; now rewrite app_nil_r.
Qed.

Ltac count_readers :=
  unfold readers_of in *; rewrite ?map_app in *; cbn [map reader app] in *;
  repeat match goal with
    | H : Permutation _ _ |- _ =>
        let x := fresh "x" in
        rewrite (Permutation_count_occ Read_eq_dec) in H
    end;
  apply (Permutation_count_occ Read_eq_dec);
  let x := fresh "x" in
  intro x;
  repeat match goal with
    | H : forall y : Read, count_occ _ _ y = count_occ _ _ y |- _ =>
        specialize (H x)
    end;
  repeat progress (cbn [app count_occ] in *; rewrite ?count_occ_app in * );
  repeat match goal with
    | |- context [Read_eq_dec ?a ?b] => destruct (Read_eq_dec a b)
    | H : context [Read_eq_dec ?a ?b] |- _ => destruct (Read_eq_dec a b)
    end;
  try congruence; lia.

Lemma cost_app q1 q2 : cost (q1 ++ q2) = (cost q1 + cost q2)%nat.
Proof. unfold cost. now rewrite map_app, list_sum_app. Qed.

Lemma cost_cons it q : cost (it :: q) = S (turns it + cost q).
Proof. reflexivity. Qed.

Ltac count_cost :=
  rewrite ?cost_app, ?cost_cons in *; change (cost []) with 0%nat in *;
  cbn [turns] in *; lia.

Lemma cost_perm q1 q2 : Permutation q1 q2 -> cost q1 = cost q2.
Proof.
  unfold cost, list_sum. induction 1; cbn in *; lia.
Qed.

Lemma in_hand_quiet device s' answered wq rq L e :
  is_quiet e = true ->
  in_hand device s' answered wq rq L ->
  in_hand device s' answered wq rq
    {| cache := cache L; held := held L; waiting := waiting L;
       fetching := fetching L; updating := updating L; ready := ready L;
       seen := seen L ++ [e] |}.
Proof.
  intros Q (C & F & U & Fe & Cb & W & R). unfold in_hand.
  cbn [cache held waiting fetching updating ready seen].
  rewrite fetches_quiet, callbacks_quiet by assumption. now repeat split.
Qed.

(** One turn of a read that has given the lock back: it answers the hub with
    its field of the cache, or it is ready again with one turn less to go;
    the lock and its queue are not touched. *)
Lemma free_turn device s' rd clk n p :
  free s' rd n p ->
  forall L answered wq rq,
    in_hand device s' answered wq rq L ->
    let L' := advance clk p L in
    held L' = held L /\ waiting L' = waiting L /\
    match n with
    | O => in_hand device s' (answered ++ [rd]) wq rq L'
    | S m =>
        in_hand device s' answered wq
          (rq ++ [{| reader := rd; turns := m; holds := false |}]) L'
    end.
Proof.
  induction 1 as [|e k n Q Fr IH|k n Fr IH|k n Fr];
    intros L answered wq rq I; cbn [advance]; cbv zeta.
  - destruct I as (C & F & U & Fe & Cb & W & R). unfold in_hand.
    cbn [cache held waiting fetching updating ready seen].
    rewrite fetches_app, callbacks_app, map_app, Cb. cbn.
    rewrite app_nil_r. now repeat split.
  - exact (IH _ answered wq rq (in_hand_quiet _ _ _ _ _ _ e Q I)).
  - destruct I as (C & I). rewrite C. apply IH. now split.
  - destruct I as (C & F & U & Fe & Cb & W & R). unfold in_hand.
    cbn [cache held waiting fetching updating ready seen].
    repeat split; try assumption.
    apply Forall2_app; [assumption|]. constructor; [exact Fr | constructor].
Qed.

(** One turn of a read that holds the lock while the cache is valid: it
    gives the lock back, to the first in the queue if there is one, makes
    no fetch, and goes on as a read that has given the lock back. *)
Lemma holder_turn device s' rd clk n p :
  holding s' rd n p -> ceil_seconds clk < State.validUntil s' ->
  forall L answered wq rq,
    in_hand device s' answered wq rq L ->
    let L' := advance clk p L in
    exists answered' wq' rq',
      in_hand device s' answered' wq' rq' L' /\ lock_kept rq' L' /\
      Permutation (answered' ++ readers_of wq' ++ readers_of rq')
        (rd :: answered ++ readers_of wq ++ readers_of rq) /\
      (cost wq' + cost rq' = cost wq + cost rq + n)%nat.
Proof.
  intros Ho T.
  induction Ho as [e k n Q Ho IH|k n Ho IH|k n Ho IH|k n Fr];
    intros L answered wq rq I; cbn [advance]; cbv zeta.
  - exact (IH _ answered wq rq (in_hand_quiet _ _ _ _ _ _ e Q I)).
  - destruct I as (C & I). rewrite C. apply IH. now split.
  - now apply IH.
  - destruct I as (C & F & U & Fe & Cb & W & R).
    destruct (waiting L) as [|next others] eqn:Wq.
    + inversion W; subst wq.
      set (L1 := {| cache := cache L; held := false; waiting := [];
                    fetching := fetching L; updating := updating L;
                    ready := ready L; seen := seen L |}).
      assert (I1 : in_hand device s' answered [] rq L1)
        by (repeat split; assumption).
      destruct (free_turn device s' rd clk n k Fr L1 answered [] rq I1)
        as (H' & W' & I').
      cbn [L1 held waiting] in H', W'.
      destruct n as [|m].
      * exists (answered ++ [rd]), [], rq. split; [exact I'|].
        split; [split; [intros _; exact W' | congruence]|].
        split; [count_readers | count_cost].
      * exists answered, [],
          (rq ++ [{| reader := rd; turns := m; holds := false |}]).
        split; [exact I'|].
        split; [split; [intros _; exact W' | congruence]|].
        split; [count_readers | count_cost].
    + inversion W as [|w0 ? wq0 ? [Hw Wn] Wo]; subst wq.
      set (L1 := {| cache := cache L; held := true; waiting := others;
                    fetching := fetching L; updating := updating L;
                    ready := ready L ++ [next true]; seen := seen L |}).
      assert (I1 : in_hand device s' answered wq0 (rq ++ [w0]) L1).
      { repeat split; try assumption.
        apply Forall2_app; [assumption|]. constructor; [|constructor].
        unfold item_ok. now rewrite Hw. }
      destruct (free_turn device s' rd clk n k Fr L1 answered wq0
                  (rq ++ [w0]) I1) as (H' & W' & I').
      cbn [L1 held waiting] in H', W'.
      destruct n as [|m].
      * exists (answered ++ [rd]), wq0, (rq ++ [w0]). split; [exact I'|].
        split.
        { split; [congruence|]. intros _. exists w0.
          split; [apply in_or_app; right; now left | exact Hw]. }
        split; [count_readers | count_cost].
      * exists answered, wq0,
          ((rq ++ [w0]) ++ [{| reader := rd; turns := m; holds := false |}]).
        split; [exact I'|].
        split.
        { split; [congruence|]. intros _. exists w0.
          split; [apply in_or_app; left; apply in_or_app; right; now left
                 | exact Hw]. }
        split; [count_readers | count_cost].
Qed.

(** One turn of a read that arrives while the cache is valid: it is queued
    if the lock is held, and otherwise takes the lock and goes on as above. *)
Lemma arrival_turn device s' rd clk n p :
  arriving s' rd n p -> ceil_seconds clk < State.validUntil s' ->
  forall L answered wq rq,
    in_hand device s' answered wq rq L -> lock_kept rq L ->
    let L' := advance clk p L in
    exists answered' wq' rq',
      in_hand device s' answered' wq' rq' L' /\ lock_kept rq' L' /\
      Permutation (answered' ++ readers_of wq' ++ readers_of rq')
        (rd :: answered ++ readers_of wq ++ readers_of rq).
Proof.
  intros Ar T.
  induction Ar as [e k n Q Ar IH|k n Ho];
    intros L answered wq rq I K; cbn [advance]; cbv zeta.
  - exact (IH _ answered wq rq (in_hand_quiet _ _ _ _ _ _ e Q I) K).
  - destruct (held L) eqn:H.
    + destruct I as (C & F & U & Fe & Cb & W & R). destruct K as [K0 K1].
      exists answered, (wq ++ [{| reader := rd; turns := n; holds := true |}]),
        rq.
      split; [|split].
      * repeat split; try assumption.
        apply Forall2_app; [assumption|]. now repeat constructor.
      * split; cbn [held waiting]; [discriminate | intros _; now apply K1].
      * count_readers.
    + destruct (holder_turn device s' rd clk n (k true) Ho T
                  {| cache := cache L; held := true; waiting := waiting L;
                     fetching := fetching L; updating := updating L;
                     ready := ready L; seen := seen L |} answered wq rq I)
        as (answered' & wq' & rq' & I' & K' & P & _).
      now exists answered', wq', rq'.
Qed.

Ltac run_loop :=
  cbv -[Z.add Z.ltb Z.leb Z.lt Z.le ceil_seconds number_gt number_eq
        string_is String.eqb num app fetches callbacks read_field].

(** The read handlers are such reads, whatever the cache. *)
Lemma read_arriving device rd s' : arriving s' rd 2 (read_invocation device rd).
Proof.
  destruct rd; run_loop; destruct s' as [ct tt' ch th oo vu];
    (apply arriving_quiet; [reflexivity|]); apply arriving_lock;
    apply holding_reads; apply holding_clock; intros clk T;
    apply Z.ltb_lt in T; cbv [State.validUntil] in T; rewrite T;
    (apply holding_quiet; [reflexivity|]); apply holding_release;
    apply free_yield; apply free_yield; apply free_reads;
    exact (free_callback _ _).
Qed.

(** A read that arrives while the lock is held logs its trigger and is
    queued on the lock. *)
Lemma arrival_queued device rd clk L :
  held L = true ->
  exists k,
    advance clk (read_invocation device rd) L =
      {| cache := cache L; held := true; waiting := waiting L ++ [k];
         fetching := fetching L; updating := updating L; ready := ready L;
         seen := seen L ++ [Log_debug (read_trigger rd)] |} /\
    forall s', holding s' rd 2 (k true).
Proof.
  intros H.
  pose proof (read_arriving device rd) as Sv.
  destruct rd; cbn [read_invocation] in *;
    unfold SinopeAccessoryAsync.handleCurrentTemperatureGet,
      SinopeAccessoryAsync.handleTargetTemperatureGet,
      SinopeAccessoryAsync.handleCurrentHeatingCoolingStateGet,
      SinopeAccessoryAsync.handleTargetHeatingCoolingStateGet,
      SinopeAccessoryAsync.getState, alock_acquire, alog_debug, aemit, aret in *;
    cbn [abind await advance cache held waiting fetching updating ready seen] in *;
    rewrite H; eexists; (split; [reflexivity|]); intros s';
    specialize (Sv s'); inversion Sv as [e k n Q Sv1|]; subst;
    inversion Sv1; subst; assumption.
Qed.

(** A read that finds the lock free and the cache stale takes the lock and
    issues the fetch.  When the vendor answers with a snapshot, the rest of
    the refresh runs in that one turn: the cache becomes the state
    [updateState] computes, and the reader is ready to give the lock back. *)
Lemma first_reader_fetches device rd clk L :
  held L = false -> State.validUntil (cache L) <= ceil_seconds clk ->
  exists k1,
    advance clk (read_invocation device rd) L =
      {| cache := cache L; held := true; waiting := waiting L;
         fetching := fetching L ++ [k1]; updating := updating L;
         ready := ready L;
         seen := ((seen L ++ [Log_debug (read_trigger rd)])
                    ++ [Log_debug "updating state for accessory %s"])
                   ++ [FetchDevice (id device)] |} /\
    forall d clk2 L2,
      let L' := advance clk2 (k1 (Some d)) L2 in
      cache L' =
        state (final (SinopeAccessory.updateState device
                        (world clk2 (Some d) true true) (boot (cache L2)))) /\
      held L' = held L2 /\ waiting L' = waiting L2 /\
      fetching L' = fetching L2 /\ updating L' = updating L2 /\
      fetches (seen L') = fetches (seen L2) /\
      callbacks (seen L') = callbacks (seen L2) /\
      exists rest, ready L' = ready L2 ++ [rest] /\
                   forall s', holding s' rd 2 rest.
Proof.
  intros H V. destruct L as [s0 h w f u r sn]. cbn [held cache] in H, V.
  subst h. destruct s0 as [ct tt' ch th oo vu]. cbn [State.validUntil] in V.
  apply Z.ltb_ge in V.
  destruct rd; run_loop; rewrite V; eexists; (split; [reflexivity|]);
    intros d clk2 [[ct2 tt2 ch2 th2 oo2 vu2] h2 w2 f2 u2 r2 sn2];
    split_snapshot d; run_loop; split_tests;
    rewrite ?fetches_app, ?callbacks_app; cbn [fetches callbacks filter is_fetch app];
    rewrite ?app_nil_r;
    (repeat split; try reflexivity);
    eexists; (split; [reflexivity|]); intros s';
    apply holding_release; apply free_yield; apply free_yield;
    apply free_reads; exact (free_callback _ _).
Qed.

Lemma run_app a : forall b L,
  run (a ++ b) L =
    match run a L with Some L1 => run b L1 | None => None end.
Proof.
  induction a as [|t a IH]; intros b L; [reflexivity|].
  cbn [app run]. destruct (tick t L); [apply IH | reflexivity].
Qed.

Lemma take_out_Forall2 {X Y} (P : X -> Y -> Prop) i :
  forall xs ys y rest,
    Forall2 P xs ys -> take_out i ys = Some (y, rest) ->
    exists x xs0, P x y /\ Forall2 P xs0 rest /\ Permutation (x :: xs0) xs.
Proof.
  induction i as [|i IH]; intros xs ys y rest F T;
    destruct F as [|x0 y0 xs ys Pxy F]; cbn [take_out] in T; try discriminate.
  - injection T as <- <-. exists x0, xs. now repeat split.
  - destruct (take_out i ys) as [[y1 rest1]|] eqn:E; [|discriminate].
    injection T as <- <-.
    destruct (IH xs ys y1 rest1 F E) as (x & xs0 & Px & F0 & Pm).
    exists x, (x0 :: xs0). repeat split; [assumption | now constructor |].
    rewrite perm_swap. now constructor.
Qed.

(** Reads issued while the fetch is in flight all end up queued. *)
Lemma arrivals_queue device s0 k1 arrivals :
  forall queued L,
    refresh_in_flight device s0 k1 queued L ->
    exists L1,
      run (map (arrival device) arrivals) L = Some L1 /\
      refresh_in_flight device s0 k1 (queued ++ map snd arrivals) L1.
Proof.
  induction arrivals as [|[clk rd] arrivals IH]; intros queued L I.
  - exists L. cbn. rewrite app_nil_r. now split.
  - destruct I as (C & H & F & U & R & W & Fe & Cb).
    destruct (arrival_queued device rd clk L H) as (k & E & Sv).
    cbn [map run tick arrival fst snd]. rewrite E.
    destruct (IH (queued ++ [rd])
                {| cache := cache L; held := true; waiting := waiting L ++ [k];
                   fetching := fetching L; updating := updating L;
                   ready := ready L;
                   seen := seen L ++ [Log_debug (read_trigger rd)] |})
      as (L1 & Run & I1).
    + unfold refresh_in_flight. cbn [cache held waiting fetching updating ready seen].
      repeat split; try assumption.
      * apply Forall2_app; [assumption | now repeat constructor].
      * now rewrite fetches_quiet.
      * now rewrite callbacks_quiet.
    + exists L1. split; [exact Run|].
      rewrite <- app_assoc in I1. exact I1.
Qed.

(** Once the cache is fresh, a turn taken before the expiry keeps it so;
    a read that goes on brings the work left down by one turn. *)
Lemma turn_served device s' t L L1 answered wq rq :
  in_hand device s' answered wq rq L -> lock_kept rq L ->
  ceil_seconds (turn_clock t) < State.validUntil s' ->
  tick (turn_tick device t) L = Some L1 ->
  exists answered' wq' rq',
    in_hand device s' answered' wq' rq' L1 /\ lock_kept rq' L1 /\
    Permutation (answered' ++ readers_of wq' ++ readers_of rq')
      (arrived [t] ++ answered ++ readers_of wq ++ readers_of rq) /\
    match t with
    | Arrives _ _ => True
    | GoesOn _ _ => S (cost wq' + cost rq') = (cost wq + cost rq)%nat
    end.
Proof.
  intros I K T E.
  destruct t as [clk rd|clk i]; cbn [turn_tick tick turn_clock arrived] in *.
  - injection E as <-.
    destruct (arrival_turn device s' rd clk 2 _ (read_arriving device rd s') T
                L answered wq rq I K)
      as (answered' & wq' & rq' & I' & K' & P).
    exists answered', wq', rq'.
    split; [exact I'|]. split; [exact K'|]. split; [exact P | exact Logic.I].
  - destruct (take_out i (ready L)) as [[p rest]|] eqn:Tk; [|discriminate].
    injection E as <-.
    destruct I as (C & F & U & Fe & Cb & W & R).
    destruct (take_out_Forall2 _ i rq (ready L) p rest R Tk)
      as (it & rq0 & Ok & R0 & P0).
    set (L0 := {| cache := cache L; held := held L; waiting := waiting L;
                  fetching := fetching L; updating := updating L;
                  ready := rest; seen := seen L |}).
    assert (I0 : in_hand device s' answered wq rq0 L0)
      by (repeat split; assumption).
    pose proof (cost_perm _ _ P0) as Pc. rewrite cost_cons in Pc.
    assert (Pr : Permutation (reader it :: readers_of rq0) (readers_of rq))
      by (apply (Permutation_map reader) in P0; exact P0).
    unfold item_ok in Ok. destruct (holds it) eqn:Hit.
    + destruct (holder_turn device s' (reader it) clk (turns it) p Ok T
                  L0 answered wq rq0 I0)
        as (answered' & wq' & rq' & I' & K' & P & Cs).
      exists answered', wq', rq'.
      split; [exact I'|]. split; [exact K'|]. split.
      * cbn [app]. rewrite P. clear - Pr. count_readers.
      * lia.
    + destruct (free_turn device s' (reader it) clk (turns it) p Ok
                  L0 answered wq rq0 I0) as (H' & W' & I').
      cbn [L0 held waiting] in H', W'.
      assert (K0 : forall rq', (forall x, In x rq0 -> In x rq') ->
                lock_kept rq' (advance clk p L0)).
      { intros rq' Sub. destruct K as [K0 K1]. split.
        - intros Hf. rewrite W'. apply K0. congruence.
        - intros Ht. rewrite H' in Ht. destruct (K1 Ht) as (h & Ih & Hh).
          exists h. split; [|exact Hh]. apply Sub.
          apply (Permutation_in _ (Permutation_sym P0)) in Ih.
          destruct Ih as [<-|Ih]; [congruence | exact Ih]. }
      destruct (turns it) as [|m] eqn:Tn.
      * exists (answered ++ [reader it]), wq, rq0.
        split; [exact I'|]. split; [apply K0; now intros|]. split.
        -- cbn [app]. clear - Pr. count_readers.
        -- lia.
      * exists answered, wq,
          (rq0 ++ [{| reader := reader it; turns := m; holds := false |}]).
        split; [exact I'|].
        split; [apply K0; intros x Ix; apply in_or_app; now left|]. split.
        -- cbn [app]. clear - Pr. count_readers.
        -- rewrite cost_app, cost_cons. cbn [turns]. change (cost []) with 0%nat.
           lia.
Qed.

Lemma turns_served device s' later :
  forall L Lf answered wq rq,
    in_hand device s' answered wq rq L -> lock_kept rq L ->
    Forall (fun t => ceil_seconds (turn_clock t) < State.validUntil s') later ->
    run (map (turn_tick device) later) L = Some Lf ->
    exists answered' wq' rq',
      in_hand device s' answered' wq' rq' Lf /\ lock_kept rq' Lf /\
      Permutation (answered' ++ readers_of wq' ++ readers_of rq')
        (arrived later ++ answered ++ readers_of wq ++ readers_of rq).
Proof.
  induction later as [|t later IH]; intros L Lf answered wq rq I K T Run.
  - cbn in Run. injection Run as <-. exists answered, wq, rq.
    split; [exact I|]. split; [exact K | reflexivity].
  - cbn [map run] in Run.
    destruct (tick (turn_tick device t) L) as [L1|] eqn:E; [|discriminate].
    apply Forall_cons_iff in T. destruct T as [T1 T].
    destruct (turn_served device s' t L L1 answered wq rq I K T1 E)
      as (a1 & w1 & r1 & I1 & K1 & P1 & _).
    destruct (IH L1 Lf a1 w1 r1 I1 K1 T Run)
      as (a2 & w2 & r2 & I2 & K2 & P2).
    exists a2, w2, r2. split; [exact I2|]. split; [exact K2|].
    rewrite P2, P1. destruct t as [clk rd|clk i]; cbn [arrived app].
    + symmetry. apply Permutation_middle.
    + reflexivity.
Qed.

(** Letting the first of the ready reads go on, turn after turn, answers
    everybody: the lock is never left held with nobody ready. *)
Lemma drain device s' clk :
  ceil_seconds clk < State.validUntil s' ->
  forall n L answered wq rq,
    in_hand device s' answered wq rq L -> lock_kept rq L ->
    (cost wq + cost rq)%nat = n ->
    exists Lf answered',
      run (repeat (Resumed clk 0) n) L = Some Lf /\
      in_hand device s' answered' [] [] Lf /\
      Permutation answered' (answered ++ readers_of wq ++ readers_of rq).
Proof.
  intros T. induction n as [|n IH]; intros L answered wq rq I K N.
  - destruct wq as [|w wq]; [|rewrite cost_cons in N; lia].
    destruct rq as [|r rq]; [|rewrite cost_cons in N; lia].
    exists L, answered. split; [reflexivity|]. split; [exact I|].
    cbn. now rewrite app_nil_r.
  - assert (R : exists p rest, ready L = p :: rest).
    { destruct I as (_ & _ & _ & _ & _ & W & R). destruct K as [K0 K1].
      destruct R as [|it p rq rest]; [|now exists p, rest].
      destruct (held L).
      - destruct (K1 eq_refl) as (it & [] & _).
      - rewrite (K0 eq_refl) in W. inversion W; subst wq. cbn in N. lia. }
    destruct R as (p & rest & R).
    assert (E : tick (turn_tick device (GoesOn clk 0)) L =
                Some (advance clk p
                        {| cache := cache L; held := held L;
                           waiting := waiting L; fetching := fetching L;
                           updating := updating L; ready := rest;
                           seen := seen L |}))
      by (cbn [turn_tick tick]; now rewrite R).
    destruct (turn_served device s' (GoesOn clk 0) L _ answered wq rq I K T E)
      as (a1 & w1 & r1 & I1 & K1 & P1 & C1).
    destruct (IH _ a1 w1 r1 I1 K1 ltac:(lia)) as (Lf & a2 & Run & I2 & P2).
    exists Lf, a2. cbn [repeat run]. cbn [turn_tick] in E. rewrite E.
    split; [exact Run|]. split; [exact I2|]. now rewrite P2, P1.
Qed.

(** C2, as the code has it.  The adapter is at rest with a stale cache [s0]
    when the hub issues the read [rd1] at [clk1]; the reads [arrivals] are
    issued next, the vendor then answers the fetch with the snapshot [d] at
    [clk2], and after that the loop takes the turns [later]: further reads
    are issued and reads that are ready go on, in any order, none queued
    long enough to be timed out by the lock.  Then:
    - while the fetch is in flight the lock is held, exactly one fetch has
      been made, every one of [arrivals] is queued on the lock, and nobody
      has been answered;
    - the turn in which the vendor answers installs the whole refreshed
      state [refreshed], the one [updateState] computes from [s0] and [d],
      with its expiry ten seconds after the epoch of [clk2];
    - if every turn of [later] is taken before that expiry, then whatever
      point [L] the schedule has reached, exactly one fetch has been made,
      the cache is [refreshed], every reader is either answered or still
      pending, and every answer is the reader's own field of [refreshed];
    - from there, letting the pending reads go on in turn before the expiry
      answers every reader, still with one fetch. *)
Theorem concurrent_reads_single_fetch device s0 rd1 clk1 arrivals clk2 d later :
  State.validUntil s0 <= ceil_seconds clk1 ->
  Forall (fun t => ceil_seconds (turn_clock t) < ceil_seconds clk2 + 10)
    later ->
  let first :=
    Invoked clk1 (read_invocation device rd1) :: map (arrival device) arrivals in
  let refreshed :=
    state (final (SinopeAccessory.updateState device
                    (world clk2 (Some d) true true) (boot s0))) in
  let readers := rd1 :: map snd arrivals ++ arrived later in
  (exists L1,
     run first (idle s0) = Some L1 /\
     cache L1 = s0 /\ held L1 = true /\
     length (fetching L1) = 1%nat /\
     length (waiting L1) = length arrivals /\ ready L1 = [] /\
     fetches (seen L1) = [FetchDevice (id device)] /\
     callbacks (seen L1) = []) /\
  (exists L2,
     run (first ++ [Fetched clk2 0 (Some d)]) (idle s0) = Some L2 /\
     cache L2 = refreshed /\
     State.validUntil refreshed = ceil_seconds clk2 + 10 /\
     held L2 = true /\ fetching L2 = [] /\
     length (waiting L2) = length arrivals /\ length (ready L2) = 1%nat /\
     fetches (seen L2) = [FetchDevice (id device)] /\
     callbacks (seen L2) = []) /\
  forall L,
    run (first ++ Fetched clk2 0 (Some d) :: map (turn_tick device) later)
      (idle s0) = Some L ->
    cache L = refreshed /\
    fetches (seen L) = [FetchDevice (id device)] /\
    (exists answered pending,
       callbacks (seen L) = map (answer refreshed) answered /\
       length pending = (length (waiting L) + length (ready L))%nat /\
       Permutation (answered ++ pending) readers) /\
    forall clk,
      ceil_seconds clk < ceil_seconds clk2 + 10 ->
      exists n Lf answered,
        run (repeat (Resumed clk 0) n) L = Some Lf /\
        waiting Lf = [] /\ ready Lf = [] /\
        cache Lf = refreshed /\
        fetches (seen Lf) = [FetchDevice (id device)] /\
        callbacks (seen Lf) = map (answer refreshed) answered /\
        Permutation answered readers.
Proof.
  intros V T. cbv zeta.
  destruct (first_reader_fetches device rd1 clk1 (idle s0) eq_refl V)
    as (k1 & E1 & K1).
  cbn [idle cache held waiting fetching updating ready seen app] in E1.
  set (L0 := {| cache := s0; held := true; waiting := []; fetching := [k1];
                updating := []; ready := [];
                seen := [Log_debug (read_trigger rd1);
                         Log_debug "updating state for accessory %s";
                         FetchDevice (id device)] |}) in E1.
  assert (I0 : refresh_in_flight device s0 k1 [] L0)
    by (repeat split; constructor).
  destruct (arrivals_queue device s0 k1 arrivals [] L0 I0) as (L1 & Run1 & I1).
  cbn [app] in I1.
  assert (First : run (Invoked clk1 (read_invocation device rd1)
                         :: map (arrival device) arrivals) (idle s0) = Some L1).
  { cbn [run tick]. rewrite E1. exact Run1. }
  destruct I1 as (C1 & H1 & F1 & U1 & R1 & W1 & Fe1 & Cb1).
  set (refreshed := state (final (SinopeAccessory.updateState device
                                    (world clk2 (Some d) true true) (boot s0)))).
  assert (Vu : State.validUntil refreshed = ceil_seconds clk2 + 10).
  { destruct (thermostat_refresh_resolved device
                (world clk2 (Some d) true true) (boot s0) d eq_refl)
      as (s' & t' & E & _ & Vu & _).
    unfold refreshed. rewrite E. exact Vu. }
  pose (L2 := {| cache := cache L1; held := held L1; waiting := waiting L1;
                 fetching := []; updating := updating L1; ready := ready L1;
                 seen := seen L1 |}).
  assert (Second : forall rest,
             run ((Invoked clk1 (read_invocation device rd1)
                     :: map (arrival device) arrivals)
                    ++ Fetched clk2 0 (Some d) :: rest) (idle s0) =
               run rest (advance clk2 (k1 (Some d)) L2)).
  { intros rest. rewrite run_app, First. cbn [run tick]. now rewrite F1. }
  destruct (K1 d clk2 L2)
    as (C2 & H2 & W2 & F2 & U2 & Fe2 & Cb2 & rest & R2 & Sv).
  cbn [L2 cache held waiting fetching updating ready seen] in
    C2, H2, W2, F2, U2, Fe2, Cb2, R2.
  rewrite C1 in C2. fold refreshed in C2.
  rewrite H1 in H2. rewrite U1 in U2. rewrite Fe1 in Fe2. rewrite Cb1 in Cb2.
  rewrite R1 in R2. cbn [app] in R2.
  split; [|split].
  - exists L1. repeat split; try assumption.
    + now rewrite F1.
    + rewrite <- (Forall2_length W1). now rewrite length_map.
  - exists (advance clk2 (k1 (Some d)) L2).
    split; [now rewrite Second|].
    repeat split; try assumption.
    + rewrite W2, <- (Forall2_length W1). now rewrite length_map.
    + now rewrite R2.
  - intros L Run. rewrite Second in Run.
    set (wq := map (fun rd => {| reader := rd; turns := 2; holds := true |})
                 (map snd arrivals)).
    set (rq := [{| reader := rd1; turns := 2; holds := true |}]).
    assert (I2 : in_hand device refreshed [] wq rq
                   (advance clk2 (k1 (Some d)) L2)).
    { unfold in_hand. repeat (split; [assumption|]). split.
      - rewrite W2. unfold wq. clear - W1.
        induction W1; cbn [map]; constructor; [|assumption].
        split; [reflexivity | cbn [reader turns]; auto].
      - rewrite R2. constructor; [|constructor].
        unfold item_ok. cbn [rq holds reader turns]. apply Sv. }
    assert (K2 : lock_kept rq (advance clk2 (k1 (Some d)) L2)).
    { split; [congruence|]. intros _. eexists.
      split; [now left | reflexivity]. }
    assert (Pq : readers_of wq = map snd arrivals).
    { unfold readers_of, wq. rewrite map_map. cbn [reader]. apply map_id. }
    rewrite <- Vu in T.
    destruct (turns_served device refreshed later _ L [] wq rq I2 K2 T Run)
      as (answered & wq3 & rq3 & I3 & K3 & P3).
    rewrite Pq in P3. cbn [readers_of rq map reader app] in P3.
    assert (P : Permutation (answered ++ readers_of wq3 ++ readers_of rq3)
                  (rd1 :: map snd arrivals ++ arrived later)).
    { rewrite P3. clear. count_readers. }
    pose proof I3 as (C3 & _ & _ & Fe3 & Cb3 & W3 & R3).
    split; [exact C3|]. split; [exact Fe3|]. split.
    + exists answered, (readers_of wq3 ++ readers_of rq3).
      split; [exact Cb3|]. split; [|exact P].
      unfold readers_of.
      rewrite length_app, !length_map, (Forall2_length W3), (Forall2_length R3).
      reflexivity.
    + intros clk Tc. rewrite <- Vu in Tc.
      destruct (drain device refreshed clk Tc _ L answered wq3 rq3 I3 K3 eq_refl)
        as (Lf & answered' & RunF & (Cf & _ & _ & Fef & Cbf & Wf & Rf) & Pf).
      exists (cost wq3 + cost rq3)%nat, Lf, answered'.
      split; [exact RunF|].
      inversion Wf. inversion Rf. repeat split; try assumption; try congruence.
      now rewrite Pf.
Qed.

Lemma concurrent_reads_single_fetch_witness :
  let later :=
    [GoesOn 5700 0; Arrives 9200 ReadTargetHeatingCoolingState; GoesOn 9300 1;
     GoesOn 12000 0; GoesOn 12100 0; GoesOn 14000 1; GoesOn 14500 0;
     GoesOn 15000 0; GoesOn 15000 0; GoesOn 15000 0] in
  let schedule :=
    (Invoked 5000 (read_invocation thermostat_1 ReadCurrentTemperature)
       :: map (arrival thermostat_1) [(5100, ReadTargetTemperature)])
      ++ Fetched 5600 0 (Some snapshot_heating)
      :: map (turn_tick thermostat_1) later in
  State.validUntil State.new <= ceil_seconds 5000 /\
  Forall (fun t => ceil_seconds (turn_clock t) < ceil_seconds 5600 + 10)
    later /\
  exists L,
    run schedule (idle State.new) = Some L /\
    fetches (seen L) = [FetchDevice (id thermostat_1)] /\
    held L = false /\ waiting L = [] /\ ready L = [] /\
    callbacks (seen L) =
      [(None, Some (VNum (43 # 2))); (None, Some (VNum (num 22)));
       (None, Some (VNum (num 3)))].
Proof.
  cbv zeta.
  assert (V : State.validUntil State.new <= ceil_seconds 5000)
    by (vm_compute; discriminate).
  assert (T : Forall
                (fun t => ceil_seconds (turn_clock t) < ceil_seconds 5600 + 10)
                [GoesOn 5700 0; Arrives 9200 ReadTargetHeatingCoolingState;
                 GoesOn 9300 1; GoesOn 12000 0; GoesOn 12100 0;
                 GoesOn 14000 1; GoesOn 14500 0; GoesOn 15000 0;
                 GoesOn 15000 0; GoesOn 15000 0])
    by (repeat constructor).
  split; [exact V|]. split; [exact T|].
  destruct (concurrent_reads_single_fetch thermostat_1 State.new
              ReadCurrentTemperature 5000 [(5100, ReadTargetTemperature)]
              5600 snapshot_heating _ V T) as (_ & _ & H).
  cbv zeta in H.
  match goal with
  | |- exists L, ?r = Some L /\ _ => destruct r as [L|] eqn:E
  end.
  - exists L. split; [reflexivity|].
    destruct (H L eq_refl) as (_ & F & _). split; [exact F|].
    vm_compute in E. injection E as <-. repeat split.
  - vm_compute in E. discriminate E.
Defined.

(** C2 as stated fails when the refresh fails: the expiry is not extended,
    so the reader that waited finds the cache stale again and fetches too. *)
Lemma concurrent_reads_refetch_after_failed_refresh :
  let env := world 5000 None true true in
  let m := boot State.new in
  let r := run_tasks
             (map (read_handler thermostat_1)
                [ReadCurrentTemperature; ReadTargetTemperature]) env m in
  State.validUntil (state m) <= ceil_seconds (getTime env (nTime m)) /\
  outcome r = [Resolved tt; Resolved tt] /\
  fetches (events r) = [FetchDevice 7; FetchDevice 7] /\
  length (fetches (events r)) <> 1%nat.
Proof.
  cbv zeta. split; [vm_compute; discriminate|].
  split; [reflexivity|]. split; [reflexivity|].
  vm_compute. discriminate.
Qed.

(** ** The lock is what makes it one fetch *)

Ltac first_turn :=
  cbn [run tick repeat];
  match goal with
  | |- context [advance ?clk ?p (idle ?s)] =>
      let t := eval cbv -[Z.add Z.ltb ceil_seconds number_gt number_eq
                          string_is String.eqb num]
                 in (advance clk p (idle s)) in
      change (advance clk p (idle s)) with t
  end.

Ltac run_schedule :=
  cbv zeta;
  match goal with
  | |- exists L, ?r = Some L /\ _ =>
      let E := fresh "E" in
      destruct r as [L|] eqn:E; vm_compute in E;
      [ injection E as <-; eexists; split; [reflexivity|]; repeat split
      | discriminate E ]
  end.

(** A read alone in the loop is the read handler run from start to end:
    with the vendor and the clock as in [world], the loop ends at rest with
    the trace and the cache of the sequential reading. *)
Lemma lone_read_as_sequential device rd clk reply s0 :
  let r := read_handler device rd (world clk reply true true) (boot s0) in
  let schedule :=
    if ceil_seconds clk <? State.validUntil s0
    then Invoked clk (read_invocation device rd) :: repeat (Resumed clk 0) 2
    else Invoked clk (read_invocation device rd)
           :: Fetched clk 0 reply :: repeat (Resumed clk 0) 3 in
  run schedule (idle s0) =
    Some {| cache := state (final r); held := false; waiting := [];
            fetching := []; updating := []; ready := [];
            seen := events r |}.
Proof.
  cbv zeta. destruct s0 as [ct tt' ch th oo vu]. cbn [State.validUntil].
  destruct (ceil_seconds clk <? vu) eqn:V.
  - destruct rd; first_turn; rewrite V;
      cbv -[Z.ltb ceil_seconds]; rewrite V; reflexivity.
  - destruct rd; destruct reply as [d|];
      try split_snapshot d; first_turn; rewrite V;
      cbv -[Z.add Z.ltb ceil_seconds number_gt number_eq string_is String.eqb
            num];
      rewrite V; split_tests; reflexivity.
Qed.

(** The refresh the constructor starts is not inside the lock: a read
    issued while it is in flight finds the lock free and the cache stale,
    and fetches too. *)
Lemma constructor_refresh_overlaps_a_read :
  let schedule :=
    [Invoked 5000 (SinopeAccessoryAsync.constructor thermostat_1);
     Invoked 5100 (read_invocation thermostat_1 ReadCurrentTemperature)] in
  exists L,
    run schedule (idle State.new) = Some L /\
    held L = true /\ waiting L = [] /\ length (fetching L) = 2%nat /\
    fetches (seen L) = [FetchDevice 7; FetchDevice 7].
Proof. run_schedule. Qed.

(** With the two invocations overlapping in the loop, a fetch that fails
    leaves the cache stale for the reader that waited on the lock, who
    fetches again once the lock is handed over. *)
Lemma overlapping_reads_refetch_after_failed_refresh :
  let schedule :=
    [Invoked 5000 (read_invocation thermostat_1 ReadCurrentTemperature);
     Invoked 5100 (read_invocation thermostat_1 ReadTargetTemperature);
     Fetched 5600 0 None; Resumed 5700 0; Resumed 5700 0] in
  exists L,
    run schedule (idle State.new) = Some L /\
    held L = true /\ length (fetching L) = 1%nat /\
    fetches (seen L) = [FetchDevice 7; FetchDevice 7] /\
    callbacks (seen L) = [].
Proof. run_schedule. Qed.

(** A reader the lock has kept waiting beyond its timeout is rejected: it
    is never answered, whatever the refresh brings. *)
Lemma timed_out_reader_is_not_answered :
  let schedule :=
    [Invoked 5000 (read_invocation thermostat_1 ReadCurrentTemperature);
     Invoked 5100 (read_invocation thermostat_1 ReadTargetTemperature);
     TimedOut 10100 0; Fetched 10200 0 (Some snapshot_heating)]
      ++ repeat (Resumed 10300 0) 5 in
  exists L,
    run schedule (idle State.new) = Some L /\
    held L = false /\ waiting L = [] /\ ready L = [] /\
    fetches (seen L) = [FetchDevice 7] /\
    callbacks (seen L) = [(None, Some (VNum (43 # 2)))].
Proof. run_schedule. Qed.


(** ** What the read path never does *)

(** A refresh sends no patch, calls no callback and takes no lock. *)
Lemma thermostat_refresh_quiet device env m :
  let r := SinopeAccessory.updateState device env m in
  patches (events r) = [] /\ callbacks (events r) = [] /\
  nUpdate (final r) = nUpdate m /\ nLock (final r) = nLock m.
Proof.
  cbv zeta. destruct (fetchReply env (nFetch m)) as [d|] eqn:F.
  - destruct (thermostat_refresh_resolved device env m d F)
      as (s' & t' & E & P & _).
    rewrite E. destruct (pushes_only t' P) as (_ & Pt & Ct & _).
    unfold events, final. cbn [fst snd patches callbacks].
    repeat split; assumption.
  - rewrite (thermostat_refresh_rejected device env m F). repeat split.
Qed.

Lemma thermostat_getState_quiet device env m :
  let r := SinopeAccessory.getState device env m in
  patches (events r) = [] /\ callbacks (events r) = [] /\
  nUpdate (final r) = nUpdate m /\ nLock (final r) = S (nLock m).
Proof.
  cbv zeta. destruct (lockReply env (nLock m)) eqn:L.
  - destruct (Z_lt_le_dec (ceil_seconds (getTime env (nTime m)))
                (State.validUntil (state m))) as [V|V].
    + rewrite (thermostat_getState_valid device env m L V). repeat split.
    + rewrite (thermostat_getState_stale device env m L V).
      destruct (thermostat_refresh_quiet device env
                  (asked_time (asked_lock m))) as (P & C & U & K).
      unfold events at 1 3, final at 1 3. cbn [fst snd patches callbacks].
      repeat split; assumption.
  - rewrite (thermostat_getState_locked_out device env m L). repeat split.
Qed.

(** With the lock obtained the state accessor resolves. *)
Lemma thermostat_getState_granted device env m :
  lockReply env (nLock m) = true ->
  outcome (SinopeAccessory.getState device env m) = Resolved this_state.
Proof.
  intros L.
  destruct (Z_lt_le_dec (ceil_seconds (getTime env (nTime m)))
              (State.validUntil (state m))) as [V|V].
  - now rewrite (thermostat_getState_valid device env m L V).
  - now rewrite (thermostat_getState_stale device env m L V).
Qed.

(** ** The target mode write *)

(** The write of the target mode: its debug line, the state accessor, then
    either the bare acknowledgement or the patch, its log line and the
    acknowledgement. *)
Lemma mode_write_run device value env m :
  SinopeAccessory.handleTargetHeatingCoolingStateSet device value env m =
    match SinopeAccessory.getState device env m with
    | (Rejected e, m1, t1) =>
        (Rejected e, m1,
         Log_debug "Triggered SET TargetHeatingCoolingState:" :: t1)
    | (Resolved _, m1, t1) =>
        match chosen_setpointMode (Number value)
                (State.targetHeatingCoolingState (state m1)) with
        | None =>
            (Resolved tt, m1,
             Log_debug "Triggered SET TargetHeatingCoolingState:"
               :: t1 ++ [Callback None None])
        | Some mode =>
            (Resolved tt, asked_update m1,
             Log_debug "Triggered SET TargetHeatingCoolingState:"
               :: t1 ++
               [UpdateDevice (id device)
                  (SinopeDeviceStateRequest.mk None (Some mode) None);
                if updateReply env (nUpdate m1)
                then Log_debug "updated device %s with TargetTemperature %d"
                else Log_error "could not update TargetTemperature of device %s";
                Callback None None])
        end
    end.
Proof.
  unfold SinopeAccessory.handleTargetHeatingCoolingStateSet.
  unfold bind at 1. unfold log_debug at 1, emit at 1.
  unfold bind at 1.
  destruct (SinopeAccessory.getState device env m) as [[[a|e] m1] t1];
    [|reflexivity].
  unfold chosen_setpointMode.
  unfold bind at 1. unfold read at 1, bind at 1, get_state at 1, ret at 1.
  destruct (number_eq (Number value) (num 0)); cbn [negb andb].
  - run_model. destruct (updateReply env _); run_model;
      rewrite ?app_nil_r; reflexivity.
  - destruct (match State.targetHeatingCoolingState (state m1) with
              | Some t => number_eq t (num 0)
              | None => false
              end).
    + run_model. destruct (updateReply env _); run_model;
        rewrite ?app_nil_r; reflexivity.
    + run_model. rewrite ?app_nil_r. reflexivity.
Qed.

Lemma number_eq_iff a b : number_eq a b = true <-> (a == b)%Q.
Proof. unfold number_eq. apply Qeq_bool_iff. Qed.

Lemma number_eq_false a b : number_eq a b = false <-> ~ (a == b)%Q.
Proof.
  rewrite <- number_eq_iff. destruct (number_eq a b); split; intros H;
    try discriminate; try congruence; try (now elim H).
Qed.

Lemma chosen_off mode target :
  (mode == 0)%Q -> chosen_setpointMode mode target = Some "off".
Proof.
  intros H. unfold chosen_setpointMode. change (num 0) with 0%Q.
  apply number_eq_iff in H. now rewrite H.
Qed.

Lemma chosen_auto mode target :
  ~ (mode == 0)%Q -> is_zero target ->
  chosen_setpointMode mode target = Some "auto".
Proof.
  intros H (q & -> & Hq). unfold chosen_setpointMode.
  change (num 0) with 0%Q.
  apply number_eq_false in H. apply number_eq_iff in Hq.
  now rewrite H, Hq.
Qed.


(** ** The tests of the mapping *)

Lemma number_gt_iff a b : number_gt a b = true <-> (b < a)%Q.
Proof.
  unfold number_gt. rewrite negb_true_iff.
  split; intros H.
  - apply Qnot_le_lt. intros Hle. apply Qle_bool_iff in Hle. congruence.
  - destruct (Qle_bool a b) eqn:E; [|reflexivity].
    apply Qle_bool_iff in E. elim (Qlt_not_le _ _ H E).
Qed.

Lemma string_is_iff x lit : string_is x lit = true <-> x = Some lit.
Proof.
  destruct x as [s|]; cbn [string_is].
  - rewrite String.eqb_eq. split; congruence.
  - split; discriminate.
Qed.

Lemma string_is_false x lit : string_is x lit = false <-> x <> Some lit.
Proof.
  rewrite <- string_is_iff. destruct (string_is x lit); split; intros H;
    try discriminate; try congruence; try (now elim H).
Qed.




(** ** C3: the target mode write *)




(** ** The switch read *)

Lemma switch_read_run device env m :
  SinopeSwitchAccessory.getOnCharacteristicHandler device env m =
    match SinopeSwitchAccessory.getState device env m with
    | (Resolved _, m1, t1) =>
        (Resolved tt, m1,
         Log_debug "Triggered GET getOnCharacteristicHandler"
           :: t1 ++ [Callback None (option_map VBool (State.onOff (state m1)))])
    | (Rejected e, m1, t1) =>
        (Rejected e, m1,
         Log_debug "Triggered GET getOnCharacteristicHandler" :: t1)
    end.
Proof.
  unfold SinopeSwitchAccessory.getOnCharacteristicHandler.
  unfold bind at 1; unfold log_debug at 1, emit at 1.
  unfold bind at 1.
  destruct (SinopeSwitchAccessory.getState device env m) as [[[a|e] m1] t1];
    cbn; rewrite ?app_nil_r; reflexivity.
Qed.

Lemma error_logs_app t1 t2 :
  error_logs (t1 ++ t2) = error_logs t1 ++ error_logs t2.
Proof. unfold error_logs. apply filter_app. Qed.

(** ** C4: a failed fetch *)



(** ** C5: the heating-cooling states of a refresh *)

(** C5.  When the fetch of a thermostat refresh succeeds with a snapshot
    whose room temperature is present: the cached current heating-cooling
    state becomes 1 if the output percent is present and greater than 0 and
    becomes 0 otherwise; the cached target heating-cooling state becomes 3
    if the setpoint mode is "auto", 0 if it is "off", and 1 for anything
    else, a missing mode included. *)
Theorem thermostat_mode_mapping device env m d v :
  fetchReply env (nFetch m) = Some d ->
  SinopeDeviceState.roomTemperature_value d = Some v ->
  let s' := state (final (SinopeAccessory.updateState device env m)) in
  ((exists p, SinopeDeviceState.outputPercentDisplay d = Some p /\ (0 < p)%Q) ->
     State.currentHeatingCoolingState s' = Some (num 1)) /\
  (~ (exists p, SinopeDeviceState.outputPercentDisplay d = Some p /\ (0 < p)%Q) ->
     State.currentHeatingCoolingState s' = Some (num 0)) /\
  (SinopeDeviceState.setpointMode d = Some "auto" ->
     State.targetHeatingCoolingState s' = Some (num 3)) /\
  (SinopeDeviceState.setpointMode d = Some "off" ->
     State.targetHeatingCoolingState s' = Some (num 0)) /\
  (SinopeDeviceState.setpointMode d <> Some "auto" ->
   SinopeDeviceState.setpointMode d <> Some "off" ->
     State.targetHeatingCoolingState s' = Some (num 1)).
Proof.
  intros F T. cbv zeta.
  destruct (thermostat_refresh_resolved device env m d F)
    as (s' & t' & E & _ & _ & Mp).
  rewrite E, T in *. unfold final. cbn [fst snd state with_state].
  destruct Mp as (_ & _ & Hc & Ht & _). rewrite Hc, Ht.
  split; [|split; [|split; [|split]]].
  - intros (p & -> & Hp). change 0%Q with (num 0) in Hp.
    apply number_gt_iff in Hp. now rewrite Hp.
  - intros N. destruct (SinopeDeviceState.outputPercentDisplay d) as [p|];
      [|reflexivity].
    destruct (number_gt p (num 0)) eqn:G; [|reflexivity].
    elim N. exists p. split; [reflexivity|]. now apply number_gt_iff.
  - intros A. apply string_is_iff in A. now rewrite A.
  - intros O. rewrite O. reflexivity.
  - intros A O. apply string_is_false in A, O. now rewrite A, O.
Qed.

Lemma thermostat_mode_mapping_witness :
  let env := world 5000 (Some snapshot_heating) true true in
  let s' := state (final (SinopeAccessory.updateState thermostat_1 env
                            (boot State.new))) in
  fetchReply env 0%nat = Some snapshot_heating /\
  SinopeDeviceState.roomTemperature_value snapshot_heating = Some (43 # 2) /\
  State.currentHeatingCoolingState s' = Some (num 1) /\
  State.targetHeatingCoolingState s' = Some (num 3).
Proof.
  cbv zeta. split; [reflexivity|]. split; [reflexivity|].
  destruct (thermostat_mode_mapping thermostat_1
              (world 5000 (Some snapshot_heating) true true)
              (boot State.new) snapshot_heating (43 # 2) eq_refl eq_refl)
    as (A & _ & B & _).
  split.
  - apply A. exists (num 40). split; reflexivity.
  - apply B. reflexivity.
Defined.

(** ** C7: the temperatures of a refresh *)

(** C7 as stated fails for the target temperature: with the room temperature
    present and the room setpoint absent, the cached target temperature is
    not left as it was, it becomes undefined. *)
Lemma refresh_without_setpoint_clears_target :
  let env := world 5000 (Some snapshot_no_setpoint) true true in
  let m := boot (cached 3) in
  let r := SinopeAccessory.updateState thermostat_1 env m in
  SinopeDeviceState.roomSetpoint snapshot_no_setpoint = None /\
  State.targetTemperature (state m) = Some (num 21) /\
  State.targetTemperature (state (final r)) = None /\
  State.targetTemperature (state (final r)) <>
    State.targetTemperature (state m).
Proof.
  cbv zeta. split; [reflexivity|]. split; [reflexivity|].
  split; [reflexivity|]. vm_compute. discriminate.
Qed.

(** C7, as the code has it.  When the fetch of a thermostat refresh
    succeeds: if the snapshot's room temperature is present, the cached
    current temperature becomes that temperature and the cached target
    temperature becomes the snapshot's room setpoint, present or not; if the
    room temperature is absent, both cached temperatures stay as they
    were. *)
Theorem thermostat_temperature_mapping device env m d :
  fetchReply env (nFetch m) = Some d ->
  let s' := state (final (SinopeAccessory.updateState device env m)) in
  (forall v, SinopeDeviceState.roomTemperature_value d = Some v ->
     State.currentTemperature s' = Some v /\
     State.targetTemperature s' = SinopeDeviceState.roomSetpoint d) /\
  (SinopeDeviceState.roomTemperature_value d = None ->
     State.currentTemperature s' = State.currentTemperature (state m) /\
     State.targetTemperature s' = State.targetTemperature (state m)).
Proof.
  intros F. cbv zeta.
  destruct (thermostat_refresh_resolved device env m d F)
    as (s' & t' & E & _ & _ & Mp).
  rewrite E. unfold final. cbn [fst snd state with_state].
  split.
  - intros v T. rewrite T in Mp. destruct Mp as (A & B & _). now split.
  - intros T. rewrite T in Mp. destruct Mp as (A & B & _). now split.
Qed.

Lemma thermostat_temperature_mapping_witness :
  let env := world 5000 (Some snapshot_heating) true true in
  let s' := state (final (SinopeAccessory.updateState thermostat_1 env
                            (boot State.new))) in
  fetchReply env 0%nat = Some snapshot_heating /\
  State.currentTemperature s' = Some (43 # 2) /\
  State.targetTemperature s' = Some (num 22).
Proof.
  cbv zeta. split; [reflexivity|].
  destruct (thermostat_temperature_mapping thermostat_1
              (world 5000 (Some snapshot_heating) true true)
              (boot State.new) snapshot_heating eq_refl) as (A & _).
  apply (A (43 # 2)). reflexivity.
Defined.

(** ** The writes that go straight to the vendor *)

Lemma temperature_write_run device value env m :
  SinopeAccessory.handleTargetTemperatureSet device value env m =
    (Resolved tt, asked_update m,
     [Log_debug "Triggered SET TargetTemperature:";
      UpdateDevice (id device)
        (SinopeDeviceStateRequest.mk (Some (Number value)) None None);
      if updateReply env (nUpdate m)
      then Log_debug "updated device %s with TargetTemperature %d"
      else Log_error "could not update TargetTemperature of device %s";
      Callback None None]).
Proof.
  unfold SinopeAccessory.handleTargetTemperatureSet.
  run_model. destruct (updateReply env _); reflexivity.
Qed.

Lemma switch_write_run device value env m :
  SinopeSwitchAccessory.setOnCharacteristicHandler device value env m =
    (Resolved tt, asked_update m,
     [Log_debug "Triggered SET Senope Switch State:";
      UpdateDevice (id device)
        (SinopeDeviceStateRequest.mk None None
           (Some (if truthy value then "on" else "off")));
      if updateReply env (nUpdate m)
      then Log_debug "updated device %s with TargetTemperature %d"
      else Log_error "could not update TargetTemperature of device %s";
      Callback None None]).
Proof.
  unfold SinopeSwitchAccessory.setOnCharacteristicHandler.
  unfold bind at 1. unfold log_debug at 1, emit at 1.
  destruct (truthy value); run_model;
    destruct (updateReply env _); reflexivity.
Qed.

(** The target mode write, once its read of the cache has resolved. *)
Lemma mode_write_granted device value env m :
  lockReply env (nLock m) = true ->
  let r :=
    SinopeAccessory.handleTargetHeatingCoolingStateSet device value env m in
  outcome r = Resolved tt /\
  callbacks (events r) = [(None, None)] /\
  (patches (events r) <> [] -> updateReply env (nUpdate m) = false ->
   In (Log_error "could not update TargetTemperature of device %s")
     (events r)).
Proof.
  intros L. cbv zeta. rewrite mode_write_run.
  pose proof (thermostat_getState_granted device env m L) as G.
  destruct (thermostat_getState_quiet device env m) as (P & C & U & _).
  destruct (SinopeAccessory.getState device env m) as [[g m1] t1].
  unfold outcome, final, events in *. cbn [fst snd] in *. subst g.
  destruct (chosen_setpointMode (Number value)
              (State.targetHeatingCoolingState (state m1))) as [md|];
    cbn [fst snd callbacks patches]; rewrite callbacks_app, patches_app, C, P.
  - split; [reflexivity|].
    split; [destruct (updateReply env (nUpdate m1)); reflexivity|].
    intros _ Uf. rewrite U, Uf. right. apply in_or_app. right.
    right. left. reflexivity.
  - split; [reflexivity|]. split; [reflexivity|].
    intros N. now elim N.
Qed.

(** A target mode write that sent a patch had obtained the lock. *)
Lemma mode_write_patch_needs_lock device value env m :
  patches (events (SinopeAccessory.handleTargetHeatingCoolingStateSet
                     device value env m)) <> [] ->
  lockReply env (nLock m) = true.
Proof.
  intros N. destruct (lockReply env (nLock m)) eqn:L; [reflexivity|].
  elim N. rewrite mode_write_run.
  rewrite (thermostat_getState_locked_out device env m L). reflexivity.
Qed.

(** ** C6: writes acknowledge whatever the vendor update does *)

(** C6 as stated fails for the write of the target mode: its read of the
    cache is not guarded, so when the lock is not obtained the handler
    rejects with the lock's error and the callback is never called. *)
Lemma mode_write_rejected_by_lock_never_acknowledges :
  let r :=
    SinopeAccessory.handleTargetHeatingCoolingStateSet thermostat_1
      (VNum (num 3)) (world 5000 (Some snapshot_heating) true false)
      (boot (cached 3)) in
  outcome r = Rejected LockError /\
  outcome r <> Resolved tt /\
  callbacks (events r) = [] /\
  callbacks (events r) <> [(None, None)].
Proof.
  cbv zeta. split; [reflexivity|]. split; [vm_compute; discriminate|].
  split; [reflexivity|]. vm_compute. discriminate.
Qed.

(** C6, as the code has it.  For every written value and every outcome of
    the vendor update, the write of the target temperature and the write of
    the switch resolve and call [callback(null)] exactly once; when the
    update fails the only trace of it is one error line in the log.  The
    write of the target mode does the same if it obtains the lock for its
    read of the cache, whether it sends a patch or not and whatever the
    fetch and the update answer; if it does not obtain the lock it rejects
    with the lock's error, sends nothing and never calls the callback. *)
Theorem writes_acknowledge_any_update_outcome device env m value :
  (let r := SinopeAccessory.handleTargetTemperatureSet device value env m in
   outcome r = Resolved tt /\
   callbacks (events r) = [(None, None)] /\
   error_logs (events r) =
     if updateReply env (nUpdate m) then []
     else [Log_error "could not update TargetTemperature of device %s"]) /\
  (let r :=
     SinopeSwitchAccessory.setOnCharacteristicHandler device value env m in
   outcome r = Resolved tt /\
   callbacks (events r) = [(None, None)] /\
   error_logs (events r) =
     if updateReply env (nUpdate m) then []
     else [Log_error "could not update TargetTemperature of device %s"]) /\
  (let r :=
     SinopeAccessory.handleTargetHeatingCoolingStateSet device value env m in
   (lockReply env (nLock m) = true ->
    outcome r = Resolved tt /\
    callbacks (events r) = [(None, None)] /\
    (patches (events r) <> [] -> updateReply env (nUpdate m) = false ->
     In (Log_error "could not update TargetTemperature of device %s")
       (events r))) /\
   (lockReply env (nLock m) = false ->
    outcome r = Rejected LockError /\
    callbacks (events r) = [] /\ patches (events r) = [])).
Proof.
  cbv zeta. split; [|split].
  - rewrite temperature_write_run.
    destruct (updateReply env (nUpdate m)); repeat split.
  - rewrite switch_write_run.
    destruct (updateReply env (nUpdate m)); repeat split.
  - split.
    + intros L. now apply mode_write_granted.
    + intros L. rewrite mode_write_run.
      rewrite (thermostat_getState_locked_out device env m L).
      repeat split.
Qed.

Lemma writes_acknowledge_any_update_outcome_witness :
  let env := world 5000 None false true in
  let r :=
    SinopeAccessory.handleTargetHeatingCoolingStateSet thermostat_1
      (VNum (num 0)) env (boot (cached 100)) in
  let r' :=
    SinopeAccessory.handleTargetHeatingCoolingStateSet thermostat_1
      (VNum (num 0)) (world 5000 None false false) (boot (cached 100)) in
  lockReply env 0%nat = true /\
  patches (events r) <> [] /\
  updateReply env 0%nat = false /\
  outcome r = Resolved tt /\
  callbacks (events r) = [(None, None)] /\
  In (Log_error "could not update TargetTemperature of device %s")
    (events r) /\
  lockReply (world 5000 None false false) 0%nat = false /\
  callbacks (events r') = [].
Proof.
  cbv zeta.
  assert (N : patches (events
                (SinopeAccessory.handleTargetHeatingCoolingStateSet
                   thermostat_1 (VNum (num 0)) (world 5000 None false true)
                   (boot (cached 100)))) <> [])
    by (vm_compute; discriminate).
  split; [reflexivity|]. split; [exact N|]. split; [reflexivity|].
  destruct (writes_acknowledge_any_update_outcome thermostat_1
              (world 5000 None false true) (boot (cached 100))
              (VNum (num 0))) as (_ & _ & W).
  cbv zeta in W. destruct W as (W & _). destruct (W eq_refl) as (A & B & C).
  split; [exact A|]. split; [exact B|].
  split; [apply C; [exact N | reflexivity]|].
  split; [reflexivity|].
  destruct (writes_acknowledge_any_update_outcome thermostat_1
              (world 5000 None false false) (boot (cached 100))
              (VNum (num 0))) as (_ & _ & W').
  cbv zeta in W'. destruct W' as (_ & W'). destruct (W' eq_refl) as (_ & Cb & _).
  exact Cb.
Defined.

(** ** C8: writes and the cache *)

(** C8 as stated fails for the target mode: its handler starts by reading
    the state through the accessor, and on a stale cache that read is a
    refresh, which replaces the cached fields and the expiry. *)
Lemma mode_write_refreshes_stale_cache :
  let env := world 5000 (Some snapshot_heating) true true in
  let m := boot State.new in
  let r :=
    SinopeAccessory.handleTargetHeatingCoolingStateSet thermostat_1
      (VNum (num 1)) env m in
  outcome r = Resolved tt /\
  State.validUntil (state m) = 0 /\
  State.validUntil (state (final r)) = 15 /\
  State.currentTemperature (state m) = Some (num 0) /\
  State.currentTemperature (state (final r)) = Some (43 # 2) /\
  state (final r) <> state m.
Proof.
  cbv zeta. repeat (split; [reflexivity|]).
  vm_compute. discriminate.
Qed.

(** C8, as the code has it.  The write of the target temperature and the
    write of the switch leave every cached field and the expiry as they
    were, whatever the vendor answers.  The write of the target mode leaves
    the cache exactly as its own read through the state accessor leaves it:
    the patch and its outcome change nothing, and the cache is as it was
    before the write when the lock is not obtained, when the cache is still
    valid, or when the refresh's fetch fails. *)
Theorem writes_leave_cache_to_read_path device env m value :
  state (final (SinopeAccessory.handleTargetTemperatureSet
                  device value env m)) = state m /\
  state (final (SinopeSwitchAccessory.setOnCharacteristicHandler
                  device value env m)) = state m /\
  (let r :=
     SinopeAccessory.handleTargetHeatingCoolingStateSet device value env m in
   state (final r) = state (final (SinopeAccessory.getState device env m)) /\
   (lockReply env (nLock m) = false \/
    ceil_seconds (getTime env (nTime m)) < State.validUntil (state m) \/
    fetchReply env (nFetch m) = None ->
    state (final r) = state m)).
Proof.
  split; [|split].
  - now rewrite temperature_write_run.
  - now rewrite switch_write_run.
  - cbv zeta.
    assert (Same :
      state (final (SinopeAccessory.handleTargetHeatingCoolingStateSet
                      device value env m)) =
      state (final (SinopeAccessory.getState device env m))).
    { rewrite mode_write_run.
      destruct (SinopeAccessory.getState device env m) as [[[a|e] m1] t1];
        [|reflexivity].
      destruct (chosen_setpointMode (Number value)
                  (State.targetHeatingCoolingState (state m1)));
        reflexivity. }
    split; [exact Same|].
    rewrite Same. clear Same.
    destruct (lockReply env (nLock m)) eqn:L.
    + destruct (Z_lt_le_dec (ceil_seconds (getTime env (nTime m)))
                  (State.validUntil (state m))) as [V|V].
      * intros _. now rewrite (thermostat_getState_valid device env m L V).
      * intros [H|[H|H]]; [discriminate | lia |].
        rewrite (thermostat_getState_stale device env m L V).
        now rewrite (thermostat_refresh_rejected device env
                       (asked_time (asked_lock m)) H).
    + intros _.
      now rewrite (thermostat_getState_locked_out device env m L).
Qed.

Lemma writes_leave_cache_to_read_path_witness :
  let env := world 5000 (Some snapshot_heating) true true in
  let m := boot (cached 100) in
  ceil_seconds (getTime env (nTime m)) < State.validUntil (state m) /\
  state (final (SinopeAccessory.handleTargetHeatingCoolingStateSet
                  thermostat_1 (VNum (num 0)) env m)) = state m.
Proof.
  cbv zeta.
  assert (V : ceil_seconds
                (getTime (world 5000 (Some snapshot_heating) true true)
                   (nTime (boot (cached 100)))) <
              State.validUntil (state (boot (cached 100))))
    by reflexivity.
  split; [exact V|].
  destruct (writes_leave_cache_to_read_path thermostat_1
              (world 5000 (Some snapshot_heating) true true)
              (boot (cached 100)) (VNum (num 0))) as (_ & _ & W).
  cbv zeta in W. destruct W as (_ & W).
  apply W. right. left. exact V.
Defined.

(** ** C9: the switch adapter *)

(** C9 as stated fails for a read that does not obtain the lock: the
    handler rejects with the lock's error and hands nothing to the
    callback, whatever flag the cache holds. *)
Lemma switch_read_rejected_by_lock_returns_nothing :
  let m := boot (State.set_onOff (Some true) (cached 100)) in
  let r :=
    SinopeSwitchAccessory.getOnCharacteristicHandler switch_1
      (world 5000 (Some snapshot_switch_on) true false) m in
  State.onOff (state m) = Some true /\
  outcome r = Rejected LockError /\
  callbacks (events r) = [] /\
  callbacks (events r) <> [(None, Some (VBool true))].
Proof.
  cbv zeta. split; [reflexivity|]. split; [reflexivity|].
  split; [reflexivity|]. vm_compute. discriminate.
Qed.

(** C9, as the code has it.  On the switch adapter: a refresh whose fetch
    succeeds with the on/off string present caches [true] when that string
    is "on" and [false] for any other string; a read that obtains the lock
    resolves and hands the cached on/off flag to [callback(null, v)],
    untouched when the cache is still valid, and a read that does not
    obtain the lock rejects without calling the callback; a write of
    [value] sends exactly one patch, [{onOff: "on"}] when [value] is truthy
    and [{onOff: "off"}] when it is falsy. *)
Theorem switch_read_refresh_write device env m value :
  (forall d o,
     fetchReply env (nFetch m) = Some d ->
     SinopeDeviceState.onOff d = Some o ->
     let s' := state (final (SinopeSwitchAccessory.updateState device env m)) in
     (o = "on" -> State.onOff s' = Some true) /\
     (o <> "on" -> State.onOff s' = Some false)) /\
  (let r := SinopeSwitchAccessory.getOnCharacteristicHandler device env m in
   (lockReply env (nLock m) = true ->
    outcome r = Resolved tt /\
    callbacks (events r) =
      [(None, option_map VBool (State.onOff (state (final r))))] /\
    (ceil_seconds (getTime env (nTime m)) < State.validUntil (state m) ->
     state (final r) = state m /\ fetches (events r) = [])) /\
   (lockReply env (nLock m) = false ->
    outcome r = Rejected LockError /\ callbacks (events r) = [] /\
    fetches (events r) = [] /\ state (final r) = state m)) /\
  (let r :=
     SinopeSwitchAccessory.setOnCharacteristicHandler device value env m in
   (truthy value = true ->
    patches (events r) =
      [SinopeDeviceStateRequest.mk None None (Some "on")]) /\
   (truthy value = false ->
    patches (events r) =
      [SinopeDeviceStateRequest.mk None None (Some "off")])).
Proof.
  split; [|split].
  - intros d o F O. cbv zeta.
    destruct (switch_refresh_resolved device env m d F)
      as (s' & t' & E & _ & _ & _ & _ & _ & _ & Ho).
    rewrite E. unfold final. cbn [fst snd state with_state].
    rewrite Ho, O. split.
    + intros ->. reflexivity.
    + intros N. apply String.eqb_neq in N. now rewrite N.
  - cbv zeta. split.
    + intros L. rewrite switch_read_run.
      destruct (Z_lt_le_dec (ceil_seconds (getTime env (nTime m)))
                  (State.validUntil (state m))) as [V|V].
      * rewrite (switch_getState_valid device env m L V). repeat split.
      * rewrite (switch_getState_stale device env m L V).
        destruct (fetchReply env (nFetch m)) as [d|] eqn:F.
        -- destruct (switch_refresh_resolved device env
                       (asked_time (asked_lock m)) d F)
             as (s' & t' & E & P & _).
           rewrite E. destruct (pushes_only t' P) as (_ & _ & Ct & _).
           unfold outcome, final, events. cbn [fst snd app callbacks].
           rewrite callbacks_app, Ct.
           split; [reflexivity|]. split; [reflexivity|]. intros; lia.
        -- rewrite (switch_refresh_rejected device env
                      (asked_time (asked_lock m)) F).
           split; [reflexivity|]. split; [reflexivity|]. intros; lia.
    + intros L. rewrite switch_read_run.
      rewrite (switch_getState_locked_out device env m L). repeat split.
  - cbv zeta. rewrite switch_write_run. unfold events. cbn [snd patches].
    destruct (updateReply env (nUpdate m)); cbn [patches];
      split; intros ->; reflexivity.
Qed.

Lemma switch_read_refresh_write_witness :
  let env := world 5000 (Some snapshot_switch_on) true true in
  let m := boot State.new in
  fetchReply env (nFetch m) = Some snapshot_switch_on /\
  State.onOff (state (final (SinopeSwitchAccessory.updateState switch_1
                               env m))) = Some true /\
  lockReply env (nLock m) = true /\
  callbacks (events (SinopeSwitchAccessory.getOnCharacteristicHandler
                       switch_1 env m)) = [(None, Some (VBool true))] /\
  patches (events (SinopeSwitchAccessory.setOnCharacteristicHandler
                     switch_1 (VBool false) env m)) =
    [SinopeDeviceStateRequest.mk None None (Some "off")] /\
  lockReply (world 5000 None true false) (nLock m) = false /\
  outcome (SinopeSwitchAccessory.getOnCharacteristicHandler switch_1
             (world 5000 None true false) m) = Rejected LockError.
Proof.
  cbv zeta.
  destruct (switch_read_refresh_write switch_1
              (world 5000 (Some snapshot_switch_on) true true)
              (boot State.new) (VBool false)) as (A & B & C).
  cbv zeta in A, B, C.
  split; [reflexivity|]. split.
  { apply (A snapshot_switch_on "on" eq_refl eq_refl). reflexivity. }
  split; [reflexivity|]. split.
  { destruct B as (B & _). destruct (B eq_refl) as (_ & Cb & _). exact Cb. }
  split; [apply C; reflexivity|].
  split; [reflexivity|].
  destruct (switch_read_refresh_write switch_1 (world 5000 None true false)
              (boot State.new) (VBool false)) as (_ & (_ & R) & _).
  destruct (R eq_refl) as (O & _). exact O.
Defined.

(** ** While every fetch fails *)

Lemma thermostat_getState_keeps_on_failure device env m :
  (forall n, fetchReply env n = None) ->
  state (final (SinopeAccessory.getState device env m)) = state m.
Proof.
  intros F. destruct (lockReply env (nLock m)) eqn:L.
  - destruct (Z_lt_le_dec (ceil_seconds (getTime env (nTime m)))
                (State.validUntil (state m))) as [V|V].
    + now rewrite (thermostat_getState_valid device env m L V).
    + rewrite (thermostat_getState_stale device env m L V).
      now rewrite (thermostat_refresh_rejected device env
                     (asked_time (asked_lock m)) (F _)).
  - now rewrite (thermostat_getState_locked_out device env m L).
Qed.


Lemma thermostat_task_keeps_on_failure device env t m :
  (forall n, fetchReply env n = None) ->
  state (final (thermostat_task device t env m)) = state m.
Proof.
  intros F. pose proof (thermostat_getState_keeps_on_failure device env m F)
    as G.
  destruct t as [|rd|value|value| |value]; cbn [thermostat_task].
  - unfold SinopeAccessory.constructor.
    now rewrite (thermostat_refresh_rejected device env m (F _)).
  - rewrite read_handler_run.
    destruct (SinopeAccessory.getState device env m) as [[[a|e] m1] t1];
      exact G.
  - now rewrite temperature_write_run.
  - rewrite mode_write_run.
    destruct (SinopeAccessory.getState device env m) as [[[a|e] m1] t1];
      [|exact G].
    destruct (chosen_setpointMode (Number value)
                (State.targetHeatingCoolingState (state m1))); exact G.
  - reflexivity.
  - reflexivity.
Qed.


(** Whatever was invoked, in whatever order: if no fetch has succeeded the
    cache is as it was. *)
Lemma tasks_keep_on_failure env (tasks : list (M unit)) :
  (forall task m, In task tasks -> state (final (task env m)) = state m) ->
  forall m, state (final (run_tasks tasks env m)) = state m.
Proof.
  induction tasks as [|task tasks IH]; intros K m; [reflexivity|].
  cbn [run_tasks].
  pose proof (K task m (or_introl eq_refl)) as K1.
  destruct (task env m) as [[r m1] t1].
  specialize (IH (fun task m H => K task m (or_intror H)) m1).
  destruct (run_tasks tasks env m1) as [[rs m2] t2].
  unfold final in *. cbn [fst snd] in *. congruence.
Qed.

(** ** C10: the state at construction *)




(** * Further properties of the adapters *)

(** ** The epoch *)

Lemma ceil_seconds_bounds ms :
  1000 * (ceil_seconds ms - 1) < ms <= 1000 * ceil_seconds ms.
Proof.
  unfold ceil_seconds.
  pose proof (Z.div_mod (- ms) 1000 ltac:(lia)) as D.
  pose proof (Z.mod_pos_bound (- ms) 1000 ltac:(lia)) as B.
  lia.
Qed.

Lemma ceil_seconds_mono a b : a <= b -> ceil_seconds a <= ceil_seconds b.
Proof.
  intros H. unfold ceil_seconds.
  assert (- b / 1000 <= - a / 1000) by (apply Z.div_le_mono; lia).
  lia.
Qed.

Lemma ceil_seconds_shift ms k :
  ceil_seconds (ms + 1000 * k) = ceil_seconds ms + k.
Proof.
  unfold ceil_seconds.
  replace (- (ms + 1000 * k)) with (- ms + (- k) * 1000) by lia.
  rewrite Z.div_add by lia. lia.
Qed.

(** X1.  [currentEpoch], on either adapter, reads the clock once and
    returns the millisecond reading rounded up to whole seconds: the least
    epoch [e] with [ms <= 1000 * e]; it leaves the cache alone. *)
Theorem currentEpoch_rounds_up env m :
  let ms := getTime env (nTime m) in
  let r := SinopeAccessory.currentEpoch env m in
  let r' := SinopeSwitchAccessory.currentEpoch env m in
  r' = r /\
  final r = asked_time m /\
  exists e, outcome r = Resolved e /\
            1000 * (e - 1) < ms <= 1000 * e /\
            (forall e', ms <= 1000 * e' -> e <= e').
Proof.
  cbv zeta. split; [reflexivity|]. split; [reflexivity|].
  exists (ceil_seconds (getTime env (nTime m))).
  split; [reflexivity|]. split; [apply ceil_seconds_bounds|].
  intros e' H.
  pose proof (ceil_seconds_bounds (getTime env (nTime m))). lia.
Qed.

(** ** How long a refresh is served *)

(** X2.  The time to live in milliseconds.  After a refresh whose fetch
    succeeded with the clock at [refreshed_at], the next call of the
    thermostat's state accessor, checking at [checked_at], is served from
    the cache whenever at most 9000 ms have passed, and fetches again
    whenever 10000 ms or more have passed: rounding the clock up to seconds
    makes the ten-second window last between nine and ten seconds. *)
Theorem cache_served_nine_to_ten_seconds device env m d :
  lockReply env (nLock m) = true ->
  lockReply env (S (nLock m)) = true ->
  State.validUntil (state m) <= ceil_seconds (getTime env (nTime m)) ->
  fetchReply env (nFetch m) = Some d ->
  let refreshed_at := getTime env (S (nTime m)) in
  let checked_at := getTime env (S (S (nTime m))) in
  let m1 := final (SinopeAccessory.getState device env m) in
  let second := SinopeAccessory.getState device env m1 in
  (checked_at - refreshed_at <= 9000 ->
     fetches (events second) = [] /\ state (final second) = state m1) /\
  (10000 <= checked_at - refreshed_at ->
     fetches (events second) = [FetchDevice (id device)]).
Proof.
  intros L1 L2 V F. cbv zeta.
  destruct (thermostat_refresh_resolved device env
              (asked_time (asked_lock m)) d F)
    as (s' & t' & E & _ & Vu & _).
  set (m1 := with_state s'
               (asked_time (asked_fetch (asked_time (asked_lock m))))) in *.
  assert (Em : final (SinopeAccessory.getState device env m) = m1).
  { rewrite (thermostat_getState_stale device env m L1 V), E. reflexivity. }
  rewrite Em. clear Em E.
  cbn [nTime asked_time asked_lock] in Vu.
  assert (L : lockReply env (nLock m1) = true) by exact L2.
  change (getTime env (S (S (nTime m)))) with (getTime env (nTime m1)).
  split.
  - intros W.
    assert (Va : ceil_seconds (getTime env (nTime m1)) <
                 State.validUntil (state m1)).
    { cbn [m1 state with_state]. rewrite Vu.
      pose proof (ceil_seconds_mono (getTime env (nTime m1))
                    (getTime env (S (nTime m)) + 1000 * 9) ltac:(lia)) as Mo.
      rewrite ceil_seconds_shift in Mo. lia. }
    rewrite (thermostat_getState_valid device env m1 L Va). split; reflexivity.
  - intros W.
    assert (St : State.validUntil (state m1) <=
                 ceil_seconds (getTime env (nTime m1))).
    { cbn [m1 state with_state]. rewrite Vu.
      pose proof (ceil_seconds_mono
                    (getTime env (S (nTime m)) + 1000 * 10)
                    (getTime env (nTime m1)) ltac:(lia)) as Mo.
      rewrite ceil_seconds_shift in Mo. lia. }
    rewrite (thermostat_getState_stale device env m1 L St).
    pose proof (thermostat_refresh_fetches_once device env
                  (asked_time (asked_lock m1))) as Fo.
    unfold events at 1. cbn [snd]. rewrite fetches_cons. exact Fo.
Qed.

Lemma cache_served_nine_to_ten_seconds_witness :
  let env :=
    {| getTime := fun n => match n with
                           | 0%nat => 5000 | 1%nat => 5200 | _ => 14200
                           end;
       fetchReply := fun _ => Some snapshot_heating;
       updateReply := fun _ => true; lockReply := fun _ => true |} in
  let m1 := final (SinopeAccessory.getState thermostat_1 env
                     (boot State.new)) in
  State.validUntil (state (boot State.new)) <= ceil_seconds (getTime env 0) /\
  getTime env 2 - getTime env 1 <= 9000 /\
  fetches (events (SinopeAccessory.getState thermostat_1 env m1)) = [].
Proof.
  cbv zeta. split; [vm_compute; discriminate|].
  split; [vm_compute; discriminate|].
  apply (cache_served_nine_to_ten_seconds thermostat_1
           {| getTime := fun n => match n with
                                  | 0%nat => 5000 | 1%nat => 5200 | _ => 14200
                                  end;
              fetchReply := fun _ => Some snapshot_heating;
              updateReply := fun _ => true; lockReply := fun _ => true |}
           (boot State.new) snapshot_heating eq_refl eq_refl).
  - vm_compute. discriminate.
  - reflexivity.
  - vm_compute. discriminate.
Defined.

(** ** When the lock is not obtained *)

(** X3.  A handler that goes through the state accessor has no handler of
    its own for the lock's rejection: when the lock is not obtained, every
    thermostat read, the target mode write and the switch read reject with
    the lock's error, never call the callback, make no vendor call and leave
    the cache as it was. *)
Theorem lock_rejection_reaches_the_caller device env m rd value :
  lockReply env (nLock m) = false ->
  let silent (r : Result unit * Machine * list Event) :=
    outcome r = Rejected LockError /\ callbacks (events r) = [] /\
    fetches (events r) = [] /\ patches (events r) = [] /\
    state (final r) = state m in
  silent (read_handler device rd env m) /\
  silent (SinopeAccessory.handleTargetHeatingCoolingStateSet
            device value env m) /\
  silent (SinopeSwitchAccessory.getOnCharacteristicHandler device env m).
Proof.
  intros L. cbv zeta. split; [|split].
  - rewrite read_handler_run.
    rewrite (thermostat_getState_locked_out device env m L).
    repeat split.
  - rewrite mode_write_run.
    rewrite (thermostat_getState_locked_out device env m L).
    repeat split.
  - rewrite switch_read_run.
    rewrite (switch_getState_locked_out device env m L).
    repeat split.
Qed.

Lemma lock_rejection_reaches_the_caller_witness :
  let env := world 5000 (Some snapshot_heating) true false in
  let r := SinopeAccessory.handleTargetHeatingCoolingStateSet thermostat_1
             (VNum (num 0)) env (boot (cached 100)) in
  lockReply env 0%nat = false /\
  outcome r = Rejected LockError /\ callbacks (events r) = [] /\
  patches (events r) = [].
Proof.
  cbv zeta. split; [reflexivity|].
  destruct (lock_rejection_reaches_the_caller thermostat_1
              (world 5000 (Some snapshot_heating) true false)
              (boot (cached 100)) ReadCurrentTemperature (VNum (num 0))
              eq_refl) as (_ & (A & B & _ & C & _) & _).
  repeat split; assumption.
Defined.

(** ** What one invocation does to the cache *)

(** A refresh either leaves the state alone or is a refresh whose fetch
    resolved; it reads the clock only in the second case. *)
Lemma thermostat_refresh_steps device env m :
  let r := SinopeAccessory.updateState device env m in
  (fetchReply env (nFetch m) = None /\
   state (final r) = state m /\ nTime (final r) = nTime m) \/
  (exists d, fetchReply env (nFetch m) = Some d /\
             nTime (final r) = S (nTime m)).
Proof.
  cbv zeta. destruct (fetchReply env (nFetch m)) as [d|] eqn:F.
  - right. exists d. split; [reflexivity|].
    destruct (thermostat_refresh_resolved device env m d F)
      as (s' & t' & E & _).
    now rewrite E.
  - left. rewrite (thermostat_refresh_rejected device env m F).
    repeat split.
Qed.

Lemma switch_refresh_steps device env m :
  let r := SinopeSwitchAccessory.updateState device env m in
  (fetchReply env (nFetch m) = None /\
   state (final r) = state m /\ nTime (final r) = nTime m) \/
  (exists d, fetchReply env (nFetch m) = Some d /\
             nTime (final r) = S (nTime m)).
Proof.
  cbv zeta. destruct (fetchReply env (nFetch m)) as [d|] eqn:F.
  - right. exists d. split; [reflexivity|].
    destruct (switch_refresh_resolved device env m d F)
      as (s' & t' & E & _).
    now rewrite E.
  - left. rewrite (switch_refresh_rejected device env m F).
    repeat split.
Qed.

Lemma thermostat_getState_steps device env m :
  steps_by_refresh (SinopeAccessory.updateState device) env m
    (SinopeAccessory.getState device env m).
Proof.
  unfold steps_by_refresh.
  destruct (lockReply env (nLock m)) eqn:L.
  - destruct (Z_lt_le_dec (ceil_seconds (getTime env (nTime m)))
                (State.validUntil (state m))) as [V|V].
    + rewrite (thermostat_getState_valid device env m L V).
      split; [cbn; lia | left; reflexivity].
    + rewrite (thermostat_getState_stale device env m L V).
      destruct (thermostat_refresh_steps device env
                  (asked_time (asked_lock m)))
        as [(F & S0 & T0)|(d & F & T0)];
        unfold final in *; cbn [fst snd] in *.
      * rewrite S0, T0. split; [cbn; lia | left; reflexivity].
      * rewrite T0. split; [cbn; lia|]. right.
        exists d, (asked_time (asked_lock m)).
        repeat split; try assumption; cbn; lia.
  - rewrite (thermostat_getState_locked_out device env m L).
    split; [cbn; lia | left; reflexivity].
Qed.

Lemma switch_getState_steps device env m :
  steps_by_refresh (SinopeSwitchAccessory.updateState device) env m
    (SinopeSwitchAccessory.getState device env m).
Proof.
  unfold steps_by_refresh.
  destruct (lockReply env (nLock m)) eqn:L.
  - destruct (Z_lt_le_dec (ceil_seconds (getTime env (nTime m)))
                (State.validUntil (state m))) as [V|V].
    + rewrite (switch_getState_valid device env m L V).
      split; [cbn; lia | left; reflexivity].
    + rewrite (switch_getState_stale device env m L V).
      destruct (switch_refresh_steps device env
                  (asked_time (asked_lock m)))
        as [(F & S0 & T0)|(d & F & T0)];
        unfold final in *; cbn [fst snd] in *.
      * rewrite S0, T0. split; [cbn; lia | left; reflexivity].
      * rewrite T0. split; [cbn; lia|]. right.
        exists d, (asked_time (asked_lock m)).
        repeat split; try assumption; cbn; lia.
  - rewrite (switch_getState_locked_out device env m L).
    split; [cbn; lia | left; reflexivity].
Qed.

Lemma thermostat_task_steps device env t m :
  steps_by_refresh (SinopeAccessory.updateState device) env m
    (thermostat_task device t env m).
Proof.
  pose proof (thermostat_getState_steps device env m) as G.
  destruct t as [|rd|value|value| |value]; cbn [thermostat_task].
  - unfold SinopeAccessory.constructor, steps_by_refresh.
    destruct (thermostat_refresh_steps device env m)
      as [(F & S0 & T0)|(d & F & T0)].
    + rewrite S0, T0. split; [lia | left; reflexivity].
    + rewrite T0. split; [lia|]. right. exists d, m.
      repeat split; try assumption; lia.
  - rewrite read_handler_run.
    destruct (SinopeAccessory.getState device env m) as [[[a|e] m1] t1];
      exact G.
  - rewrite temperature_write_run.
    split; [cbn; lia | left; reflexivity].
  - rewrite mode_write_run.
    destruct (SinopeAccessory.getState device env m) as [[[a|e] m1] t1];
      [|exact G].
    destruct (chosen_setpointMode (Number value)
                (State.targetHeatingCoolingState (state m1))); exact G.
  - split; [cbn; lia | left; reflexivity].
  - split; [cbn; lia | left; reflexivity].
Qed.

Lemma switch_task_steps device env t m :
  steps_by_refresh (SinopeSwitchAccessory.updateState device) env m
    (switch_task device t env m).
Proof.
  pose proof (switch_getState_steps device env m) as G.
  destruct t as [| |value]; cbn [switch_task].
  - unfold SinopeSwitchAccessory.constructor, steps_by_refresh.
    destruct (switch_refresh_steps device env m)
      as [(F & S0 & T0)|(d & F & T0)].
    + rewrite S0, T0. split; [lia | left; reflexivity].
    + rewrite T0. split; [lia|]. right. exists d, m.
      repeat split; try assumption; lia.
  - rewrite switch_read_run.
    destruct (SinopeSwitchAccessory.getState device env m)
      as [[[a|e] m1] t1]; exact G.
  - rewrite switch_write_run.
    split; [cbn; lia | left; reflexivity].
Qed.

(** What every invocation preserves holds after any number of them. *)
Lemma run_tasks_invariant env (I : Machine -> Prop) (tasks : list (M unit)) :
  (forall task m, In task tasks -> I m -> I (final (task env m))) ->
  forall m, I m -> I (final (run_tasks tasks env m)).
Proof.
  induction tasks as [|task tasks IH]; intros K m Hm; [exact Hm|].
  cbn [run_tasks].
  pose proof (K task m (or_introl eq_refl) Hm) as K1.
  destruct (task env m) as [[r m1] t1].
  specialize (IH (fun task m H => K task m (or_intror H)) m1 K1).
  destruct (run_tasks tasks env m1) as [[rs m2] t2].
  exact IH.
Qed.

(** ** Invariants of the cache *)

Lemma expiry_traced_step {R} refresh env m (r : R * Machine * list Event) :
  (forall m0 d, fetchReply env (nFetch m0) = Some d ->
     State.validUntil (state (final (refresh env m0))) =
       ceil_seconds (getTime env (nTime m0)) + 10) ->
  steps_by_refresh refresh env m r ->
  expiry_traced env m -> expiry_traced env (final r).
Proof.
  intros Hr (T & [S0|(d & m0 & S0 & T0 & T1 & F & S1)]) I.
  - destruct I as [Z0|(k & Hk & Vk)].
    + left. now rewrite S0.
    + right. exists k. split; [lia|]. now rewrite S0.
  - right. exists (nTime m0). split; [exact T1|].
    rewrite S1. now apply Hr with d.
Qed.

Lemma thermostat_refresh_expiry device env m0 d :
  fetchReply env (nFetch m0) = Some d ->
  State.validUntil (state (final (SinopeAccessory.updateState device env m0))) =
    ceil_seconds (getTime env (nTime m0)) + 10.
Proof.
  intros F. destruct (thermostat_refresh_resolved device env m0 d F)
    as (s' & t' & E & _ & Vu & _).
  now rewrite E.
Qed.

Lemma switch_refresh_expiry device env m0 d :
  fetchReply env (nFetch m0) = Some d ->
  State.validUntil
    (state (final (SinopeSwitchAccessory.updateState device env m0))) =
    ceil_seconds (getTime env (nTime m0)) + 10.
Proof.
  intros F. destruct (switch_refresh_resolved device env m0 d F)
    as (s' & t' & E & _ & Vu & _).
  now rewrite E.
Qed.

(** X4.  Whatever is invoked on an adapter after its state is created, in
    whatever order and whatever the world replies, the expiry is either
    still 0 or the epoch of one of the adapter's earlier clock readings plus
    10: nothing sets it but a refresh whose fetch resolved.  With a clock
    that does not run backwards and is not before the epoch origin, the
    expiry is therefore never more than 10 seconds ahead of the present
    epoch. *)
Theorem expiry_never_more_than_ten_ahead device env history switch_history :
  let m := final (run_tasks (map (thermostat_task device) history) env
                    (boot State.new)) in
  let sm := final (run_tasks (map (switch_task device) switch_history) env
                     (boot State.new)) in
  expiry_traced env m /\ expiry_traced env sm /\
  ((forall i j, (i <= j)%nat -> getTime env i <= getTime env j) ->
   0 <= getTime env 0 ->
   State.validUntil (state m) <= ceil_seconds (getTime env (nTime m)) + 10 /\
   State.validUntil (state sm) <= ceil_seconds (getTime env (nTime sm)) + 10).
Proof.
  cbv zeta.
  assert (Ht : expiry_traced env
                 (final (run_tasks (map (thermostat_task device) history) env
                           (boot State.new)))).
  { apply run_tasks_invariant; [|left; reflexivity].
    intros task m Hin I. apply in_map_iff in Hin.
    destruct Hin as (t & <- & _).
    apply (expiry_traced_step (SinopeAccessory.updateState device) env m);
      [apply thermostat_refresh_expiry | apply thermostat_task_steps | exact I]. }
  assert (Hs : expiry_traced env
                 (final (run_tasks (map (switch_task device) switch_history)
                           env (boot State.new)))).
  { apply run_tasks_invariant; [|left; reflexivity].
    intros task m Hin I. apply in_map_iff in Hin.
    destruct Hin as (t & <- & _).
    apply (expiry_traced_step (SinopeSwitchAccessory.updateState device) env m);
      [apply switch_refresh_expiry | apply switch_task_steps | exact I]. }
  split; [exact Ht|]. split; [exact Hs|].
  intros Mono T0.
  assert (B : forall m, expiry_traced env m ->
              State.validUntil (state m) <=
                ceil_seconds (getTime env (nTime m)) + 10).
  { intros m [Z0|(k & Hk & Vk)].
    - rewrite Z0.
      pose proof (Mono 0%nat (nTime m) ltac:(lia)).
      pose proof (ceil_seconds_nonneg (getTime env (nTime m)) ltac:(lia)).
      lia.
    - rewrite Vk.
      pose proof (ceil_seconds_mono _ _ (Mono k (nTime m) ltac:(lia))).
      lia. }
  split; apply B; assumption.
Qed.

Lemma expiry_never_more_than_ten_ahead_witness :
  let env := world 5000 (Some snapshot_heating) true true in
  let m := final (run_tasks
                    (map (thermostat_task thermostat_1)
                       [TConstruct; TGet ReadCurrentTemperature]) env
                    (boot State.new)) in
  (forall i j, (i <= j)%nat -> getTime env i <= getTime env j) /\
  0 <= getTime env 0 /\
  State.validUntil (state m) <= ceil_seconds (getTime env (nTime m)) + 10.
Proof.
  cbv zeta.
  assert (Mono : forall i j, (i <= j)%nat ->
            getTime (world 5000 (Some snapshot_heating) true true) i <=
            getTime (world 5000 (Some snapshot_heating) true true) j)
    by (intros i j _; cbn; lia).
  assert (T0 : 0 <= getTime (world 5000 (Some snapshot_heating) true true) 0)
    by (cbn; lia).
  split; [exact Mono|]. split; [exact T0|].
  destruct (expiry_never_more_than_ten_ahead thermostat_1
              (world 5000 (Some snapshot_heating) true true)
              [TConstruct; TGet ReadCurrentTemperature] [])
    as (_ & _ & B).
  destruct (B Mono T0) as (Bt & _). exact Bt.
Defined.

(** X5.  Whatever is invoked on the thermostat adapter after its state is
    created, and whatever the vendor replies, the cached current temperature
    is never undefined, the cached current heating-cooling state is 0 or 1
    and the cached target heating-cooling state is 0, 1 or 3: the adapter
    never caches cool (2) nor an undefined mode. *)
Theorem thermostat_modes_stay_in_range device env history :
  thermostat_fields_in_range
    (state (final (run_tasks (map (thermostat_task device) history) env
                     (boot State.new)))).
Proof.
  apply (run_tasks_invariant env
           (fun m => thermostat_fields_in_range (state m))).
  - intros task m Hin I. apply in_map_iff in Hin.
    destruct Hin as (t & <- & _).
    destruct (thermostat_task_steps device env t m)
      as (_ & [S0|(d & m0 & S0 & _ & _ & F & S1)]).
    + now rewrite S0.
    + rewrite S1.
      destruct (thermostat_refresh_resolved device env m0 d F)
        as (s' & t' & E & _ & _ & Mp).
      rewrite E. unfold final. cbn [fst snd state with_state].
      rewrite S0 in Mp. destruct I as (Ic & Ih & It).
      destruct (SinopeDeviceState.roomTemperature_value d) as [v|].
      * destruct Mp as (Mc & _ & Mh & Mt & _).
        unfold thermostat_fields_in_range. rewrite Mc, Mh, Mt.
        split; [discriminate|]. split.
        -- destruct (match SinopeDeviceState.outputPercentDisplay d with
                     | Some p => number_gt p (num 0)
                     | None => false
                     end); auto.
        -- destruct (string_is (SinopeDeviceState.setpointMode d) "auto");
             [auto|].
           destruct (string_is (SinopeDeviceState.setpointMode d) "off");
             auto.
      * destruct Mp as (Mc & _ & Mh & Mt & _).
        unfold thermostat_fields_in_range. rewrite Mc, Mh, Mt.
        repeat split; assumption.
  - unfold thermostat_fields_in_range. cbn. split; [discriminate|]. auto.
Qed.

(** X6.  Whatever is invoked on the switch adapter after its state is
    created, and whatever the vendor replies (a thermostat's snapshot
    included), its two cached temperatures and its two cached
    heating-cooling states stay at their initial 0: the switch's refresh
    writes nothing but the on/off flag and the expiry. *)
Theorem switch_never_caches_thermostat_fields device env switch_history :
  let s := state (final (run_tasks (map (switch_task device) switch_history)
                           env (boot State.new))) in
  State.currentTemperature s = Some (num 0) /\
  State.targetTemperature s = Some (num 0) /\
  State.currentHeatingCoolingState s = Some (num 0) /\
  State.targetHeatingCoolingState s = Some (num 0).
Proof.
  cbv zeta.
  apply (run_tasks_invariant env
           (fun m =>
              State.currentTemperature (state m) = Some (num 0) /\
              State.targetTemperature (state m) = Some (num 0) /\
              State.currentHeatingCoolingState (state m) = Some (num 0) /\
              State.targetHeatingCoolingState (state m) = Some (num 0))).
  - intros task m Hin I. apply in_map_iff in Hin.
    destruct Hin as (t & <- & _).
    destruct (switch_task_steps device env t m)
      as (_ & [S0|(d & m0 & S0 & _ & _ & F & S1)]).
    + now rewrite S0.
    + rewrite S1.
      destruct (switch_refresh_resolved device env m0 d F)
        as (s' & t' & E & _ & _ & A & B & C & D & _).
      rewrite E. unfold final. cbn [fst snd state with_state].
      rewrite A, B, C, D, S0. exact I.
  - repeat split.
Qed.

(** ** What a refresh tells the hub *)

Lemma thermostat_refresh_trace device env m d :
  fetchReply env (nFetch m) = Some d ->
  exists s' t',
    SinopeAccessory.updateState device env m =
      (Resolved tt, with_state s' (asked_time (asked_fetch m)),
       FetchDevice (id device)
         :: Log_debug "fetched update for device %s from Neviweb API: %s"
         :: t') /\
    forallb is_push t' = true /\
    pushes t' =
      match SinopeDeviceState.roomTemperature_value d with
      | Some _ =>
          (CurrentTemperature, option_map VNum (State.currentTemperature s'))
            :: match State.targetTemperature s' with
               | Some t => [(TargetTemperature, Some (VNum t))]
               | None => []
               end
            ++ [(CurrentHeatingCoolingState,
                 option_map VNum (State.currentHeatingCoolingState s'));
                (TargetHeatingCoolingState,
                 option_map VNum (State.targetHeatingCoolingState s'))]
      | None =>
          match SinopeDeviceState.onOff d with
          | Some _ => [(OutletInUse, option_map VBool (State.onOff s'))]
          | None => []
          end
      end.
Proof.
  intros H.
  unfold SinopeAccessory.updateState, try_catch, bind at 1, fetchDevice.
  rewrite H. split_snapshot d; run_model; split_tests; run_model.
  all: do 2 eexists; split; [reflexivity|]; split; reflexivity.
Qed.

Lemma switch_refresh_trace device env m d :
  fetchReply env (nFetch m) = Some d ->
  exists s' t',
    SinopeSwitchAccessory.updateState device env m =
      (Resolved tt, with_state s' (asked_time (asked_fetch m)),
       FetchDevice (id device)
         :: Log_debug "fetched update for device %s from Neviweb API: %s"
         :: t') /\
    forallb is_push t' = true /\
    pushes t' =
      match SinopeDeviceState.onOff d with
      | Some _ => [(OutletInUse, option_map VBool (State.onOff s'))]
      | None => []
      end.
Proof.
  intros H.
  unfold SinopeSwitchAccessory.updateState, try_catch, bind at 1, fetchDevice.
  rewrite H. split_snapshot d; run_model; split_tests; run_model.
  all: do 2 eexists; split; [reflexivity|]; split; reflexivity.
Qed.

(** X7.  What a refresh pushes to the hub is what it has just cached.  When
    the fetch resolves, the thermostat's refresh pushes, in this order and
    with the values the cache holds once the refresh is over: the current
    temperature, the target temperature unless it is undefined, the current
    and the target heating-cooling state; for a snapshot without room
    temperature it pushes only OutletInUse with the cached flag when the
    snapshot has an on/off string, and nothing otherwise.  The switch's
    refresh pushes OutletInUse with the cached flag when the snapshot has an
    on/off string, and nothing otherwise.  When the fetch fails nothing is
    pushed. *)
Theorem refresh_pushes_what_it_caches device env m :
  let r := SinopeAccessory.updateState device env m in
  let s' := state (final r) in
  let sr := SinopeSwitchAccessory.updateState device env m in
  let ss' := state (final sr) in
  match fetchReply env (nFetch m) with
  | None => pushes (events r) = [] /\ pushes (events sr) = []
  | Some d =>
      pushes (events r) =
        match SinopeDeviceState.roomTemperature_value d with
        | Some _ =>
            (CurrentTemperature, option_map VNum (State.currentTemperature s'))
              :: match State.targetTemperature s' with
                 | Some t => [(TargetTemperature, Some (VNum t))]
                 | None => []
                 end
              ++ [(CurrentHeatingCoolingState,
                   option_map VNum (State.currentHeatingCoolingState s'));
                  (TargetHeatingCoolingState,
                   option_map VNum (State.targetHeatingCoolingState s'))]
        | None =>
            match SinopeDeviceState.onOff d with
            | Some _ => [(OutletInUse, option_map VBool (State.onOff s'))]
            | None => []
            end
        end /\
      pushes (events sr) =
        match SinopeDeviceState.onOff d with
        | Some _ => [(OutletInUse, option_map VBool (State.onOff ss'))]
        | None => []
        end
  end.
Proof.
  cbv zeta. destruct (fetchReply env (nFetch m)) as [d|] eqn:F.
  - destruct (thermostat_refresh_trace device env m d F)
      as (s' & t' & E & _ & P).
    destruct (switch_refresh_trace device env m d F)
      as (ss' & st' & SE & _ & SP).
    rewrite E, SE. unfold final, events.
    cbn [fst snd state with_state pushes]. split; assumption.
  - rewrite (thermostat_refresh_rejected device env m F),
      (switch_refresh_rejected device env m F).
    split; reflexivity.
Qed.

(** ** Which snapshot is a thermostat's *)

(** X8.  The thermostat's refresh looks at the on/off string only when the
    room temperature is missing.  With a resolved fetch: if the snapshot has
    a room temperature with a value, the cached on/off flag is left as it
    was, whatever on/off string the snapshot carries; if the room
    temperature is absent, or present without a value, the four thermostat
    fields are left as they were and the on/off flag becomes whether the
    string is "on", or stays as it was when there is no string. *)
Theorem thermostat_refresh_classifies_snapshot device env m d :
  fetchReply env (nFetch m) = Some d ->
  let s' := state (final (SinopeAccessory.updateState device env m)) in
  (forall v, SinopeDeviceState.roomTemperature_value d = Some v ->
     State.onOff s' = State.onOff (state m)) /\
  (SinopeDeviceState.roomTemperature d = None \/
   SinopeDeviceState.roomTemperature d = Some (RootTemperature.mk None) ->
     State.currentTemperature s' = State.currentTemperature (state m) /\
     State.targetTemperature s' = State.targetTemperature (state m) /\
     State.currentHeatingCoolingState s' =
       State.currentHeatingCoolingState (state m) /\
     State.targetHeatingCoolingState s' =
       State.targetHeatingCoolingState (state m) /\
     (forall o, SinopeDeviceState.onOff d = Some o ->
        State.onOff s' = Some (String.eqb o "on")) /\
     (SinopeDeviceState.onOff d = None ->
        State.onOff s' = State.onOff (state m))).
Proof.
  intros F. cbv zeta.
  destruct (thermostat_refresh_resolved device env m d F)
    as (s' & t' & E & _ & _ & Mp).
  rewrite E. unfold final. cbn [fst snd state with_state].
  split.
  - intros v T. rewrite T in Mp. now destruct Mp as (_ & _ & _ & _ & O).
  - intros A.
    assert (T : SinopeDeviceState.roomTemperature_value d = None).
    { unfold SinopeDeviceState.roomTemperature_value.
      destruct A as [-> | ->]; reflexivity. }
    rewrite T in Mp. destruct Mp as (Mc & Mt & Mh & Mm & Mo).
    repeat split; try assumption.
    + intros o O. now rewrite Mo, O.
    + intros O. now rewrite Mo, O.
Qed.

Lemma thermostat_refresh_classifies_snapshot_witness :
  let both :=
    SinopeDeviceState.mk (Some (RootTemperature.mk (Some (43 # 2))))
      (Some (num 22)) None (Some "auto") (Some "on") None in
  let env := world 5000 (Some both) true true in
  fetchReply env 0%nat = Some both /\
  State.onOff (state (final (SinopeAccessory.updateState thermostat_1 env
                               (boot State.new)))) = None.
Proof.
  cbv zeta. split; [reflexivity|].
  destruct (thermostat_refresh_classifies_snapshot thermostat_1
              (world 5000
                 (Some (SinopeDeviceState.mk
                          (Some (RootTemperature.mk (Some (43 # 2))))
                          (Some (num 22)) None (Some "auto") (Some "on")
                          None)) true true)
              (boot State.new)
              (SinopeDeviceState.mk
                 (Some (RootTemperature.mk (Some (43 # 2))))
                 (Some (num 22)) None (Some "auto") (Some "on") None)
              eq_refl) as (A & _).
  apply (A (43 # 2)). reflexivity.
Defined.

(** ** What the handlers ask of the world *)

Lemma forallb_addressed_pushes i t :
  forallb is_push t = true -> forallb (addressed_to i) t = true.
Proof.
  induction t as [|e t IH]; [reflexivity|].
  cbn [forallb]. intros H. apply andb_prop in H. destruct H as [He Ht].
  rewrite (IH Ht). destruct e; try discriminate He. reflexivity.
Qed.

Lemma thermostat_refresh_addressed device env m :
  forallb (addressed_to (id device))
    (events (SinopeAccessory.updateState device env m)) = true.
Proof.
  destruct (fetchReply env (nFetch m)) as [d|] eqn:F.
  - destruct (thermostat_refresh_resolved device env m d F)
      as (s' & t' & E & P & _).
    rewrite E. unfold events. cbn [snd forallb addressed_to].
    rewrite Z.eqb_refl. now apply forallb_addressed_pushes.
  - rewrite (thermostat_refresh_rejected device env m F).
    unfold events. cbn [snd forallb addressed_to].
    now rewrite Z.eqb_refl.
Qed.

Lemma switch_refresh_addressed device env m :
  forallb (addressed_to (id device))
    (events (SinopeSwitchAccessory.updateState device env m)) = true.
Proof.
  destruct (fetchReply env (nFetch m)) as [d|] eqn:F.
  - destruct (switch_refresh_resolved device env m d F)
      as (s' & t' & E & P & _).
    rewrite E. unfold events. cbn [snd forallb addressed_to].
    rewrite Z.eqb_refl. now apply forallb_addressed_pushes.
  - rewrite (switch_refresh_rejected device env m F).
    unfold events. cbn [snd forallb addressed_to].
    now rewrite Z.eqb_refl.
Qed.

Lemma thermostat_getState_addressed device env m :
  forallb (addressed_to (id device))
    (events (SinopeAccessory.getState device env m)) = true.
Proof.
  destruct (lockReply env (nLock m)) eqn:L.
  - destruct (Z_lt_le_dec (ceil_seconds (getTime env (nTime m)))
                (State.validUntil (state m))) as [V|V].
    + now rewrite (thermostat_getState_valid device env m L V).
    + rewrite (thermostat_getState_stale device env m L V).
      unfold events at 1. cbn [snd forallb addressed_to andb].
      apply thermostat_refresh_addressed.
  - now rewrite (thermostat_getState_locked_out device env m L).
Qed.

Lemma switch_getState_addressed device env m :
  forallb (addressed_to (id device))
    (events (SinopeSwitchAccessory.getState device env m)) = true.
Proof.
  destruct (lockReply env (nLock m)) eqn:L.
  - destruct (Z_lt_le_dec (ceil_seconds (getTime env (nTime m)))
                (State.validUntil (state m))) as [V|V].
    + now rewrite (switch_getState_valid device env m L V).
    + rewrite (switch_getState_stale device env m L V).
      unfold events at 1. cbn [snd forallb addressed_to andb].
      apply switch_refresh_addressed.
  - now rewrite (switch_getState_locked_out device env m L).
Qed.

Lemma thermostat_task_addressed device env t m :
  forallb (addressed_to (id device))
    (events (thermostat_task device t env m)) = true.
Proof.
  pose proof (thermostat_getState_addressed device env m) as G.
  destruct t as [|rd|value|value| |value]; cbn [thermostat_task].
  - apply thermostat_refresh_addressed.
  - rewrite read_handler_run.
    destruct (SinopeAccessory.getState device env m) as [[[a|e] m1] t1];
      unfold events in *; cbn [snd forallb addressed_to andb] in *;
      [rewrite forallb_app, G; reflexivity | exact G].
  - rewrite temperature_write_run. unfold events.
    cbn [snd forallb addressed_to andb]. rewrite Z.eqb_refl.
    destruct (updateReply env (nUpdate m)); reflexivity.
  - rewrite mode_write_run.
    destruct (SinopeAccessory.getState device env m) as [[[a|e] m1] t1];
      unfold events in *; cbn [snd forallb addressed_to andb] in *;
      [|exact G].
    destruct (chosen_setpointMode (Number value)
                (State.targetHeatingCoolingState (state m1)));
      cbn [snd forallb addressed_to andb]; rewrite forallb_app, G;
      cbn [forallb addressed_to andb]; rewrite ?Z.eqb_refl;
      destruct (updateReply env (nUpdate m1)); reflexivity.
  - reflexivity.
  - reflexivity.
Qed.

Lemma switch_task_addressed device env t m :
  forallb (addressed_to (id device))
    (events (switch_task device t env m)) = true.
Proof.
  pose proof (switch_getState_addressed device env m) as G.
  destruct t as [| |value]; cbn [switch_task].
  - apply switch_refresh_addressed.
  - rewrite switch_read_run.
    destruct (SinopeSwitchAccessory.getState device env m)
      as [[[a|e] m1] t1];
      unfold events in *; cbn [snd forallb addressed_to andb] in *;
      [rewrite forallb_app, G; reflexivity | exact G].
  - rewrite switch_write_run. unfold events.
    cbn [snd forallb addressed_to andb]. rewrite Z.eqb_refl.
    destruct (updateReply env (nUpdate m)); reflexivity.
Qed.

Lemma run_tasks_events env (P : Event -> bool) (tasks : list (M unit)) :
  (forall task m, In task tasks -> forallb P (events (task env m)) = true) ->
  forall m, forallb P (events (run_tasks tasks env m)) = true.
Proof.
  induction tasks as [|task tasks IH]; intros K m; [reflexivity|].
  cbn [run_tasks].
  pose proof (K task m (or_introl eq_refl)) as K1.
  destruct (task env m) as [[r m1] t1].
  specialize (IH (fun task m H => K task m (or_intror H)) m1).
  destruct (run_tasks tasks env m1) as [[rs m2] t2].
  unfold events in *. cbn [snd] in *. now rewrite forallb_app, K1, IH.
Qed.

(** X10.  An adapter only ever talks to the vendor about its own device:
    whatever is invoked on it, in whatever order and whatever the world
    replies, every fetch and every update in the trace carries the id of the
    adapter's device. *)
Theorem vendor_calls_are_for_own_device device env m history switch_history :
  forallb (addressed_to (id device))
    (events (run_tasks (map (thermostat_task device) history) env m)) = true /\
  forallb (addressed_to (id device))
    (events (run_tasks (map (switch_task device) switch_history) env m)) =
    true.
Proof.
  split; apply run_tasks_events; intros task m0 Hin;
    apply in_map_iff in Hin; destruct Hin as (t & <- & _).
  - apply thermostat_task_addressed.
  - apply switch_task_addressed.
Qed.

(** ** Writes and the reads that follow *)

Lemma blind_ret {A} (a : A) : update_blind (ret a).
Proof. intros env m. reflexivity. Qed.

Lemma blind_bind {A B} (c : M A) (f : A -> M B) :
  update_blind c -> (forall a, update_blind (f a)) -> update_blind (bind c f).
Proof.
  intros Hc Hf env m. unfold bind. rewrite Hc.
  destruct (c env m) as [[[a|e] m1] t1]; cbn [after_update]; [|reflexivity].
  rewrite Hf. destruct (f a env m1) as [[r m2] t2]. reflexivity.
Qed.

Lemma blind_try_catch {A} (c : M A) (h : Exn -> M A) :
  update_blind c -> (forall e, update_blind (h e)) ->
  update_blind (try_catch c h).
Proof.
  intros Hc Hh env m. unfold try_catch. rewrite Hc.
  destruct (c env m) as [[[a|e] m1] t1]; cbn [after_update]; [reflexivity|].
  rewrite Hh. destruct (h e env m1) as [[r m2] t2]. reflexivity.
Qed.

Lemma blind_emit e : update_blind (emit e).
Proof. intros env m. reflexivity. Qed.

Lemma blind_get_state : update_blind get_state.
Proof. intros env m. reflexivity. Qed.

Lemma blind_assign f : update_blind (assign f).
Proof. intros env m. reflexivity. Qed.

Lemma blind_now : update_blind now.
Proof. intros env m. reflexivity. Qed.

Lemma blind_fetchDevice i : update_blind (fetchDevice i).
Proof. intros env m. reflexivity. Qed.

Lemma blind_lock_acquire {A} key (body : M A) :
  update_blind body -> update_blind (lock_acquire key body).
Proof.
  intros Hb env m. unfold lock_acquire. cbn [nLock asked_update].
  destruct (lockReply env (nLock m)); [|reflexivity].
  change (asked_lock (asked_update m)) with (asked_update (asked_lock m)).
  apply Hb.
Qed.

(** Blindness follows the shape of the program. *)
Ltac blind :=
  repeat first
    [ apply blind_try_catch | apply blind_bind | apply blind_lock_acquire
    | apply blind_ret | apply blind_emit | apply blind_get_state
    | apply blind_assign | apply blind_now | apply blind_fetchDevice
    | match goal with
      | |- update_blind (match ?x with _ => _ end) => destruct x
      | |- forall _, update_blind _ => intro
      end ].

Lemma read_handler_blind device rd : update_blind (read_handler device rd).
Proof.
  destruct rd;
    unfold read_handler, SinopeAccessory.handleCurrentTemperatureGet,
      SinopeAccessory.handleTargetTemperatureGet,
      SinopeAccessory.handleCurrentHeatingCoolingStateGet,
      SinopeAccessory.handleTargetHeatingCoolingStateGet,
      SinopeAccessory.getState, SinopeAccessory.isValid,
      SinopeAccessory.updateState, SinopeAccessory.currentEpoch,
      read, callback, log_debug, log_error, updateCharacteristic;
    blind.
Qed.

Lemma switch_read_blind device :
  update_blind (SinopeSwitchAccessory.getOnCharacteristicHandler device).
Proof.
  unfold SinopeSwitchAccessory.getOnCharacteristicHandler,
    SinopeSwitchAccessory.getState, SinopeSwitchAccessory.isValid,
    SinopeSwitchAccessory.updateState, SinopeSwitchAccessory.currentEpoch,
    read, callback, log_debug, log_error, updateCharacteristic.
  blind.
Qed.

(** X9.  The write of the target temperature and the write of the switch
    ask the world for one thing only, the vendor update: they make no fetch,
    take no lock, read neither the clock nor the cache and push nothing to
    the hub; the target temperature write sends exactly the patch
    [{roomSetpoint: Number(value)}].  The read that follows such a write
    therefore runs exactly as it would have run without the write: the same
    decision to refresh or not, the same trace, the same value handed to the
    callback and the same cache afterwards. *)
Theorem read_after_direct_write_is_unchanged device env m value rd :
  let w := SinopeAccessory.handleTargetTemperatureSet device value env m in
  let sw :=
    SinopeSwitchAccessory.setOnCharacteristicHandler device value env m in
  (final w = asked_update m /\ fetches (events w) = [] /\
   pushes (events w) = [] /\
   patches (events w) =
     [SinopeDeviceStateRequest.mk (Some (Number value)) None None]) /\
  (final sw = asked_update m /\ fetches (events sw) = [] /\
   pushes (events sw) = []) /\
  read_handler device rd env (final w) =
    after_update (read_handler device rd env m) /\
  SinopeSwitchAccessory.getOnCharacteristicHandler device env (final sw) =
    after_update (SinopeSwitchAccessory.getOnCharacteristicHandler
                    device env m).
Proof.
  cbv zeta. rewrite temperature_write_run, switch_write_run.
  unfold final at 1 2 3 4, events. cbn [fst snd].
  split; [|split; [|split]].
  - destruct (updateReply env (nUpdate m)); repeat split.
  - destruct (updateReply env (nUpdate m)); repeat split.
  - apply read_handler_blind.
  - apply switch_read_blind.
Qed.

(** ** The completion callback *)

Lemma thermostat_getState_outcome device env m :
  outcome (SinopeAccessory.getState device env m) =
    if lockReply env (nLock m) then Resolved this_state
    else Rejected LockError.
Proof.
  destruct (lockReply env (nLock m)) eqn:L.
  - now apply thermostat_getState_granted.
  - now rewrite (thermostat_getState_locked_out device env m L).
Qed.

Lemma switch_getState_summary device env m :
  let r := SinopeSwitchAccessory.getState device env m in
  outcome r = (if lockReply env (nLock m) then Resolved this_state
               else Rejected LockError) /\
  patches (events r) = [] /\ callbacks (events r) = [] /\
  (length (fetches (events r)) <= 1)%nat.
Proof.
  cbv zeta. destruct (lockReply env (nLock m)) eqn:L.
  - destruct (Z_lt_le_dec (ceil_seconds (getTime env (nTime m)))
                (State.validUntil (state m))) as [V|V].
    + rewrite (switch_getState_valid device env m L V). repeat split.
      cbn. lia.
    + rewrite (switch_getState_stale device env m L V).
      pose proof (switch_refresh_fetches_once device env
                    (asked_time (asked_lock m))) as Fo.
      destruct (fetchReply env (nFetch m)) as [d|] eqn:F.
      * destruct (switch_refresh_resolved device env
                    (asked_time (asked_lock m)) d F)
          as (s' & t' & E & P & _).
        rewrite E in *. destruct (pushes_only t' P) as (_ & Pt & Ct & _).
        unfold outcome, events in *. cbn [fst snd patches callbacks] in *.
        rewrite fetches_cons. cbn [is_fetch]. rewrite Fo.
        repeat split; try assumption. cbn. lia.
      * rewrite (switch_refresh_rejected device env
                   (asked_time (asked_lock m)) F).
        repeat split. cbn. lia.
  - rewrite (switch_getState_locked_out device env m L). repeat split.
    cbn. lia.
Qed.

(** X11.  Every handler the hub can invoke, on either adapter, ends in one
    of two ways whatever the world replies: it resolves having called the
    callback exactly once, with a null error, or it is rejected by the lock
    and has not called the callback at all.  No vendor failure ever reaches
    the callback or the caller.  The constructor's refresh resolves and
    calls no callback. *)
Theorem handlers_acknowledge_once_or_reject device env m t st :
  match t with
  | TConstruct =>
      outcome (thermostat_task device t env m) = Resolved tt /\
      callbacks (events (thermostat_task device t env m)) = []
  | _ => acknowledged (thermostat_task device t env m)
  end /\
  match st with
  | SConstruct =>
      outcome (switch_task device st env m) = Resolved tt /\
      callbacks (events (switch_task device st env m)) = []
  | _ => acknowledged (switch_task device st env m)
  end.
Proof.
  split.
  - pose proof (thermostat_getState_outcome device env m) as O.
    destruct (thermostat_getState_quiet device env m) as (_ & C & _).
    destruct t as [|rd|value|value| |value]; cbn [thermostat_task];
      unfold acknowledged.
    + split; [apply thermostat_refresh_total|].
      now destruct (thermostat_refresh_quiet device env m) as (_ & Cq & _).
    + rewrite read_handler_run.
      destruct (SinopeAccessory.getState device env m) as [[[a|e] m1] t1];
        unfold outcome, events in *; cbn [fst snd callbacks] in *.
      * rewrite callbacks_app, C. eexists. reflexivity.
      * destruct (lockReply env (nLock m)); [discriminate|].
        split; [congruence | exact C].
    + rewrite temperature_write_run.
      unfold outcome, events; cbn [fst snd callbacks].
      destruct (updateReply env (nUpdate m)); eexists; reflexivity.
    + rewrite mode_write_run.
      destruct (SinopeAccessory.getState device env m) as [[[a|e] m1] t1];
        unfold outcome, events in *; cbn [fst snd callbacks] in *.
      * destruct (chosen_setpointMode (Number value)
                    (State.targetHeatingCoolingState (state m1)));
          cbn [fst snd callbacks]; rewrite callbacks_app, C;
          destruct (updateReply env (nUpdate m1)); eexists; reflexivity.
      * destruct (lockReply env (nLock m)); [discriminate|].
        split; [congruence | exact C].
    + eexists. reflexivity.
    + eexists. reflexivity.
  - destruct (switch_getState_summary device env m) as (O & _ & C & _).
    destruct st as [| |value]; cbn [switch_task]; unfold acknowledged.
    + unfold SinopeSwitchAccessory.constructor.
      split; [apply switch_refresh_total|].
      destruct (fetchReply env (nFetch m)) as [d|] eqn:F.
      * destruct (switch_refresh_resolved device env m d F)
          as (s' & t' & E & P & _).
        rewrite E. destruct (pushes_only t' P) as (_ & _ & Ct & _).
        exact Ct.
      * now rewrite (switch_refresh_rejected device env m F).
    + rewrite switch_read_run.
      destruct (SinopeSwitchAccessory.getState device env m)
        as [[[a|e] m1] t1];
        unfold outcome, events in *; cbn [fst snd callbacks] in *.
      * rewrite callbacks_app, C. eexists. reflexivity.
      * destruct (lockReply env (nLock m)); [discriminate|].
        split; [congruence | exact C].
    + rewrite switch_write_run.
      unfold outcome, events; cbn [fst snd callbacks].
      destruct (updateReply env (nUpdate m)); eexists; reflexivity.
Qed.

(** ** How much one invocation asks of the vendor *)

Lemma thermostat_getState_fetch_budget device env m :
  (length (fetches (events (SinopeAccessory.getState device env m))) <= 1)%nat.
Proof.
  destruct (lockReply env (nLock m)) eqn:L.
  - destruct (Z_lt_le_dec (ceil_seconds (getTime env (nTime m)))
                (State.validUntil (state m))) as [V|V].
    + rewrite (thermostat_getState_valid device env m L V). cbn. lia.
    + rewrite (thermostat_getState_stale device env m L V).
      unfold events at 1. cbn [snd]. rewrite fetches_cons. cbn [is_fetch].
      rewrite thermostat_refresh_fetches_once. cbn. lia.
  - rewrite (thermostat_getState_locked_out device env m L). cbn. lia.
Qed.

(** X12.  Whatever the world replies, one invocation makes at most one
    fetch and sends at most one patch.  The reads and the constructor's
    refresh never send a patch; the write of the target temperature, the
    write of the switch and the display-unit handlers never fetch; the
    display-unit handlers make no vendor call at all. *)
Theorem one_invocation_vendor_budget device env m t st :
  let r := thermostat_task device t env m in
  let sr := switch_task device st env m in
  ((length (fetches (events r)) <= 1)%nat /\
   (length (patches (events r)) <= 1)%nat /\
   match t with
   | TConstruct | TGet _ => patches (events r) = []
   | TSetTargetTemperature _ => fetches (events r) = []
   | TSetTargetHeatingCoolingState _ => True
   | TGetTemperatureDisplayUnits | TSetTemperatureDisplayUnits _ =>
       fetches (events r) = [] /\ patches (events r) = []
   end) /\
  ((length (fetches (events sr)) <= 1)%nat /\
   (length (patches (events sr)) <= 1)%nat /\
   match st with
   | SConstruct | SGetOn => patches (events sr) = []
   | SSetOn _ => fetches (events sr) = []
   end).
Proof.
  cbv zeta. split.
  - pose proof (thermostat_getState_fetch_budget device env m) as B.
    destruct (thermostat_getState_quiet device env m) as (P & _).
    destruct t as [|rd|value|value| |value]; cbn [thermostat_task].
    + unfold SinopeAccessory.constructor.
      rewrite thermostat_refresh_fetches_once.
      destruct (thermostat_refresh_quiet device env m) as (Pq & _).
      rewrite Pq. repeat split; cbn; lia.
    + rewrite read_handler_run.
      destruct (SinopeAccessory.getState device env m) as [[[a|e] m1] t1];
        unfold events in *; cbn [snd] in *;
        rewrite ?fetches_cons; cbn [is_fetch patches];
        rewrite ?fetches_app, ?patches_app, ?P; cbn [fetches filter is_fetch patches app];
        rewrite ?app_nil_r; repeat split; try assumption; cbn; lia.
    + rewrite temperature_write_run. unfold events. cbn [snd].
      destruct (updateReply env (nUpdate m)); repeat split; cbn; lia.
    + rewrite mode_write_run.
      destruct (SinopeAccessory.getState device env m) as [[[a|e] m1] t1];
        unfold events in *; cbn [snd] in *.
      * destruct (chosen_setpointMode (Number value)
                    (State.targetHeatingCoolingState (state m1)));
          cbn [snd]; rewrite fetches_cons; cbn [is_fetch patches];
          rewrite fetches_app, patches_app, P;
          destruct (updateReply env (nUpdate m1));
          cbn [fetches filter is_fetch patches app];
          rewrite ?app_nil_r; repeat split; try assumption; cbn; lia.
      * rewrite fetches_cons; cbn [is_fetch patches]. rewrite P.
        repeat split; try assumption; cbn; lia.
    + repeat split; cbn; lia.
    + repeat split; cbn; lia.
  - destruct (switch_getState_summary device env m) as (_ & P & _ & B).
    destruct st as [| |value]; cbn [switch_task].
    + unfold SinopeSwitchAccessory.constructor.
      rewrite switch_refresh_fetches_once.
      assert (Pq : patches (events (SinopeSwitchAccessory.updateState
                                      device env m)) = []).
      { destruct (fetchReply env (nFetch m)) as [d|] eqn:F.
        - destruct (switch_refresh_resolved device env m d F)
            as (s' & t' & E & Pp & _).
          rewrite E. now destruct (pushes_only t' Pp) as (_ & Pt & _).
        - now rewrite (switch_refresh_rejected device env m F). }
      rewrite Pq. repeat split; cbn; lia.
    + rewrite switch_read_run.
      destruct (SinopeSwitchAccessory.getState device env m)
        as [[[a|e] m1] t1];
        unfold events in *; cbn [snd] in *;
        rewrite ?fetches_cons; cbn [is_fetch patches];
        rewrite ?fetches_app, ?patches_app, ?P; cbn [fetches filter is_fetch patches app];
        rewrite ?app_nil_r; repeat split; try assumption; cbn; lia.
    + rewrite switch_write_run. unfold events. cbn [snd].
      destruct (updateReply env (nUpdate m)); repeat split; cbn; lia.
Qed.

(** X13.  The refresh the constructor starts goes neither through the lock
    nor through the validity check: whatever the lock would answer and
    whatever expiry the state holds, it makes exactly one fetch, asks
    nothing of the lock and resolves. *)
Theorem constructor_refresh_bypasses_lock_and_ttl device env m :
  let r := SinopeAccessory.constructor device env m in
  let sr := SinopeSwitchAccessory.constructor device env m in
  (outcome r = Resolved tt /\
   fetches (events r) = [FetchDevice (id device)] /\
   nLock (final r) = nLock m) /\
  (outcome sr = Resolved tt /\
   fetches (events sr) = [FetchDevice (id device)] /\
   nLock (final sr) = nLock m).
Proof.
  cbv zeta. unfold SinopeAccessory.constructor,
    SinopeSwitchAccessory.constructor.
  split; (split; [|split]).
  - apply thermostat_refresh_total.
  - apply thermostat_refresh_fetches_once.
  - now destruct (thermostat_refresh_quiet device env m) as (_ & _ & _ & K).
  - apply switch_refresh_total.
  - apply switch_refresh_fetches_once.
  - destruct (fetchReply env (nFetch m)) as [d|] eqn:F.
    + destruct (switch_refresh_resolved device env m d F)
        as (s' & t' & E & _).
      now rewrite E.
    + now rewrite (switch_refresh_rejected device env m F).
Qed.

(** ** The patches of the target mode write *)

Lemma chosen_cases mode target :
  chosen_setpointMode mode target = None \/
  chosen_setpointMode mode target = Some "off" \/
  chosen_setpointMode mode target = Some "auto".
Proof.
  unfold chosen_setpointMode.
  destruct (number_eq mode (num 0)); cbn [negb andb]; [auto|].
  destruct target as [t|]; [|auto].
  destruct (number_eq t (num 0)); auto.
Qed.

Lemma mode_write_patches device value env m :
  patches (events (SinopeAccessory.handleTargetHeatingCoolingStateSet
                     device value env m)) =
    if lockReply env (nLock m) then
      match chosen_setpointMode (Number value)
              (State.targetHeatingCoolingState
                 (state (final (SinopeAccessory.getState device env m)))) with
      | Some md => [SinopeDeviceStateRequest.mk None (Some md) None]
      | None => []
      end
    else [].
Proof.
  rewrite mode_write_run.
  pose proof (thermostat_getState_outcome device env m) as O.
  destruct (thermostat_getState_quiet device env m) as (P & _).
  destruct (SinopeAccessory.getState device env m) as [[[a|e] m1] t1];
    unfold outcome, final, events in *; cbn [fst snd] in *.
  - destruct (lockReply env (nLock m)); [|discriminate].
    destruct (chosen_setpointMode (Number value)
                (State.targetHeatingCoolingState (state m1)));
      cbn [snd patches]; rewrite patches_app, P;
      destruct (updateReply env (nUpdate m1)); reflexivity.
  - destruct (lockReply env (nLock m)); [discriminate|]. exact P.
Qed.

(** X14.  The write of the target mode never sends any setpoint mode but
    "off" and "auto": for every written value, every cache and every reply
    of the world, it sends nothing, or exactly [{setpointMode: "off"}], or
    exactly [{setpointMode: "auto"}], and never a room setpoint nor an
    on/off string. *)
Theorem mode_write_sends_only_off_or_auto device env m value :
  let sent :=
    patches (events (SinopeAccessory.handleTargetHeatingCoolingStateSet
                       device value env m)) in
  sent = [] \/
  sent = [SinopeDeviceStateRequest.mk None (Some "off") None] \/
  sent = [SinopeDeviceStateRequest.mk None (Some "auto") None].
Proof.
  cbv zeta. rewrite mode_write_patches.
  destruct (lockReply env (nLock m)); [|auto].
  destruct (chosen_cases (Number value)
              (State.targetHeatingCoolingState
                 (state (final (SinopeAccessory.getState device env m)))))
    as [-> | [-> | ->]]; auto.
Qed.

(** X15.  While the vendor cannot be reached.  If every fetch since the
    state was created has failed, whatever was invoked before, the cached
    target mode is still the initial 0; so a write of the target mode that
    obtains the lock sends [{setpointMode: "auto"}] for every non-zero
    value, and [{setpointMode: "off"}] for 0. *)
Theorem mode_write_before_any_refresh device env history value :
  (forall n, fetchReply env n = None) ->
  let m := final (run_tasks (map (thermostat_task device) history) env
                    (boot State.new)) in
  lockReply env (nLock m) = true ->
  let sent :=
    patches (events (SinopeAccessory.handleTargetHeatingCoolingStateSet
                       device value env m)) in
  (~ (Number value == 0)%Q ->
     sent = [SinopeDeviceStateRequest.mk None (Some "auto") None]) /\
  ((Number value == 0)%Q ->
     sent = [SinopeDeviceStateRequest.mk None (Some "off") None]).
Proof.
  intros F. cbv zeta.
  set (m := final (run_tasks (map (thermostat_task device) history) env
                     (boot State.new))).
  assert (S0 : state m = State.new).
  { unfold m. rewrite tasks_keep_on_failure; [reflexivity|].
    intros task m0 Hin. apply in_map_iff in Hin.
    destruct Hin as (t & <- & _).
    now apply thermostat_task_keeps_on_failure. }
  intros L. rewrite mode_write_patches, L.
  rewrite (thermostat_getState_keeps_on_failure device env m F), S0.
  split.
  - intros N. rewrite chosen_auto; [reflexivity | exact N |].
    exists (num 0). split; reflexivity.
  - intros Z0. now rewrite chosen_off.
Qed.

Lemma mode_write_before_any_refresh_witness :
  let env := world 5000 None true true in
  let m := final (run_tasks
                    (map (thermostat_task thermostat_1)
                       [TConstruct; TGet ReadTargetHeatingCoolingState]) env
                    (boot State.new)) in
  (forall n, fetchReply env n = None) /\
  lockReply env (nLock m) = true /\
  ~ (Number (VNum (num 1)) == 0)%Q /\
  patches (events (SinopeAccessory.handleTargetHeatingCoolingStateSet
                     thermostat_1 (VNum (num 1)) env m)) =
    [SinopeDeviceStateRequest.mk None (Some "auto") None].
Proof.
  cbv zeta.
  assert (N : ~ (Number (VNum (num 1)) == 0)%Q)
    by (vm_compute; discriminate).
  split; [reflexivity|]. split; [reflexivity|]. split; [exact N|].
  destruct (mode_write_before_any_refresh thermostat_1
              (world 5000 None true true)
              [TConstruct; TGet ReadTargetHeatingCoolingState]
              (VNum (num 1)) (fun _ => eq_refl) eq_refl) as (A & _).
  exact (A N).
Defined.

(** ** From the vendor's snapshot to the callback *)

(** X16.  A read that has to refresh hands the hub what the vendor has just
    reported.  With the lock obtained, the cache stale and the fetch
    resolved: for a snapshot with a room temperature, the thermostat reads
    deliver that temperature, the snapshot's room setpoint (undefined when
    the snapshot has none), 1 or 0 according to whether the output percent
    is present and positive, and 3, 0 or 1 according to the setpoint mode;
    for a snapshot with an on/off string the switch read delivers whether
    that string is "on". *)
Theorem stale_read_delivers_the_snapshot device env m d rd :
  lockReply env (nLock m) = true ->
  State.validUntil (state m) <= ceil_seconds (getTime env (nTime m)) ->
  fetchReply env (nFetch m) = Some d ->
  (forall v, SinopeDeviceState.roomTemperature_value d = Some v ->
     callbacks (events (read_handler device rd env m)) =
       [(None,
         match rd with
         | ReadCurrentTemperature => Some (VNum v)
         | ReadTargetTemperature =>
             option_map VNum (SinopeDeviceState.roomSetpoint d)
         | ReadCurrentHeatingCoolingState =>
             Some (VNum (if match SinopeDeviceState.outputPercentDisplay d with
                            | Some p => number_gt p (num 0)
                            | None => false
                            end
                         then num 1 else num 0))
         | ReadTargetHeatingCoolingState =>
             Some (VNum (if string_is (SinopeDeviceState.setpointMode d) "auto"
                         then num 3
                         else if string_is (SinopeDeviceState.setpointMode d)
                                   "off"
                              then num 0 else num 1))
         end)]) /\
  (forall o, SinopeDeviceState.onOff d = Some o ->
     callbacks (events (SinopeSwitchAccessory.getOnCharacteristicHandler
                          device env m)) =
       [(None, Some (VBool (String.eqb o "on")))]).
Proof.
  intros L V F. split.
  - intros v T. rewrite read_handler_run.
    rewrite (thermostat_getState_stale device env m L V).
    destruct (thermostat_refresh_resolved device env
                (asked_time (asked_lock m)) d F)
      as (s' & t' & E & P & _ & Mp).
    rewrite E, T in *. destruct (pushes_only t' P) as (_ & _ & Ct & _).
    destruct Mp as (Mc & Mt & Mh & Mm & _).
    unfold final, events. cbn [fst snd app callbacks state with_state].
    rewrite callbacks_app, Ct.
    destruct rd; cbn [read_field callbacks app];
      rewrite ?Mc, ?Mt, ?Mh, ?Mm; reflexivity.
  - intros o O. rewrite switch_read_run.
    rewrite (switch_getState_stale device env m L V).
    destruct (switch_refresh_resolved device env
                (asked_time (asked_lock m)) d F)
      as (s' & t' & E & P & _ & _ & _ & _ & _ & Mo).
    rewrite E. destruct (pushes_only t' P) as (_ & _ & Ct & _).
    unfold final, events. cbn [fst snd app callbacks state with_state].
    rewrite callbacks_app, Ct, Mo, O. reflexivity.
Qed.

Lemma stale_read_delivers_the_snapshot_witness :
  let env := world 5000 (Some snapshot_no_setpoint) true true in
  let m := boot (cached 3) in
  lockReply env (nLock m) = true /\
  State.validUntil (state m) <= ceil_seconds (getTime env (nTime m)) /\
  fetchReply env (nFetch m) = Some snapshot_no_setpoint /\
  callbacks (events (read_handler thermostat_1 ReadTargetTemperature env m)) =
    [(None, None)].
Proof.
  cbv zeta.
  assert (V : State.validUntil (state (boot (cached 3))) <=
              ceil_seconds
                (getTime (world 5000 (Some snapshot_no_setpoint) true true)
                   (nTime (boot (cached 3)))))
    by (vm_compute; discriminate).
  split; [reflexivity|]. split; [exact V|]. split; [reflexivity|].
  destruct (stale_read_delivers_the_snapshot thermostat_1
              (world 5000 (Some snapshot_no_setpoint) true true)
              (boot (cached 3)) snapshot_no_setpoint ReadTargetTemperature
              eq_refl V eq_refl) as (A & _).
  apply (A (43 # 2)). reflexivity.
Defined.
